(** * EMaligner: sparse assembly, chunk merging and pair weighting

    A shallow embedding of [EMaligner/EMaligner.py]: the per-pair chunk
    assembler [calculate_processing_chunk], the pair weight policy
    [tilepair_weight], the two chunk mergers [concatenate_chunks] and
    [concatenate_results], the system builder [create_CSR_A], the
    driver [assemble_and_solve], the entry point [run] and the two
    reading loops of [assemble_from_hdf5].

    Conventions of the embedding.
    - A Python call either returns or raises: [result A] is [Ok a] or
      [Raise e].
    - numpy [float64] values are primitive binary64 floats.
    - numpy [int64] values (section values, column indices, row
      pointers) are in [Z], and the arithmetic on them is that of [Z].
      It is the arithmetic of the code as long as no result leaves the
      range of [int64], where the code wraps around: the theorems that
      rest on a sum or a difference of such values carry the bound that
      keeps it in range ([sections_in_range], [row_pointers_in_range]).
      Sizes and positions are in [nat].
    - A one-dimensional numpy array is a [list]; a Python [dict] with a
      fixed set of keys is a record, a [dict] whose key set matters is a
      [gmap]. *)

From Stdlib Require Import ZArith Lia Bool.
From Stdlib Require Import Floats.PrimFloat Floats.SpecFloat Floats.FloatOps.
From Stdlib Require Import Structures.OrderedTypeEx.
From stdpp Require Import base list strings sorting gmap.
From stdpp Require Import pretty.

(** ** Outcomes of Python calls *)

Inductive exn : Type :=
| IndexError
| ValueError
| TypeError
| KeyError (key : string)
| NameError (name : string)
| EMalignerException (msg : string)
| UnboundLocalError (name : string)
| ExternalError (who : string)
| Unmodelled.

Inductive result (A : Type) : Type :=
| Ok (a : A)
| Raise (e : exn).
Arguments Ok {A} a.
Arguments Raise {A} e.

Definition rbind {A B} (r : result A) (k : A -> result B) : result B :=
  match r with
  | Ok a => k a
  | Raise e => Raise e
  end.

Notation "x <- r ;; k" := (rbind r (fun x => k))
  (at level 100, r at next level, right associativity).

Fixpoint rmap {A B} (f : A -> result B) (l : list A) : result (list B) :=
  match l with
  | [] => Ok []
  | a :: l' => b <- f a ;; bs <- rmap f l' ;; Ok (b :: bs)
  end.

Fixpoint rfold {A S} (f : S -> A -> result S) (s : S) (l : list A) : result S :=
  match l with
  | [] => Ok s
  | a :: l' => s' <- f s a ;; rfold f s' l'
  end.

(** The array held by a field, where the field must not be [None];
    [e] is what the operation at hand does with [None].  [Unmodelled]
    stands for an operation that goes on with a value the embedding has
    no type for ([np.append] turns [None] into an object array). *)
Definition require {A} (e : exn) (o : option A) : result A :=
  match o with
  | Some a => Ok a
  | None => Raise e
  end.

(** ** The numpy and list primitives the module uses *)

Module np.

(** [a[i]] *)
Definition getitem {A} (a : list A) (i : nat) : result A :=
  match a !! i with
  | Some x => Ok x
  | None => Raise IndexError
  end.

(** [a[-1]] *)
Definition getlast {A} (a : list A) : result A :=
  match last a with
  | Some x => Ok x
  | None => Raise IndexError
  end.

(** [a[i] = v] *)
Definition setitem1 {A} (a : list A) (i : nat) (v : A) : result (list A) :=
  if decide (i < length a) then Ok (<[i := v]> a) else Raise IndexError.

(** [np.zeros(n)] *)
Definition zeros {A} (zero : A) (n : nat) : list A := replicate n zero.

(** [np.arange(n)] *)
Definition arange (n : nat) : list nat := seq 0 n.

(** [idx + k] on an index array *)
Definition shift (idx : list nat) (k : nat) : list nat := map (fun i => i + k) idx.

(** broadcasting of the right-hand side of [a[idx] = vals]: equal
    lengths, or a single value repeated *)
Definition broadcast {A} (n : nat) (vals : list A) : result (list A) :=
  if decide (length vals = n) then Ok vals
  else match vals with
       | [v] => Ok (replicate n v)
       | _ => Raise ValueError
       end.

Fixpoint put {A} (a : list A) (idx : list nat) (vals : list A) : list A :=
  match idx, vals with
  | i :: idx', v :: vals' => put (<[i := v]> a) idx' vals'
  | _, _ => a
  end.

(** [a[idx] = vals] with an integer index array: every index is
    checked against the bounds, the values are broadcast, then written
    in order *)
Definition setitem {A} (a : list A) (idx : list nat) (vals : list A)
  : result (list A) :=
  if forallb (fun i => bool_decide (i < length a)) idx then
    vs <- broadcast (length idx) vals ;;
    Ok (put a idx vs)
  else Raise IndexError.

(** [a[idx]] with an integer index array *)
Definition take_idx {A} (a : list A) (idx : list nat) : result (list A) :=
  rmap (getitem a) idx.

(** [a[mask]] with a boolean mask *)
Definition mask_select {A} (a : list A) (mask : list bool) : list A :=
  map fst (filter (fun xb => snd xb = true) (zip a mask)).

(** [a[mask]] where the lengths of the mask and of the array are not
    equal by construction: numpy raises when they differ *)
Definition getmask {A} (a : list A) (mask : list bool) : result (list A) :=
  if decide (length mask = length a) then Ok (mask_select a mask)
  else Raise IndexError.

(** [np.append(a, b)] on one-dimensional arrays *)
Definition append {A} (a b : list A) : list A := a ++ b.

(** [np.concatenate(arrays)]: needs at least one array *)
Definition concatenate {A} (arrays : list (list A)) : result (list A) :=
  match arrays with
  | [] => Raise ValueError
  | _ => Ok (concat arrays)
  end.

(** [np.cumsum(a)] *)
Fixpoint cumsum_from (acc : Z) (a : list Z) : list Z :=
  match a with
  | [] => []
  | x :: a' => (acc + x)%Z :: cumsum_from (acc + x)%Z a'
  end.
Definition cumsum (a : list Z) : list Z := cumsum_from 0%Z a.

(** [a | b] on boolean arrays, with numpy's broadcasting of a
    one-element operand *)
Definition logical_or (a b : list bool) : result (list bool) :=
  if decide (length a = length b) then Ok (zip_with orb a b)
  else match a, b with
       | [x], _ => Ok (map (orb x) b)
       | _, [y] => Ok (map (fun x => orb x y) a)
       | _, _ => Raise ValueError
       end.

(** [np.repeat(v, n)] *)
Definition repeat {A} (v : A) (n : nat) : list A := replicate n v.

(** positions of the [True] entries of a mask: [mask.nonzero()[0]] *)
Definition nonzero (mask : list bool) : list nat :=
  mask_select (seq 0 (length mask)) mask.

(** [np.in1d(a, b)]: membership of each element of [a] in [b] *)
Definition in1d (a b : list string) : list bool :=
  map (fun x => existsb (String.eqb x) b) a.

(** the identifier at position [i] *)
Definition id_at (a : list string) (i : nat) : string := default "" (a !! i).

(** lexicographic order on identifiers, as numpy orders strings *)
Definition id_le (a : list string) (i j : nat) : Prop :=
  String.leb (id_at a i) (id_at a j) = true.

#[global] Instance id_le_dec (a : list string) : RelDecision (id_le a) :=
  fun i j => bool_eq_dec (String.leb (id_at a i) (id_at a j)) true.

(** [np.argsort(a)]: a permutation of the positions that sorts [a] *)
Definition argsort (a : list string) : list nat :=
  merge_sort (id_le a) (seq 0 (length a)).

(** the bisection of [np.searchsorted(a, v, sorter=sorter)], side
    left: the first position [lo] of the sorted order with
    [v <= a[sorter[lo]]] *)
Fixpoint bisect_left (fuel : nat) (a : list string) (sorter : list nat)
    (v : string) (lo hi : nat) : nat :=
  match fuel with
  | 0 => lo
  | S fuel' =>
      if decide (lo < hi) then
        let mid := (lo + hi) `div` 2 in
        if String.ltb (id_at a (default 0 (sorter !! mid))) v
        then bisect_left fuel' a sorter v (mid + 1) hi
        else bisect_left fuel' a sorter v lo mid
      else lo
  end.

(** [np.searchsorted(a, vs, sorter=sorter)] *)
Definition searchsorted (a vs : list string) (sorter : list nat) : list nat :=
  map (fun v => bisect_left (length a) a sorter v 0 (length a)) vs.

End np.

(** ** Data model *)

(** A point match of the match store: source and target tile ids and the
    matched points with their weights. *)
Record PointMatch := {
  pId : string;
  qId : string;
  match_p : list (float * float);
  match_q : list (float * float);
  match_w : list float
}.

(** A tile-pair group: [pair] in the source.  The section values [z1]
    and [z2] are section indices, integers; [int(np.abs(z1 - z2))] is
    then their distance. *)
Record TilePair := {
  section1 : string;
  section2 : string;
  z1 : Z;
  z2 : Z
}.

(** [args['matrix_assembly']] *)
Record MatrixAssembly := {
  depth : list Z;
  explicit_weight_by_depth : option (list float);
  montage_pt_weight : float;
  cross_pt_weight : float;
  inverse_dz : bool;
  npts_min : nat;
  npts_max : nat;
  choose_random : bool
}.

(** What [transform.CSR_from_tilepair] returns when [d] is not [None]. *)
Record SubBlock := {
  d : list float;
  ind : list Z;
  iptr : list Z;
  wts : list float;
  npts : nat
}.

(** The transform model, [AlignerTransform] of [transform/transform.py]:
    its two constants and its sub-block generator, which answers [None]
    for a match with too few points or only zero weights. *)
Record AlignerTransform := {
  nnz_per_row : nat;
  rows_per_ptmatch : nat;
  CSR_from_tilepair :
    PointMatch -> nat -> nat -> nat -> nat -> bool -> option SubBlock
}.

(** The dict a worker returns. *)
Record Chunk := {
  tiles_used : list bool;
  data : option (list float);
  indices : option (list Z);
  indptr : option (list Z);
  weights : option (list float);
  nchunks : Z;
  zlist : list Z
}.

(** ** tilepair_weight *)

(** The binary64 value of an integer, rounded to nearest. *)
Definition float_of_Z (z : Z) : float :=
  SF2Prim (binary_normalize prec emax z 0 false).

(** [l.index(x)] of a Python list *)
Fixpoint list_index (l : list Z) (x : Z) : result nat :=
  match l with
  | [] => Raise ValueError
  | y :: l' => if (y =? x)%Z then Ok 0 else i <- list_index l' x ;; Ok (S i)
  end.

(** The values of [int64]. *)
Definition int64 (z : Z) : Prop := (- 2 ^ 63 <= z < 2 ^ 63)%Z.

(** Two section values whose difference, its absolute value and that
    value plus one are in the range of [int64]: for them
    [int(np.abs(z1 - z2))] and [np.abs(z2 - z1) + 1] are the distance and
    the distance plus one, as [tilepair_weight] below has them.  Outside
    of it the code wraps around, and the definition does not follow
    it. *)
Definition sections_in_range (z1 z2 : Z) : Prop :=
  int64 z1 /\ int64 z2 /\ (Z.abs (z1 - z2) < 2 ^ 63 - 1)%Z.

(** Lines 174-185.  [int(...)] of line 176 turns the numpy integer into
    the Python integer of the same value. *)
Definition tilepair_weight (z1 z2 : Z) (matrix_assembly : MatrixAssembly)
  : result float :=
  match explicit_weight_by_depth matrix_assembly with
  | Some table =>
      ind <- list_index (depth matrix_assembly) (Z.abs (z1 - z2)) ;;
      np.getitem table ind
  | None =>
      if (z1 =? z2)%Z then Ok (montage_pt_weight matrix_assembly)
      else
        let tp_weight := cross_pt_weight matrix_assembly in
        if inverse_dz matrix_assembly
        then Ok (tp_weight / float_of_Z (Z.abs (z2 - z1) + 1))%float
        else Ok tp_weight
  end.

(** The configuration of the weight-policy example: depth table
    [0 -> 1.0, 1 -> 0.5], montage weight 2.0, cross weight 1.0, no
    inverse-distance weighting. *)
Definition weight_policy_example : MatrixAssembly :=
  {| depth := [0; 1]%Z;
     explicit_weight_by_depth := Some [1%float; 0.5%float];
     montage_pt_weight := 2%float;
     cross_pt_weight := 1%float;
     inverse_dz := false;
     npts_min := 5;
     npts_max := 500;
     choose_random := false |}.

(** ** calculate_processing_chunk *)

(** The dict built at lines 32-39, returned as it is when no match
    remains. *)
Definition new_chunk (ntiles : nat) : Chunk :=
  {| tiles_used := np.zeros false ntiles;
     data := None;
     indices := None;
     indptr := None;
     weights := None;
     nchunks := 0;
     zlist := [] |}.

(** Lines 51-88.  [fetched] is what [utils.get_matches] returned for the
    pair.  The answer is [None] at the two early returns (no match
    fetched, no match left by the filter), and otherwise the surviving
    matches with the positions [pinds], [qinds] of their tiles in
    [tile_ids]. *)
Definition resolve_matches (fetched : list PointMatch) (tile_ids : list string)
  : result (option (list PointMatch * list nat * list nat)) :=
  let sorter := np.argsort tile_ids in
  if decide (length fetched = 0) then Ok None else
  let pids := map pId fetched in
  let qids := map qId fetched in
  let instack := zip_with andb (np.in1d pids tile_ids) (np.in1d qids tile_ids) in
  let matches := np.mask_select fetched instack in
  let pids := np.mask_select pids instack in
  let qids := np.mask_select qids instack in
  if decide (length matches = 0) then Ok None else
  pinds <- np.take_idx sorter (np.searchsorted tile_ids pids sorter) ;;
  qinds <- np.take_idx sorter (np.searchsorted tile_ids qids sorter) ;;
  Ok (Some (matches, pinds, qinds)).

(** The pre-allocated arrays and the row counter of the assembly loop. *)
Record Buffers := {
  b_tiles_used : list bool;
  b_data : list float;
  b_indices : list Z;
  b_indptr : list Z;
  b_weights : list float;
  b_nrows : nat
}.

(** One iteration of the loop at lines 122-153. *)
Definition splice_match (transform : AlignerTransform)
    (matrix_assembly : MatrixAssembly) (tilepair_weightfac : float)
    (matches : list PointMatch) (pinds qinds : list nat)
    (st : Buffers) (k : nat) : result Buffers :=
  m <- np.getitem matches k ;;
  pk <- np.getitem pinds k ;;
  qk <- np.getitem qinds k ;;
  match CSR_from_tilepair transform m pk qk
          (npts_min matrix_assembly) (npts_max matrix_assembly)
          (choose_random matrix_assembly) with
  | None => Ok st
  | Some sb =>
      let nrows := b_nrows st in
      used <- np.setitem1 (b_tiles_used st) pk true ;;
      used <- np.setitem1 used qk true ;;
      let global_dind :=
        np.shift
          (np.arange (npts sb * rows_per_ptmatch transform * nnz_per_row transform))
          (nrows * nnz_per_row transform) in
      data <- np.setitem (b_data st) global_dind (d sb) ;;
      indices <- np.setitem (b_indices st) global_dind (ind sb) ;;
      let global_rowind :=
        np.shift (np.arange (npts sb * rows_per_ptmatch transform)) nrows in
      weights <- np.setitem (b_weights st) global_rowind
                   (map (fun w => (w * tilepair_weightfac)%float) (wts sb)) ;;
      base <- np.getitem (b_indptr st) nrows ;;
      indptr <- np.setitem (b_indptr st) (np.shift global_rowind 1)
                  (map (fun p => (p + base)%Z) (iptr sb)) ;;
      Ok {| b_tiles_used := used;
            b_data := data;
            b_indices := indices;
            b_indptr := indptr;
            b_weights := weights;
            b_nrows := nrows + length (wts sb) |}
  end.

(** Lines 90-171: pre-allocation, the loop, truncation. *)
Definition assemble_chunk (transform : AlignerTransform) (pair : TilePair)
    (matrix_assembly : MatrixAssembly) (ntiles : nat)
    (matches : list PointMatch) (pinds qinds : list nat) : result Chunk :=
  let nmatches := length matches in
  let nd := nnz_per_row transform * rows_per_ptmatch transform
            * npts_max matrix_assembly * nmatches in
  let ni := rows_per_ptmatch transform * npts_max matrix_assembly * nmatches in
  let data := np.zeros 0%float nd in
  let indices := np.zeros 0%Z nd in
  let indptr := np.zeros 0%Z (ni + 1) in
  let weights := np.zeros 0%float ni in
  indptr <- np.setitem1 indptr 0 0%Z ;;
  tilepair_weightfac <- tilepair_weight (z1 pair) (z2 pair) matrix_assembly ;;
  st <- rfold
          (splice_match transform matrix_assembly tilepair_weightfac
             matches pinds qinds)
          {| b_tiles_used := tiles_used (new_chunk ntiles);
             b_data := data;
             b_indices := indices;
             b_indptr := indptr;
             b_weights := weights;
             b_nrows := 0 |}
          (np.arange nmatches) ;;
  let nrows := b_nrows st in
  Ok {| tiles_used := b_tiles_used st;
        data := Some (take (nrows * nnz_per_row transform) (b_data st));
        indices := Some (take (nrows * nnz_per_row transform) (b_indices st));
        indptr := Some (take (nrows + 1) (b_indptr st));
        weights := Some (take nrows (b_weights st));
        nchunks := 0;
        zlist := [z1 pair; z2 pair] |}.

(** The function.  The connection to the match store and the fetch are
    outside: [fetched] is what the fetch returned; [transform] is the
    [AlignerTransform] built from [args]; logging is left out. *)
Definition calculate_processing_chunk (transform : AlignerTransform)
    (fetched : list PointMatch) (pair : TilePair)
    (matrix_assembly : MatrixAssembly) (tile_ids : list string) : result Chunk :=
  resolved <- resolve_matches fetched tile_ids ;;
  match resolved with
  | None => Ok (new_chunk (length tile_ids))
  | Some (matches, pinds, qinds) =>
      assemble_chunk transform pair matrix_assembly (length tile_ids)
        matches pinds qinds
  end.

(** *** Vocabulary for the properties of a chunk *)

(** A sub-block with consistent array lengths and exactly [nnz_per_row]
    non-zeros per row: [npts * rows_per_ptmatch] rows, row [j] ending at
    [(j + 1) * nnz_per_row]. *)
Definition subblock_ok (transform : AlignerTransform) (sb : SubBlock) : Prop :=
  let rows := npts sb * rows_per_ptmatch transform in
  length (d sb) = rows * nnz_per_row transform /\
  length (ind sb) = rows * nnz_per_row transform /\
  length (wts sb) = rows /\
  iptr sb = map (fun j => Z.of_nat ((j + 1) * nnz_per_row transform)) (seq 0 rows).

(** The sub-block the loop gets for match [k], if any. *)
Definition block_of (transform : AlignerTransform)
    (matrix_assembly : MatrixAssembly)
    (matches : list PointMatch) (pinds qinds : list nat) (k : nat)
  : option SubBlock :=
  m ← matches !! k;
  pk ← pinds !! k;
  qk ← qinds !! k;
  CSR_from_tilepair transform m pk qk
    (npts_min matrix_assembly) (npts_max matrix_assembly)
    (choose_random matrix_assembly).

(** The sub-blocks spliced in during assembly, in order. *)
Definition spliced_blocks (transform : AlignerTransform)
    (matrix_assembly : MatrixAssembly)
    (matches : list PointMatch) (pinds qinds : list nat) : list SubBlock :=
  omap (block_of transform matrix_assembly matches pinds qinds)
       (seq 0 (length matches)).

(** A match whose two tiles are in the stack. *)
Definition both_in_stack (tile_ids : list string) (m : PointMatch) : Prop :=
  pId m ∈ tile_ids /\ qId m ∈ tile_ids.

#[global] Instance both_in_stack_dec (tile_ids : list string) (m : PointMatch) :
  Decision (both_in_stack tile_ids m).
Proof. unfold both_in_stack. apply _. Defined.

(** Rows, values, column indices and scaled weights of a list of
    sub-blocks, and the row pointers of [nrows] rows of [nnz] non-zeros. *)
Definition block_rows (bs : list SubBlock) : nat :=
  sum_list_with (fun b => length (wts b)) bs.

Definition block_data (bs : list SubBlock) : list float := concat (map d bs).

Definition block_indices (bs : list SubBlock) : list Z := concat (map ind bs).

Definition block_weights (fac : float) (bs : list SubBlock) : list float :=
  concat (map (fun b => map (fun w => (w * fac)%float) (wts b)) bs).

Definition row_pointers (nnz nrows : nat) : list Z :=
  map (fun j => Z.of_nat (j * nnz)) (seq 0 (nrows + 1)).

(** The buffers once the sub-blocks [bs] are spliced: their entries,
    followed by what is left of the zeros of the allocation. *)
Definition buffers_hold (transform : AlignerTransform) (fac : float)
    (ntiles ni : nat) (bs : list SubBlock) (st : Buffers) : Prop :=
  let nnz := nnz_per_row transform in
  let rows := block_rows bs in
  length (b_tiles_used st) = ntiles /\
  b_nrows st = rows /\
  rows <= ni /\
  b_data st = block_data bs ++ replicate (ni * nnz - rows * nnz) 0%float /\
  b_indices st = block_indices bs ++ replicate (ni * nnz - rows * nnz) 0%Z /\
  b_weights st = block_weights fac bs ++ replicate (ni - rows) 0%float /\
  b_indptr st = row_pointers nnz rows ++ replicate (ni - rows) 0%Z.

Definition nondecreasing (l : list Z) : Prop :=
  forall i x y, l !! i = Some x -> l !! (S i) = Some y -> (x <= y)%Z.

(** ** concatenate_chunks *)

(** The while loop at lines 469-473, at position [i] with
    [rest = chunks[i:]]: [chunks[i]] raises on an empty list, and the
    loop stops at the first chunk with data or at the last chunk. *)
Fixpoint skip_empty (rest : list Chunk) (i : nat) : result nat :=
  match rest with
  | [] => Raise IndexError
  | c :: rest' =>
      match data c, rest' with
      | None, _ :: _ => skip_empty rest' (S i)
      | _, _ => Ok i
      end
  end.

(** The body of the for loop, lines 476-481: the dict [c0] after the
    assignments to its keys. *)
Definition absorb (c0 c : Chunk) : result Chunk :=
  match data c with
  | None => Ok c0
  | Some data_c =>
      data_0 <- require Unmodelled (data c0) ;;
      weights_0 <- require Unmodelled (weights c0) ;;
      weights_c <- require Unmodelled (weights c) ;;
      indices_0 <- require Unmodelled (indices c0) ;;
      indices_c <- require Unmodelled (indices c) ;;
      indptr_0 <- require TypeError (indptr c0) ;;
      lastptr <- np.getlast indptr_0 ;;
      indptr_c <- require TypeError (indptr c) ;;
      Ok {| tiles_used := tiles_used c0;
            data := Some (np.append data_0 data_c);
            indices := Some (np.append indices_0 indices_c);
            indptr := Some (np.append indptr_0
                              (map (fun p => (p + lastptr)%Z) (tail indptr_c)));
            weights := Some (np.append weights_0 weights_c);
            nchunks := nchunks c0;
            zlist := np.append (zlist c0) (zlist c) |}
  end.

(** [chunks] is a list of dicts.  The dicts are kept in a list, a
    position standing for the dict at that position (the dicts of the
    list are distinct objects: each comes from its own worker).  The
    function returns the dict [c0 = chunks[i]], which it has updated in
    place: the answer is the position [i] and the dicts after the call. *)
Definition concatenate_chunks (chunks : list Chunk)
  : result (nat * list Chunk) :=
  i <- skip_empty chunks 0 ;;
  c0 <- np.getitem chunks i ;;
  c0 <- rfold absorb c0 (drop (i + 1) chunks) ;;
  Ok (i, <[i := c0]> chunks).

(** ** concatenate_results *)

(** The dict [result] the function returns. *)
Record Merged := {
  m_data : list float;
  m_weights : list float;
  m_indices : list Z;
  m_zlist : list Z;
  m_indptr : list Z
}.

(** [[results[i][key] for i in range(len(results)) if results[i]['data']
    is not None]] *)
Definition select_field {A} (field : Chunk -> A) (results : list Chunk)
  : list A :=
  map field (filter (fun c => is_Some (data c)) results).

Definition concatenate_results (results : list Chunk) : result Merged :=
  data <- (arrays <- rmap (require ValueError) (select_field data results) ;;
           np.concatenate arrays) ;;
  weights <- (arrays <- rmap (require ValueError) (select_field weights results) ;;
              np.concatenate arrays) ;;
  indices <- (arrays <- rmap (require ValueError) (select_field indices results) ;;
              np.concatenate arrays) ;;
  zlist <- np.concatenate (select_field zlist results) ;;
  let indptrs := select_field indptr results in
  lasts <- rmap (fun i => i <- require TypeError i ;; np.getlast i) indptrs ;;
  let indptr_cumends := np.cumsum lasts in
  parts <- rmap (fun '(i, j) =>
                   j <- require TypeError j ;;
                   if decide (i = 0) then Ok j
                   else off <- np.getitem indptr_cumends (i - 1) ;;
                        Ok (map (fun p => (p + off)%Z) (tail j)))
                (imap (fun i j => (i, j)) indptrs) ;;
  indptr <- np.concatenate parts ;;
  Ok {| m_data := data;
        m_weights := weights;
        m_indices := indices;
        m_zlist := zlist;
        m_indptr := indptr |}.

(** *** The merge as the specification words it *)

(** A chunk is well formed when its four arrays are null together or
    present together, as [calculate_processing_chunk] leaves them. *)
Definition chunk_wf (c : Chunk) : Prop :=
  (data c = None /\ indices c = None /\ indptr c = None /\ weights c = None) \/
  (is_Some (data c) /\ is_Some (indices c) /\
   is_Some (indptr c) /\ is_Some (weights c)).

(** The arrays of a non-empty chunk. *)
Definition chunk_arrays (c : Chunk) : option Merged :=
  data_c ← data c;
  weights_c ← weights c;
  indices_c ← indices c;
  indptr_c ← indptr c;
  Some {| m_data := data_c;
          m_weights := weights_c;
          m_indices := indices_c;
          m_zlist := zlist c;
          m_indptr := indptr_c |}.

(** Appending one more non-empty chunk to the accumulator: values,
    column indices and weights verbatim, the row pointers without their
    leading zero and offset by the accumulator's final row pointer. *)
Definition merge_step (acc c : Merged) : Merged :=
  {| m_data := m_data acc ++ m_data c;
     m_weights := m_weights acc ++ m_weights c;
     m_indices := m_indices acc ++ m_indices c;
     m_zlist := m_zlist acc ++ m_zlist c;
     m_indptr := m_indptr acc
                 ++ map (fun p => (p + default 0%Z (last (m_indptr acc)))%Z)
                        (tail (m_indptr c)) |}.

(** Seed with the first non-empty chunk, then append the others. *)
Definition merge_spec (nonempty : list Merged) : option Merged :=
  match nonempty with
  | [] => None
  | c :: cs => Some (foldl merge_step c cs)
  end.

(** The row-pointer pieces appended after an accumulator whose final
    row pointer is [s]: each array without its first entry, offset by
    the running final row pointer. *)
Fixpoint rebased_parts (s : Z) (indptrs : list (list Z)) : list (list Z) :=
  match indptrs with
  | [] => []
  | j :: rest =>
      map (fun p => (p + s)%Z) (tail j)
      :: rebased_parts (s + default 0%Z (last j))%Z rest
  end.

(** The rows of a row-pointer array. *)
Definition indptr_rows (p : list Z) : nat := length p - 1.

(** Row pointers are [int64] in the code, and both merges add them:
    [c[ckey][1:] + lastptr], [np.cumsum] and [j[1:] + indptr_cumends[i-1]].
    The additions of [absorb] and [concatenate_results] are those of [Z];
    they are the additions of the code when no sum leaves the range of
    [int64].  That holds under this bound on the chunks with data: every
    row pointer of every chunk lies between 0 and [B], and [B] times the
    number of the chunks is below [2^63], so that every offset and every
    offset row pointer lies between 0 and that product. *)
Definition row_pointers_in_range (nonempty : list Merged) : Prop :=
  exists B : Z,
    Forall (fun a => Forall (fun p => (0 <= p <= B)%Z) (m_indptr a)) nonempty /\
    (Z.of_nat (length nonempty) * B < 2 ^ 63)%Z.

(** ** create_CSR_A *)

(** What the function reads of a tile specification: the identifier, the
    number of degrees of freedom of its last transform, the current
    parameters and the regularization vector of that transform. *)
Record TileSpec := {
  tileId : string;
  DOF_per_tile : nat;
  to_solve_vec : list float;
  regularization : list float
}.

(** [csr_matrix((data, indices, indptr))].  scipy's validation of the
    three arrays is not modelled: where it raises, the function raises,
    and the properties below speak of calls that return. *)
Record csr_matrix := {
  csr_data : list float;
  csr_indices : list Z;
  csr_indptr : list Z
}.

(** The number of columns scipy infers: the largest column index, plus
    one. *)
Definition csr_ncols (A : csr_matrix) : nat :=
  foldr (fun j n => max (Z.to_nat j + 1) n) 0 (csr_indices A).

(** [A[:, mask]] with a boolean mask: the matrix made of the columns of
    [A] at the positions where the mask holds, in order.  It is kept as
    [A] with the list of those positions; its number of columns is the
    length of the list.  A position past the columns of [A] raises. *)
Record column_slice := {
  base : csr_matrix;
  columns : list nat
}.

Definition select_columns (A : csr_matrix) (mask : list bool)
  : result column_slice :=
  let positions := np.nonzero mask in
  if forallb (fun j => bool_decide (j < csr_ncols A)) positions
  then Ok {| base := A; columns := positions |}
  else Raise IndexError.

(** The dict [func_result]; a diagonal matrix is kept as its diagonal. *)
Record FuncResult (Metadata : Type) := {
  fr_A : option column_slice;
  fr_x : option (list float);
  fr_reg : option (list float);
  fr_weights : option (list float);
  fr_tiles_used : list bool;
  fr_metadata : option Metadata
}.
Arguments fr_A {Metadata} _.
Arguments fr_x {Metadata} _.
Arguments fr_reg {Metadata} _.
Arguments fr_weights {Metadata} _.
Arguments fr_tiles_used {Metadata} _.
Arguments fr_metadata {Metadata} _.

(** [[f(t) for t in resolved.tilespecs if t.tileId in
    tile_ids[tiles_used]]]; the mask is applied anew for each tile. *)
Fixpoint used_tiles_field {A} (field : TileSpec -> A)
    (tile_ids : list string) (tiles_used : list bool)
    (tilespecs : list TileSpec) : result (list A) :=
  match tilespecs with
  | [] => Ok []
  | t :: rest =>
      used_ids <- np.getmask tile_ids tiles_used ;;
      others <- used_tiles_field field tile_ids tiles_used rest ;;
      Ok (if existsb (String.eqb (tileId t)) used_ids
          then field t :: others else others)
  end.

(** Lines 534-565, from the chunks [results] the pool returned.
    [write_chunks_to_files] is not defined in the module and is taken as
    given; [hdf5] is [self.args['output_mode'] == 'hdf5'].  The array
    [tile_ind], which nothing reads, is left out. *)
Definition create_CSR_A {Metadata : Type}
    (write_chunks_to_files : list Chunk -> result Metadata)
    (hdf5 : bool) (tilespecs : list TileSpec) (results : list Chunk)
  : result (FuncResult Metadata) :=
  let tile_ids := map tileId tilespecs in
  first <- np.getitem results 0 ;;
  tiles_used <- rfold (fun acc result => np.logical_or acc (tiles_used result))
                  (tiles_used first) (drop 1 results) ;;
  if hdf5 then
    metadata <- write_chunks_to_files results ;;
    Ok {| fr_A := None; fr_x := None; fr_reg := None; fr_weights := None;
          fr_tiles_used := tiles_used; fr_metadata := Some metadata |}
  else
    x <- (vecs <- used_tiles_field to_solve_vec tile_ids tiles_used tilespecs ;;
          np.concatenate vecs) ;;
    reg <- (vecs <- used_tiles_field regularization tile_ids tiles_used tilespecs ;;
            np.concatenate vecs) ;;
    result <- concatenate_results results ;;
    let A := {| csr_data := m_data result;
                csr_indices := m_indices result;
                csr_indptr := m_indptr result |} in
    let outw := m_weights result in
    slice_ind <- (parts <- rmap (fun i =>
                                   used <- np.getitem tiles_used i ;;
                                   t <- np.getitem tilespecs i ;;
                                   Ok (np.repeat used (DOF_per_tile t)))
                                (seq 0 (length tile_ids)) ;;
                  np.concatenate parts) ;;
    A <- select_columns A slice_ind ;;
    Ok {| fr_A := Some A; fr_x := Some x; fr_reg := Some reg;
          fr_weights := Some outw;
          fr_tiles_used := tiles_used; fr_metadata := None |}.

(** *** Columns of tiles *)

(** The first column of tile [i], and the columns of the used tiles, in
    the order of the tiles. *)
Definition tile_offset (tilespecs : list TileSpec) (i : nat) : nat :=
  sum_list_with DOF_per_tile (take i tilespecs).

Definition used_columns (tilespecs : list TileSpec) (tiles_used : list bool)
  : list nat :=
  concat (imap (fun i t =>
                  if default false (tiles_used !! i)
                  then seq (tile_offset tilespecs i) (DOF_per_tile t)
                  else [])
               tilespecs).

(** The sum of [DOF_per_tile] over the used tiles. *)
Definition used_DOF (tilespecs : list TileSpec) (tiles_used : list bool) : nat :=
  sum_list (imap (fun i t =>
                    if default false (tiles_used !! i)
                    then DOF_per_tile t else 0)
                 tilespecs).

(** ** assemble_and_solve *)

(** The driver passes its values on without looking into them, except
    for [None]. *)
Inductive pyvalue : Type :=
| PyNone
| PyObject.

(** The calls of the driver that reach outside it, in the order they are
    made. *)
Inductive event : Type :=
| CallAssembleFromHdf5 (filename : string) (read_data : bool)
| CallAssembleFromDb
| CallMatStats
| CallSolve
| CallUpdateTilespecs
| CallWriteToNewStack.

#[global] Instance event_eq_dec : EqDecision event.
Proof. solve_decision. Defined.

(** What the collaborators answer: each either returns or raises.
    [read_hdf5] stands for the reads of [assemble_from_hdf5]
    ([get_tileids_and_tforms] and the files), [build_from_db] for
    [utils.get_resolved_tilespecs] and [create_CSR_A], answering whether
    [A] is a matrix.  The module neither defines nor imports
    [get_tileids_and_tforms] and [write_reg_and_tforms]: in the module as
    it is, [read_hdf5] and [write_reg_and_tforms] answer with
    [NameError]; the record leaves their answers open, so that what is
    proved for every world holds for that one. *)
Record World := {
  read_hdf5 : string -> bool -> result unit;
  build_from_db : result bool;
  write_reg_and_tforms : result unit;
  solve : result (gmap string pyvalue);
  update_tilespecs : result unit;
  write_to_new_stack : result unit
}.

(** The options of [self.args] the driver branches on. *)
Record Args := {
  ingest_from_file : string;
  assemble_from_file : string;
  profile_data_load : bool;
  output_mode : string;
  render_output : string
}.

(** A computation of the driver: the calls made, and how it ended. *)
Definition traced (A : Type) : Type := list event * result A.

Definition tret {A} (a : A) : traced A := ([], Ok a).

Definition traise {A} (e : exn) : traced A := ([], Raise e).

Definition tbind {A B} (m : traced A) (k : A -> traced B) : traced B :=
  match m with
  | (t, Ok a) => let '(t', r) := k a in (t ++ t', r)
  | (t, Raise e) => (t, Raise e)
  end.

Notation "x <<- m ;; k" := (tbind m (fun x => k))
  (at level 100, m at next level, right associativity).

(** A call to a collaborator. *)
Definition call {A} (ev : event) (answer : result A) : traced A := ([ev], answer).

(** [d[key]] and [del d[key]] on a dict. *)
Definition getkey (d : gmap string pyvalue) (key : string) : traced pyvalue :=
  match d !! key with
  | Some v => tret v
  | None => traise (KeyError key)
  end.

Definition delkey (d : gmap string pyvalue) (key : string)
  : traced (gmap string pyvalue) :=
  match d !! key with
  | Some _ => tret (delete key d)
  | None => traise (KeyError key)
  end.

(** The class attribute of lines 309-317. *)
Definition assemble_struct : gmap string pyvalue :=
  list_to_map
    [("A", PyNone); ("weights", PyNone); ("reg", PyNone); ("tspecs", PyNone);
     ("tforms", PyNone); ("tids", PyNone); ("shared_tforms", PyNone);
     ("unused_tids", PyNone)].

(** Lines 319-409: the keys of the dict returned. *)
Definition assemble_from_hdf5 (W : World) (filename : string)
    (read_data : bool) : traced (gmap string pyvalue) :=
  _ <<- call (CallAssembleFromHdf5 filename read_data)
          (read_hdf5 W filename read_data) ;;
  let assemble_result :=
    <["reg" := PyObject]> (<["tspecs" := PyObject]> (<["tforms" := PyObject]>
    (<["unused_tids" := PyObject]> (<["tids" := PyObject]>
    (<["shared_tforms" := PyObject]> assemble_struct))))) in
  tret (if read_data
        then <["weights" := PyObject]> (<["A" := PyObject]> assemble_result)
        else assemble_result).

(** Lines 411-465: the keys of the dict returned. *)
Definition assemble_from_db (W : World) (args : Args)
  : traced (gmap string pyvalue) :=
  has_A <<- call CallAssembleFromDb (build_from_db W) ;;
  let assemble_result :=
    <["x" := PyObject]> (<["reg" := PyObject]> (<["tiles_used" := PyObject]>
    (<["weights" := PyObject]>
    (<["A" := if has_A : bool then PyObject else PyNone]>
    (<["resolved" := PyObject]> assemble_struct))))) in
  if String.eqb (output_mode args) "hdf5"
  then _ <<- ([], write_reg_and_tforms W) ;; tret assemble_result
  else tret assemble_result.

(** Lines 568-611: no solve for file output. *)
Definition solve_or_not (W : World) (args : Args)
  : traced (option (gmap string pyvalue)) :=
  if String.eqb (output_mode args) "hdf5" then tret None
  else results <<- call CallSolve (solve W) ;; tret (Some results).

(** Lines 264-269: the assembly of a run that does not ingest. *)
Definition assembly (W : World) (args : Args) : traced (gmap string pyvalue) :=
  if negb (String.eqb (assemble_from_file args) "")
  then assemble_from_hdf5 W (assemble_from_file args) true
  else assemble_from_db W args.

(** Lines 293-307: output, clean-up and return; [message] is bound only
    on the path that went through [solve_or_not]. *)
Definition output_and_return (W : World) (args : Args)
    (assemble_result : gmap string pyvalue)
    (results : option (gmap string pyvalue)) (message_bound : bool)
  : traced (option (gmap string pyvalue)) :=
  _ <<- (if String.eqb (output_mode args) "stack" then
           _ <<- getkey assemble_result "resolved" ;;
           results_dict <<- ([], require TypeError results) ;;
           _ <<- getkey results_dict "x" ;;
           _ <<- getkey assemble_result "tiles_used" ;;
           _ <<- call CallUpdateTilespecs (update_tilespecs W) ;;
           _ <<- call CallWriteToNewStack (write_to_new_stack W) ;;
           if String.eqb (render_output args) "stdout"
           then if message_bound then tret tt
                else traise (UnboundLocalError "message")
           else tret tt
         else tret tt) ;;
  assemble_result <<- delkey assemble_result "shared_tforms" ;;
  assemble_result <<- delkey assemble_result "tspecs" ;;
  _ <<- delkey assemble_result "x" ;;
  tret results.

(** Lines 246-307.  The module neither defines nor imports the name
    [EMalignerException]: the [raise] of line 278 evaluates it first,
    which raises [NameError]. *)
Definition assemble_and_solve (W : World) (args : Args)
  : traced (option (gmap string pyvalue)) :=
  if negb (String.eqb (ingest_from_file args) "") then
    assemble_result <<- assemble_from_hdf5 W (ingest_from_file args) false ;;
    _ <<- getkey assemble_result "tforms" ;;
    output_and_return W args assemble_result (Some ∅) false
  else
    assemble_result <<- assembly W args ;;
    A <<- getkey assemble_result "A" ;;
    _ <<- (match A with
           | PyNone => tret tt
           | PyObject => call CallMatStats (Ok tt)
           end) ;;
    _ <<- getkey assemble_result "tiles_used" ;;
    if profile_data_load args then
      traise (NameError "EMalignerException")
    else
      _ <<- getkey assemble_result "A" ;;
      _ <<- getkey assemble_result "weights" ;;
      _ <<- getkey assemble_result "reg" ;;
      _ <<- getkey assemble_result "x" ;;
      results <<- solve_or_not W args ;;
      A <<- getkey assemble_result "A" ;;
      results <<- (match A, results with
                   | PyNone, _ => tret results
                   | PyObject, Some r => tret (Some (<["Ashape" := PyObject]> r))
                   | PyObject, None => traise TypeError
                   end) ;;
      assemble_result <<- delkey assemble_result "A" ;;
      output_and_return W args assemble_result results true.

(** A world in which every collaborator returns, and two runs with the
    profile option on: one assembling from the database, one ingesting a
    solved file. *)
Definition quiet_world : World :=
  {| read_hdf5 := fun _ _ => Ok tt;
     build_from_db := Ok true;
     write_reg_and_tforms := Ok tt;
     solve := Ok {["x" := PyObject]};
     update_tilespecs := Ok tt;
     write_to_new_stack := Ok tt |}.

Definition profile_args : Args :=
  {| ingest_from_file := "";
     assemble_from_file := "";
     profile_data_load := true;
     output_mode := "none";
     render_output := "null" |}.

Definition profile_ingest_args : Args :=
  {| ingest_from_file := "solved.h5";
     assemble_from_file := "";
     profile_data_load := true;
     output_mode := "none";
     render_output := "null" |}.

(** ** A worked example *)

(** A transform model for the examples: one translation per tile (two
    degrees of freedom), an x-row and a y-row per point, two non-zeros
    per row.  At most [nmax] points are used, and a match with fewer
    than [nmin] points gives no sub-block. *)
Definition translation_CSR (m : PointMatch) (pk qk nmin nmax : nat)
    (choose_random : bool) : option SubBlock :=
  let n := min (length (match_w m)) nmax in
  if decide (n < nmin) then None
  else Some {| d := concat (replicate (2 * n) [1%float; (-1)%float]);
               ind := concat (replicate n
                        [Z.of_nat (2 * pk); Z.of_nat (2 * qk);
                         Z.of_nat (2 * pk + 1); Z.of_nat (2 * qk + 1)]);
               iptr := map (fun j => Z.of_nat ((j + 1) * 2)) (seq 0 (n * 2));
               wts := concat (map (fun w => [w; w]) (take n (match_w m)));
               npts := n |}.

Definition translation : AlignerTransform :=
  {| nnz_per_row := 2;
     rows_per_ptmatch := 2;
     CSR_from_tilepair := translation_CSR |}.

Definition example_match (p q : string) (w : list float) : PointMatch :=
  {| pId := p; qId := q;
     match_p := map (fun _ => (0%float, 0%float)) w;
     match_q := map (fun _ => (0%float, 0%float)) w;
     match_w := w |}.

(** Three tiles, listed out of order; four fetched matches, of which one
    names a tile outside the stack and one has too few points. *)
Definition example_tile_ids : list string := ["t3"; "t1"; "t2"].

Definition example_fetched : list PointMatch :=
  [ example_match "t1" "t2" [1%float; 1%float];
    example_match "t2" "t9" [1%float; 1%float];
    example_match "t3" "t1" [1%float];
    example_match "t2" "t3" [1%float; 0.5%float; 1%float] ].

Definition example_pair : TilePair :=
  {| section1 := "1.0"; section2 := "2.0"; z1 := 1; z2 := 2 |}.

Definition example_assembly : MatrixAssembly :=
  {| depth := [0; 1; 2]%Z;
     explicit_weight_by_depth := None;
     montage_pt_weight := 1%float;
     cross_pt_weight := 0.5%float;
     inverse_dz := false;
     npts_min := 2;
     npts_max := 4;
     choose_random := false |}.

(** Three chunks over three tiles: an empty one and two with one and
    two rows of two non-zeros. *)
Definition example_chunks : list Chunk :=
  [ new_chunk 3;
    {| tiles_used := [true; true; false];
       data := Some [1%float; (-1)%float];
       indices := Some [0; 2]%Z;
       indptr := Some [0; 2]%Z;
       weights := Some [1%float];
       nchunks := 0;
       zlist := [1; 1]%Z |};
    new_chunk 3;
    {| tiles_used := [false; true; true];
       data := Some [1%float; (-1)%float; 1%float; (-1)%float];
       indices := Some [2; 4; 3; 5]%Z;
       indptr := Some [0; 2; 4]%Z;
       weights := Some [0.5%float; 0.5%float];
       nchunks := 0;
       zlist := [1; 2]%Z |} ].

(** Five tiles of two degrees of freedom; the tile at position 2 has no
    match, and three chunks came back from the pool. *)
Definition example_tilespecs : list TileSpec :=
  map (fun id => {| tileId := id; DOF_per_tile := 2;
                    to_solve_vec := [0%float; 0%float];
                    regularization := [0.125%float; 0.125%float] |})
      ["a"; "b"; "c"; "d"; "e"].

Definition example_results : list Chunk :=
  [ {| tiles_used := [true; true; false; false; false];
       data := Some [1%float; (-1)%float; 1%float; (-1)%float];
       indices := Some [0; 2; 1; 3]%Z;
       indptr := Some [0; 2; 4]%Z;
       weights := Some [1%float; 1%float];
       nchunks := 0;
       zlist := [1; 1]%Z |};
    new_chunk 5;
    {| tiles_used := [false; true; false; true; true];
       data := Some [1%float; (-1)%float; 1%float; (-1)%float;
                     1%float; (-1)%float; 1%float; (-1)%float];
       indices := Some [2; 6; 3; 7; 6; 8; 7; 9]%Z;
       indptr := Some [0; 2; 4; 6; 8]%Z;
       weights := Some [0.5%float; 0.5%float; 0.5%float; 0.5%float];
       nchunks := 0;
       zlist := [1; 2]%Z |} ].

(** ** The chunks of the pool *)

(** [results] is what the pool returned for [pairs], lines 529-532:
    every worker has returned its chunk.  [get_matches] is the fetch of
    the matches of a pair, [tilespecs] the tiles of the stack. *)
Definition pool_returned (transform : AlignerTransform) (ma : MatrixAssembly)
    (get_matches : TilePair -> list PointMatch) (tilespecs : list TileSpec)
    (pairs : list TilePair) (results : list Chunk) : Prop :=
  Forall2 (fun pair chunk =>
             calculate_processing_chunk transform (get_matches pair) pair ma
               (map tileId tilespecs) = Ok chunk)
          pairs results.

(** Arrays of [r] rows with [nnz] non-zeros each. *)
Definition uniform_rows (nnz : nat) (a : Merged) (r : nat) : Prop :=
  m_indptr a = row_pointers nnz r /\
  length (m_data a) = r * nnz /\
  length (m_indices a) = r * nnz /\
  length (m_weights a) = r.

(** ** assemble_from_hdf5: what is read from the files *)

(** The name ['transforms_%d' % k]. *)
Definition transforms_name (k : nat) : string := "transforms_" +:+ pretty k.

(** The loop at lines 336-344, at index [k] with [tforms] read so far.
    [f] maps the names of the members of the file to their contents.
    The fuel bounds the iterations; [None] is a loop that has not ended
    within it.  The reshaping that follows is not part of it. *)
Fixpoint read_transforms_from {Dataset : Type} (fuel : nat)
    (f : gmap string Dataset) (k : nat) (tforms : list Dataset)
  : option (list Dataset) :=
  match fuel with
  | 0 => None
  | S fuel' =>
      match f !! transforms_name k with
      | Some tform => read_transforms_from fuel' f (S k) (tforms ++ [tform])
      | None => Some tforms
      end
  end.

Definition read_transforms {Dataset : Type} (f : gmap string Dataset)
  : option (list Dataset) :=
  read_transforms_from (S (size f)) f 0 [].

(** A data file: the four datasets the loop at lines 374-386 reads;
    [f.get(name)] is [None] for a dataset the file does not have. *)
Record DataFile := {
  file_data : option (list float);
  file_indices : option (list Z);
  file_indptr : option (list Z);
  file_weights : option (list float)
}.

(** The arrays and the counter of the loop. *)
Record Loaded := {
  l_data : list float;
  l_weights : list float;
  l_indices : list Z;
  l_indptr : list Z;
  l_i : nat
}.

(** One iteration; [h5py_File] opens a data file by its name, and
    subscripting the [None] of a missing dataset raises. *)
Definition read_datafile (h5py_File : string -> result DataFile)
    (st : Loaded) (fname : string) : result Loaded :=
  f <- h5py_File fname ;;
  data_f <- require TypeError (file_data f) ;;
  let data := np.append (l_data st) data_f in
  indices_f <- require TypeError (file_indices f) ;;
  let indices := np.append (l_indices st) indices_f in
  indptr_f <- require TypeError (file_indptr f) ;;
  step <- (if decide (l_i st = 0)
           then Ok (np.append (l_indptr st) indptr_f, l_i st + 1)
           else lastptr <- np.getlast (l_indptr st) ;;
                Ok (np.append (l_indptr st)
                      (map (fun p => (p + lastptr)%Z) (tail indptr_f)),
                    l_i st)) ;;
  weights_f <- require TypeError (file_weights f) ;;
  Ok {| l_data := data;
        l_weights := np.append (l_weights st) weights_f;
        l_indices := indices;
        l_indptr := fst step;
        l_i := snd step |}.

(** Lines 367-386: the four arrays as the loop over the data files
    leaves them.  What follows, [csr_matrix((data, indices, indptr))] at
    line 388 with the checks scipy makes on the three arrays, is not
    part of it. *)
Definition read_datafiles (h5py_File : string -> result DataFile)
    (datafile_names : list string) : result Loaded :=
  rfold (read_datafile h5py_File)
    {| l_data := []; l_weights := []; l_indices := []; l_indptr := [];
       l_i := 0 |}
    datafile_names.

(** A file that holds the arrays [a]. *)
Definition file_of (a : Merged) : DataFile :=
  {| file_data := Some (m_data a);
     file_indices := Some (m_indices a);
     file_indptr := Some (m_indptr a);
     file_weights := Some (m_weights a) |}.

(** ** run *)

(** The options [run] reads besides those of [Args]. *)
Record RunOptions := {
  first_section : Z;
  last_section : Z;
  solve_type : string;
  close_stack : bool
}.

(** The calls of [run] that reach outside it.  A call to
    [assemble_and_solve] is recorded with the sections it is given and
    with the calls it makes in turn. *)
Inductive run_event : Type :=
| CallMakeOutputConnection
| CallCreateStack
| CallMakeInputConnection (db_interface : string)
| CallGetZValues
| CallAssembleAndSolve (zvals : list Z) (calls : list event)
| CallSetStackState.

(** What the collaborators of [run] answer.  [connect_output] is
    [utils.make_dbconnection] on the output stack, answering the
    connection, which [run] compares with [None]; [connect_input] is the
    same function on the input stack, given the interface the stack names
    at the time of the call; [solve_world] gives the collaborators of
    [assemble_and_solve] for the sections it is called with. *)
Record RunWorld := {
  connect_output : result pyvalue;
  create_stack : result unit;
  connect_input : string -> result unit;
  get_z_values_for_stack : result (list float);
  solve_world : list Z -> World;
  set_stack_state : result unit
}.

(** What [run] assigns to: [self.args['input_stack']['db_interface']]
    and [self.results], which is not set before the first solve. *)
Record RunState := {
  input_db_interface : string;
  self_results : option (option (gmap string pyvalue))
}.

(** A computation of [run]: from the state, the calls made, the state
    left and how it ended.  The state left is kept when it raises. *)
Definition action (A : Type) : Type :=
  RunState -> list run_event * RunState * result A.

Definition aret {A} (a : A) : action A := fun s => ([], s, Ok a).

Definition abind {A B} (m : action A) (k : A -> action B) : action B :=
  fun s =>
    match m s with
    | (t, s', Ok a) => let '(t', s'', r) := k a s' in (t ++ t', s'', r)
    | (t, s', Raise e) => (t, s', Raise e)
    end.

Notation "x <~ m ;; k" := (abind m (fun x => k))
  (at level 100, m at next level, right associativity).

Definition acall {A} (ev : run_event) (answer : result A) : action A :=
  fun s => ([ev], s, answer).

Definition get_db_interface : action string :=
  fun s => ([], s, Ok (input_db_interface s)).

Definition set_db_interface (v : string) : action unit :=
  fun s => ([], {| input_db_interface := v; self_results := self_results s |},
            Ok tt).

Definition set_results (r : option (gmap string pyvalue)) : action unit :=
  fun s => ([], {| input_db_interface := input_db_interface s;
                   self_results := Some r |}, Ok tt).

(** [for a in l: body(a)] *)
Fixpoint afor {A} (l : list A) (body : A -> action unit) : action unit :=
  match l with
  | [] => aret tt
  | a :: l' => _ <~ body a ;; afor l' body
  end.

(** [np.arange(start, stop)] on integers *)
Definition arange_from (start stop : Z) : list Z :=
  map (fun i => (start + Z.of_nat i)%Z) (seq 0 (Z.to_nat (stop - start))).

(** [z in z_in_stack]: the section index, an integer, against the z
    values of the stack, which are floats; the comparison is that of
    floats. *)
Definition z_in (z : Z) (z_in_stack : list float) : bool :=
  existsb (fun f => PrimFloat.eqb (float_of_Z z) f) z_in_stack.

(** [self.results = self.assemble_and_solve(zvals, ingestconn)] *)
Definition solve_sections (W : RunWorld) (args : Args) (zvals : list Z)
  : action unit :=
  r <~ (fun s =>
          let '(calls, r) := assemble_and_solve (solve_world W zvals) args in
          ([CallAssembleAndSolve zvals calls], s, r)) ;;
  set_results r.

(** Lines 207-213: the connection to the output stack, [ingestconn]. *)
Definition open_output (W : RunWorld) (args : Args) : action pyvalue :=
  if String.eqb (output_mode args) "stack" then
    ingestconn <~ acall CallMakeOutputConnection (connect_output W) ;;
    _ <~ acall CallCreateStack (create_stack W) ;;
    aret ingestconn
  else aret PyNone.

(** Lines 215-236: one solve per section of the stack, or one solve of
    all the sections. *)
Definition solve_all (W : RunWorld) (args : Args) (opts : RunOptions)
    (zvals : list Z) : action unit :=
  if String.eqb (solve_type opts) "montage" then
    tmp <~ get_db_interface ;;
    _ <~ set_db_interface "render" ;;
    _ <~ (fun s => acall (CallMakeInputConnection (input_db_interface s))
                     (connect_input W (input_db_interface s)) s) ;;
    _ <~ set_db_interface tmp ;;
    z_in_stack <~ acall CallGetZValues (get_z_values_for_stack W) ;;
    let newzvals := filter (fun z => z_in z z_in_stack = true) zvals in
    afor newzvals (fun z => solve_sections W args [z])
  else if String.eqb (solve_type opts) "3D" then
    solve_sections W args zvals
  else aret tt.

(** Lines 238-243 *)
Definition close_output (W : RunWorld) (opts : RunOptions)
    (ingestconn : pyvalue) : action unit :=
  match ingestconn with
  | PyNone => aret tt
  | PyObject =>
      if close_stack opts
      then acall CallSetStackState (set_stack_state W)
      else aret tt
  end.

(** Lines 200-244; logging and timing are left out. *)
Definition run (W : RunWorld) (args : Args) (opts : RunOptions) : action unit :=
  let zvals := arange_from (first_section opts) (last_section opts + 1) in
  ingestconn <~ open_output W args ;;
  _ <~ solve_all W args opts zvals ;;
  close_output W opts ingestconn.

(** The section lists [assemble_and_solve] was called with, in order. *)
Definition solved_sections (t : list run_event) : list (list Z) :=
  omap (fun ev => match ev with
                  | CallAssembleAndSolve zvals _ => Some zvals
                  | _ => None
                  end) t.

(** ** More worked examples *)

(** A pair three sections apart, a distance the table of
    [weight_policy_example] does not list. *)
Definition example_far_pair : TilePair :=
  {| section1 := "1.0"; section2 := "4.0"; z1 := 1; z2 := 4 |}.

(** The tiles of [example_tile_ids], two degrees of freedom each. *)
Definition example_stack : list TileSpec :=
  map (fun id => {| tileId := id; DOF_per_tile := 2;
                    to_solve_vec := [0%float; 0%float];
                    regularization := [0.125%float; 0.125%float] |})
      example_tile_ids.

(** Runs of the driver: one that assembles from a file, one with hdf5
    output, one that solves without output and one with stack output. *)
Definition from_file_args : Args :=
  {| ingest_from_file := "";
     assemble_from_file := "assembled.h5";
     profile_data_load := false;
     output_mode := "none";
     render_output := "null" |}.

Definition hdf5_args : Args :=
  {| ingest_from_file := "";
     assemble_from_file := "";
     profile_data_load := false;
     output_mode := "hdf5";
     render_output := "null" |}.

Definition solve_args : Args :=
  {| ingest_from_file := "";
     assemble_from_file := "";
     profile_data_load := false;
     output_mode := "none";
     render_output := "null" |}.

Definition stack_args : Args :=
  {| ingest_from_file := "";
     assemble_from_file := "";
     profile_data_load := false;
     output_mode := "stack";
     render_output := "null" |}.

(** A world in which the assembly leaves no matrix, as with hdf5
    output. *)
Definition hdf5_world : World :=
  {| read_hdf5 := fun _ _ => Ok tt;
     build_from_db := Ok false;
     write_reg_and_tforms := Ok tt;
     solve := Ok {["x" := PyObject]};
     update_tilespecs := Ok tt;
     write_to_new_stack := Ok tt |}.

(** A stack with the sections 1, 2 and 4, and a montage of the sections
    1 to 3 with stack output; in the second world the connection to the
    input stack fails. *)
Definition quiet_run_world : RunWorld :=
  {| connect_output := Ok PyObject;
     create_stack := Ok tt;
     connect_input := fun _ => Ok tt;
     get_z_values_for_stack := Ok [1%float; 2%float; 4%float];
     solve_world := fun _ => quiet_world;
     set_stack_state := Ok tt |}.

Definition offline_run_world : RunWorld :=
  {| connect_output := Ok PyObject;
     create_stack := Ok tt;
     connect_input := fun _ => Raise (ExternalError "make_dbconnection");
     get_z_values_for_stack := Ok [1%float; 2%float; 4%float];
     solve_world := fun _ => quiet_world;
     set_stack_state := Ok tt |}.

Definition montage_options : RunOptions :=
  {| first_section := 1;
     last_section := 3;
     solve_type := "montage";
     close_stack := true |}.

Definition mongo_state : RunState :=
  {| input_db_interface := "mongo"; self_results := None |}.

(** The data files of [example_chunks]: one for each chunk with data. *)
Definition example_h5py_File (fname : string) : result DataFile :=
  match
    list_find (fun entry : string * Merged => entry.1 = fname)
      (zip ["data_0.h5"; "data_1.h5"] (omap chunk_arrays example_chunks))
  with
  | Some (_, (_, a)) => Ok (file_of a)
  | None => Raise (ExternalError "h5py.File")
  end.

(** * Properties *)

(** ** Pair weights *)

Lemma float_one_ne_two : 1%float <> 2%float.
Proof.
  intro H.
  pose proof (f_equal (fun x => PrimFloat.ltb x 1.5%float) H) as E.
  vm_compute in E. discriminate.
Qed.

(** C3, as stated, fails: with the explicit table configured a
    same-section pair gets the table's entry 1.0, not 1.0 x 2.0 = 2.0. *)
Lemma tilepair_weight_same_section_not_two :
  tilepair_weight 7 7 weight_policy_example <> Ok 2%float.
Proof.
  intro H. apply float_one_ne_two.
  exact (f_equal (fun r => match r with Ok w => w | Raise _ => 1%float end) H).
Qed.

Lemma list_index_spec (l : list Z) (x : Z) (i : nat) :
  l !! i = Some x ->
  (forall j, j < i -> l !! j <> Some x) ->
  list_index l x = Ok i.
Proof.
  revert i. induction l as [|y l IH]; intros i Hi Hfirst; [done|].
  destruct i as [|i]; simpl in *.
  - injection Hi as ->. by rewrite Z.eqb_refl.
  - destruct (Z.eqb_spec y x) as [->|Hne].
    + exfalso. apply (Hfirst 0); [lia|done].
    + assert (list_index l x = Ok i) as ->; [|done].
      apply IH; [done|]. intros j Hj. apply (Hfirst (S j)). lia.
Qed.

Lemma list_index_absent (l : list Z) (x : Z) :
  x ∉ l -> list_index l x = Raise ValueError.
Proof.
  induction l as [|y l IH]; intros Hx; [done|].
  simpl. apply not_elem_of_cons in Hx as [Hne Hx].
  destruct (Z.eqb_spec y x) as [->|_]; [done|].
  by rewrite IH.
Qed.

(** C3 (amended).  With the depth table [0 -> 1.0, 1 -> 0.5] configured,
    whatever the montage weight, the cross weight and the
    inverse-distance flag are, a same-section pair gets 1.0 (the table's
    entry, not multiplied by the montage weight) and a depth-1 cross pair
    gets 0.5. *)
Theorem tilepair_weight_explicit_table_example
    (ma : MatrixAssembly) (z1 z2 : Z) :
  depth ma = [0; 1]%Z ->
  explicit_weight_by_depth ma = Some [1%float; 0.5%float] ->
  (Z.abs (z1 - z2) <= 1)%Z ->
  tilepair_weight z1 z2 ma = Ok (if (z1 =? z2)%Z then 1%float else 0.5%float).
Proof.
  intros Hd Ht Hz. unfold tilepair_weight. rewrite Ht, Hd.
  destruct (Z.eqb_spec z1 z2) as [->|Hne].
  - by rewrite Z.sub_diag.
  - assert (Z.abs (z1 - z2) = 1)%Z as -> by lia. done.
Qed.

Lemma tilepair_weight_explicit_table_example_witness :
  tilepair_weight 7 7 weight_policy_example = Ok 1%float /\
  tilepair_weight 7 8 weight_policy_example = Ok 0.5%float.
Proof.
  split.
  - apply (tilepair_weight_explicit_table_example weight_policy_example 7 7);
      [reflexivity | reflexivity | simpl; lia].
  - apply (tilepair_weight_explicit_table_example weight_policy_example 7 8);
      [reflexivity | reflexivity | simpl; lia].
Defined.

(** C4.  Without an explicit table, for section values whose distance
    plus one is in the range of [int64] (beyond it the subtraction, the
    absolute value or the addition of the code wraps around): a pair
    with [z1 = z2] gets the montage weight; any other pair gets the
    cross weight, divided by [|z2 - z1| + 1] exactly when
    inverse-distance weighting is on. *)
Theorem tilepair_weight_no_table (ma : MatrixAssembly) (z1 z2 : Z) :
  explicit_weight_by_depth ma = None ->
  sections_in_range z1 z2 ->
  (z1 = z2 -> tilepair_weight z1 z2 ma = Ok (montage_pt_weight ma)) /\
  (z1 <> z2 -> inverse_dz ma = false ->
     tilepair_weight z1 z2 ma = Ok (cross_pt_weight ma)) /\
  (z1 <> z2 -> inverse_dz ma = true ->
     tilepair_weight z1 z2 ma =
       Ok (cross_pt_weight ma / float_of_Z (Z.abs (z2 - z1) + 1))%float).
Proof.
  intros Ht _. unfold tilepair_weight. rewrite Ht.
  repeat split.
  - intros ->. by rewrite Z.eqb_refl.
  - intros Hne Hinv. apply Z.eqb_neq in Hne. by rewrite Hne, Hinv.
  - intros Hne Hinv. apply Z.eqb_neq in Hne. by rewrite Hne, Hinv.
Qed.

(** A configuration without a table: montage weight 2.0, cross weight
    1.0, inverse-distance weighting on. *)
Lemma tilepair_weight_no_table_witness :
  let ma := {| depth := [0; 1; 2]%Z; explicit_weight_by_depth := None;
               montage_pt_weight := 2%float; cross_pt_weight := 1%float;
               inverse_dz := true; npts_min := 5; npts_max := 500;
               choose_random := false |} in
  tilepair_weight 3 3 ma = Ok 2%float /\
  tilepair_weight 3 4 ma = Ok 0.5%float /\
  tilepair_weight 1 4 ma = Ok 0.25%float.
Proof.
  intros ma.
  assert (sections_in_range 3 3) as R1 by (unfold sections_in_range, int64; lia).
  assert (sections_in_range 3 4) as R2 by (unfold sections_in_range, int64; lia).
  assert (sections_in_range 1 4) as R3 by (unfold sections_in_range, int64; lia).
  pose proof (tilepair_weight_no_table ma 3 3 eq_refl R1) as (H1 & _ & _).
  pose proof (tilepair_weight_no_table ma 3 4 eq_refl R2) as (_ & _ & H2).
  pose proof (tilepair_weight_no_table ma 1 4 eq_refl R3) as (_ & _ & H3).
  split; [exact (H1 eq_refl)|].
  split; [apply H2; [lia | reflexivity] | apply H3; [lia | reflexivity]].
Defined.

(** C10.  With an explicit table, for section values whose distance is
    in the range of [int64] (beyond it [int(np.abs(z1 - z2))] is not the
    distance): the weight is the table entry at the first position of
    [|z1 - z2|] in the depth list, not the entry at [|z1 - z2|] itself,
    and a distance that does not occur in the depth list raises (the
    [list.index] failure). *)
Theorem tilepair_weight_explicit_by_position
    (ma : MatrixAssembly) (table : list float) (z1 z2 : Z) :
  explicit_weight_by_depth ma = Some table ->
  sections_in_range z1 z2 ->
  (forall i : nat,
      depth ma !! i = Some (Z.abs (z1 - z2)) ->
      (forall j, j < i -> depth ma !! j <> Some (Z.abs (z1 - z2))) ->
      tilepair_weight z1 z2 ma = np.getitem table i) /\
  (Z.abs (z1 - z2) ∉ depth ma -> tilepair_weight z1 z2 ma = Raise ValueError).
Proof.
  intros Ht _. unfold tilepair_weight. rewrite Ht. split.
  - intros i Hi Hfirst. by rewrite (list_index_spec _ _ i).
  - intros Hx. by rewrite list_index_absent.
Qed.

(** A depth list that does not start at 0: the pair at distance 1 reads
    the table at position 0, where the distance stands in the depth
    list, not at position 1; a pair at distance 3 raises. *)
Lemma tilepair_weight_explicit_by_position_witness :
  let ma := {| depth := [1; 2]%Z;
               explicit_weight_by_depth := Some [0.5%float; 0.25%float];
               montage_pt_weight := 2%float; cross_pt_weight := 1%float;
               inverse_dz := false; npts_min := 5; npts_max := 500;
               choose_random := false |} in
  tilepair_weight 4 5 ma = np.getitem [0.5%float; 0.25%float] 0 /\
  tilepair_weight 4 7 ma = Raise ValueError.
Proof.
  intros ma.
  assert (sections_in_range 4 5) as R1 by (unfold sections_in_range, int64; lia).
  assert (sections_in_range 4 7) as R2 by (unfold sections_in_range, int64; lia).
  pose proof (tilepair_weight_explicit_by_position ma _ 4 5 eq_refl R1) as [H1 _].
  pose proof (tilepair_weight_explicit_by_position ma _ 4 7 eq_refl R2) as [_ H2].
  split.
  - apply (H1 0); [reflexivity | intros j Hj; lia].
  - apply H2. simpl. rewrite !not_elem_of_cons.
    split_and!; [lia | lia | apply not_elem_of_nil].
Defined.

(** ** The order on tile identifiers *)

Lemma string_compare_lt_trans (a b c : string) :
  String.compare a b = Lt -> String.compare b c = Lt -> String.compare a c = Lt.
Proof.
  intros Hab Hbc.
  apply String_as_OT.cmp_lt. apply String_as_OT.cmp_lt in Hab, Hbc.
  exact (String_as_OT.lt_trans _ _ _ Hab Hbc).
Qed.

Lemma string_compare_refl (a : string) : String.compare a a = Eq.
Proof. exact (proj2 (String_as_OT.cmp_eq a a) eq_refl). Qed.

Lemma string_leb_refl (a : string) : String.leb a a = true.
Proof. unfold String.leb. by rewrite string_compare_refl. Qed.

Lemma string_ltb_irrefl (a : string) : String.ltb a a = false.
Proof. unfold String.ltb. by rewrite string_compare_refl. Qed.

Lemma string_leb_trans (a b c : string) :
  String.leb a b = true -> String.leb b c = true -> String.leb a c = true.
Proof.
  unfold String.leb. intros Hab Hbc.
  destruct (String.compare a b) eqn:Eab; [|clear Hab|done].
  - apply String.compare_eq_iff in Eab. by subst.
  - destruct (String.compare b c) eqn:Ebc; [|clear Hbc|done].
    + apply String.compare_eq_iff in Ebc. subst. by rewrite Eab.
    + by rewrite (string_compare_lt_trans a b c).
Qed.

Lemma string_leb_ltb_trans (a b c : string) :
  String.leb a b = true -> String.ltb b c = true -> String.ltb a c = true.
Proof.
  unfold String.leb, String.ltb. intros Hab Hbc.
  destruct (String.compare b c) eqn:Ebc; try done.
  destruct (String.compare a b) eqn:Eab; [| |done].
  - apply String.compare_eq_iff in Eab. subst. by rewrite Ebc.
  - by rewrite (string_compare_lt_trans a b c).
Qed.

Lemma string_leb_not_ltb_eq (a b : string) :
  String.leb a b = true -> String.ltb a b = false -> a = b.
Proof.
  unfold String.leb, String.ltb. intros Hab Hnlt.
  destruct (String.compare a b) eqn:Eab; try done.
  by apply String.compare_eq_iff.
Qed.

#[local] Instance id_le_total (a : list string) : Total (np.id_le a).
Proof. intros i j. apply String.leb_total. Qed.

#[local] Instance id_le_trans (a : list string) : Transitive (np.id_le a).
Proof. intros i j k. apply string_leb_trans. Qed.

(** ** Masks and membership *)

Lemma existsb_eqb_elem_of (x : string) (b : list string) :
  existsb (String.eqb x) b = true <-> x ∈ b.
Proof.
  rewrite existsb_exists, list_elem_of_In. split.
  - intros (y & Hy & Heq). apply String.eqb_eq in Heq. by subst.
  - intros Hx. exists x. split; [done|apply String.eqb_refl].
Qed.

Lemma mask_select_map_map {A B} (h : A -> B) (f : A -> bool) (l : list A) :
  np.mask_select (map h l) (map f l) = map h (filter (fun x => f x = true) l).
Proof.
  unfold np.mask_select. induction l as [|x l IH]; [done|].
  simpl. rewrite !filter_cons. simpl.
  destruct (decide (f x = true)); simpl; by rewrite IH.
Qed.

Lemma mask_select_map {A} (f : A -> bool) (l : list A) :
  np.mask_select l (map f l) = filter (fun x => f x = true) l.
Proof.
  rewrite <- (map_id l) at 1. rewrite mask_select_map_map. apply map_id.
Qed.

Lemma instack_mask (fetched : list PointMatch) (tile_ids : list string) :
  zip_with andb (np.in1d (map pId fetched) tile_ids)
                (np.in1d (map qId fetched) tile_ids)
  = map (fun m => bool_decide (both_in_stack tile_ids m)) fetched.
Proof.
  unfold np.in1d. induction fetched as [|m l IH]; [done|].
  simpl. rewrite IH. f_equal.
  apply eq_true_iff_eq. rewrite andb_true_iff, !existsb_eqb_elem_of.
  by rewrite bool_decide_eq_true.
Qed.

Lemma filter_bool_decide {A} (P : A -> Prop) `{!forall x, Decision (P x)}
    (l : list A) :
  filter (fun x => bool_decide (P x) = true) l = filter P l.
Proof.
  apply list_filter_iff. intros x. apply bool_decide_eq_true.
Qed.

(** ** argsort and searchsorted *)

Lemma argsort_permutation (a : list string) :
  np.argsort a ≡ₚ seq 0 (length a).
Proof. apply merge_sort_Permutation. Qed.

Lemma argsort_length (a : list string) : length (np.argsort a) = length a.
Proof. rewrite argsort_permutation. apply length_seq. Qed.

Lemma argsort_lookup_lt (a : list string) (k i : nat) :
  np.argsort a !! k = Some i -> i < length a.
Proof.
  intros H. apply list_elem_of_lookup_2 in H.
  rewrite argsort_permutation in H. apply elem_of_seq in H. lia.
Qed.

Lemma argsort_reaches (a : list string) (i : nat) :
  i < length a -> exists k, np.argsort a !! k = Some i.
Proof.
  intros Hi. apply list_elem_of_lookup_1.
  rewrite argsort_permutation. apply elem_of_seq. lia.
Qed.

Lemma StronglySorted_lookup_le {A} (R : relation A) `{!Reflexive R}
    (l : list A) (k1 k2 : nat) (x y : A) :
  StronglySorted R l -> k1 <= k2 ->
  l !! k1 = Some x -> l !! k2 = Some y -> R x y.
Proof.
  intros Hs. revert k1 k2.
  induction Hs as [|z l Hs IH Hall]; intros k1 k2 Hle H1 H2; [done|].
  destruct k1 as [|k1], k2 as [|k2]; simpl in *; try lia.
  - by simplify_eq.
  - injection H1 as ->. rewrite Forall_forall in Hall.
    apply Hall. by eapply list_elem_of_lookup_2.
  - apply (IH k1 k2); [lia|done|done].
Qed.

#[local] Instance id_le_refl (a : list string) : Reflexive (np.id_le a).
Proof. intros i. apply string_leb_refl. Qed.

(** The identifier at position [k] of the sorted order. *)
Lemma argsort_sorted (a : list string) (k1 k2 : nat) :
  k1 <= k2 -> k2 < length a ->
  String.leb (np.id_at a (default 0 (np.argsort a !! k1)))
             (np.id_at a (default 0 (np.argsort a !! k2))) = true.
Proof.
  intros Hle Hlt.
  destruct (lookup_lt_is_Some_2 (np.argsort a) k1) as [i1 H1];
    [rewrite argsort_length; lia|].
  destruct (lookup_lt_is_Some_2 (np.argsort a) k2) as [i2 H2];
    [rewrite argsort_length; lia|].
  rewrite H1, H2. simpl.
  apply (StronglySorted_lookup_le (np.id_le a) (np.argsort a) k1 k2); try done.
  apply StronglySorted_merge_sort; apply _.
Qed.

Lemma bisect_left_S (fuel : nat) (a : list string) (sorter : list nat)
    (v : string) (lo hi : nat) :
  np.bisect_left (S fuel) a sorter v lo hi =
    if decide (lo < hi) then
      if String.ltb (np.id_at a (default 0 (sorter !! ((lo + hi) `div` 2)))) v
      then np.bisect_left fuel a sorter v ((lo + hi) `div` 2 + 1) hi
      else np.bisect_left fuel a sorter v lo ((lo + hi) `div` 2)
    else lo.
Proof. reflexivity. Qed.

Lemma bisect_left_spec (a : list string) (sorter : list nat) (v : string)
    (n : nat) :
  let key k := np.id_at a (default 0 (sorter !! k)) in
  (forall k1 k2, k1 <= k2 -> k2 < n -> String.leb (key k1) (key k2) = true) ->
  forall fuel lo hi,
    hi - lo <= fuel -> lo <= hi -> hi <= n ->
    (forall k, k < lo -> String.ltb (key k) v = true) ->
    (forall k, hi <= k -> k < n -> String.ltb (key k) v = false) ->
    let r := np.bisect_left fuel a sorter v lo hi in
    r <= n /\
    (forall k, k < r -> String.ltb (key k) v = true) /\
    (forall k, r <= k -> k < n -> String.ltb (key k) v = false).
Proof.
  intros key Hsorted fuel.
  induction fuel as [|fuel IH]; intros lo hi Hfuel Hlohi Hhi Hlow Hhigh r;
    subst r.
  - assert (lo = hi) as -> by lia. simpl. auto.
  - rewrite bisect_left_S.
    destruct (decide (lo < hi)) as [Hlt|Hge].
    + assert (lo <= (lo + hi) `div` 2 < hi) as Hmid.
      { split; [apply Nat.div_le_lower_bound; lia
               |apply Nat.Div0.div_lt_upper_bound; lia]. }
      fold (key ((lo + hi) `div` 2)).
      destruct (String.ltb (key ((lo + hi) `div` 2)) v) eqn:Ecmp.
      * apply IH; [lia|lia|lia| |done].
        intros k Hk.
        apply (string_leb_ltb_trans _ (key ((lo + hi) `div` 2))); [|done].
        apply Hsorted; lia.
      * apply IH; [lia|lia|lia|done|].
        intros k Hk Hkn.
        destruct (String.ltb (key k) v) eqn:Ek; [|done].
        rewrite <- Ecmp. symmetry.
        apply (string_leb_ltb_trans _ (key k)); [|done].
        apply Hsorted; lia.
    + assert (lo = hi) as -> by lia. auto.
Qed.

(** Searching an identifier of [a] in the sorted order and reading the
    sorter there gives a position of that identifier in [a]. *)
Lemma searchsorted_found (a : list string) (v : string) :
  v ∈ a ->
  exists i,
    np.argsort a !! np.bisect_left (length a) a (np.argsort a) v 0 (length a)
      = Some i /\
    a !! i = Some v.
Proof.
  intros Hv.
  apply list_elem_of_lookup_1 in Hv as [i Hi].
  pose proof (lookup_lt_Some _ _ _ Hi) as Hilt.
  destruct (argsort_reaches a i Hilt) as [j Hj].
  pose proof (lookup_lt_Some _ _ _ Hj) as Hjlt. rewrite argsort_length in Hjlt.
  set (key k := np.id_at a (default 0 (np.argsort a !! k))).
  assert (key j = v) as Hkj.
  { unfold key, np.id_at. rewrite Hj. simpl. by rewrite Hi. }
  destruct (bisect_left_spec a (np.argsort a) v (length a)
              (argsort_sorted a) (length a) 0 (length a))
    as (Hr & Hbelow & Habove); [lia|lia|lia|intros; lia|intros; lia|].
  set (r := np.bisect_left (length a) a (np.argsort a) v 0 (length a)) in *.
  assert (r <= j) as Hrj.
  { destruct (decide (r <= j)) as [|Hn]; [done|].
    specialize (Hbelow j ltac:(lia)).
    change (String.ltb (key j) v = true) in Hbelow.
    rewrite Hkj, string_ltb_irrefl in Hbelow. done. }
  destruct (lookup_lt_is_Some_2 (np.argsort a) r) as [i' Hi'];
    [rewrite argsort_length; lia|].
  exists i'. split; [done|].
  pose proof (argsort_lookup_lt _ _ _ Hi') as Hi'lt.
  destruct (lookup_lt_is_Some_2 a i' Hi'lt) as [w Hw].
  rewrite Hw. f_equal.
  assert (key r = w) as Hkr.
  { unfold key, np.id_at. rewrite Hi'. simpl. by rewrite Hw. }
  rewrite <- Hkr, <- Hkj.
  apply string_leb_not_ltb_eq.
  - apply (argsort_sorted a r j); lia.
  - rewrite Hkj. apply (Habove r); lia.
Qed.

Lemma take_idx_searchsorted (a vs : list string) :
  Forall (fun v => v ∈ a) vs ->
  exists inds,
    np.take_idx (np.argsort a) (np.searchsorted a vs (np.argsort a)) = Ok inds /\
    Forall2 (fun v i => a !! i = Some v) vs inds.
Proof.
  unfold np.take_idx, np.searchsorted.
  induction 1 as [|v vs Hv _ (inds & Hinds & Hall)]; simpl.
  - exists []. by split.
  - destruct (searchsorted_found a v Hv) as (i & Hi & Hai).
    unfold np.getitem at 1. rewrite Hi. simpl. rewrite Hinds. simpl.
    exists (i :: inds). split; [done|]. by constructor.
Qed.

(** ** Filtering and resolving the matches *)

Lemma resolve_matches_spec (fetched : list PointMatch) (tile_ids : list string) :
  let survivors := filter (both_in_stack tile_ids) fetched in
  (survivors = [] /\ resolve_matches fetched tile_ids = Ok None) \/
  (survivors <> [] /\
   exists pinds qinds,
     resolve_matches fetched tile_ids = Ok (Some (survivors, pinds, qinds)) /\
     Forall2 (fun m i => tile_ids !! i = Some (pId m)) survivors pinds /\
     Forall2 (fun m j => tile_ids !! j = Some (qId m)) survivors qinds).
Proof.
  intros survivors. unfold resolve_matches.
  rewrite instack_mask, mask_select_map, !mask_select_map_map, filter_bool_decide.
  fold survivors.
  destruct (decide (length fetched = 0)) as [Hnil|Hfetched].
  { left. split; [|done].
    apply nil_length_inv in Hnil. subst survivors. by rewrite Hnil. }
  destruct (decide (length survivors = 0)) as [Hnil|Hsurv].
  { left. split; [by apply nil_length_inv|done]. }
  right. split; [by intros ->|].
  assert (Forall (both_in_stack tile_ids) survivors) as Hall.
  { apply Forall_forall. intros m Hm. by apply list_elem_of_filter in Hm as [? _]. }
  destruct (take_idx_searchsorted tile_ids (map pId survivors))
    as (pinds & -> & Hp).
  { apply Forall_fmap. eapply Forall_impl; [exact Hall|]. by intros m [? _]. }
  destruct (take_idx_searchsorted tile_ids (map qId survivors))
    as (qinds & -> & Hq).
  { apply Forall_fmap. eapply Forall_impl; [exact Hall|]. by intros m [_ ?]. }
  exists pinds, qinds. simpl. split; [done|].
  apply Forall2_fmap_l in Hp, Hq. by split.
Qed.

(** C6.  The matches that reach the assembly are exactly the fetched
    matches whose source and target ids both occur in [tile_ids], in
    their order; [resolve_matches] returns, and for the [k]-th surviving
    match the positions found by the sorted search satisfy
    [tile_ids[pinds[k]] = pId] and [tile_ids[qinds[k]] = qId].  Without
    duplicates in [tile_ids] the sorting permutation is unique, so the
    [argsort] of the model is numpy's. *)
Theorem resolve_matches_correct
    (fetched : list PointMatch) (tile_ids : list string) :
  NoDup tile_ids ->
  let survivors := filter (both_in_stack tile_ids) fetched in
  (forall m, m ∈ survivors <-> m ∈ fetched /\ pId m ∈ tile_ids /\ qId m ∈ tile_ids) /\
  ((survivors = [] /\ resolve_matches fetched tile_ids = Ok None) \/
   (exists pinds qinds,
      resolve_matches fetched tile_ids = Ok (Some (survivors, pinds, qinds)) /\
      length pinds = length survivors /\
      length qinds = length survivors /\
      forall k m, survivors !! k = Some m ->
        exists i j,
          pinds !! k = Some i /\ qinds !! k = Some j /\
          tile_ids !! i = Some (pId m) /\ tile_ids !! j = Some (qId m))).
Proof.
  intros _ survivors. split.
  { intros m. unfold survivors. rewrite list_elem_of_filter.
    unfold both_in_stack. tauto. }
  destruct (resolve_matches_spec fetched tile_ids)
    as [[Hnil Hres]|(_ & pinds & qinds & Hres & Hp & Hq)]; [by left|].
  right. exists pinds, qinds. split; [done|].
  split; [symmetry; by eapply Forall2_length|].
  split; [symmetry; by eapply Forall2_length|].
  intros k m Hk.
  destruct (Forall2_lookup_l _ _ _ _ _ Hp Hk) as (i & Hi & Hti).
  destruct (Forall2_lookup_l _ _ _ _ _ Hq Hk) as (j & Hj & Htj).
  by exists i, j.
Qed.

(** C7.  When no match is fetched, or every fetched match has a tile
    outside the stack, the function returns the chunk built at its
    start: the four arrays are null and no tile is marked used. *)
Theorem calculate_processing_chunk_empty
    (transform : AlignerTransform) (fetched : list PointMatch)
    (pair : TilePair) (matrix_assembly : MatrixAssembly)
    (tile_ids : list string) :
  (forall m, m ∈ fetched -> pId m ∉ tile_ids \/ qId m ∉ tile_ids) ->
  exists chunk,
    calculate_processing_chunk transform fetched pair matrix_assembly tile_ids
      = Ok chunk /\
    data chunk = None /\ indices chunk = None /\
    indptr chunk = None /\ weights chunk = None /\
    length (tiles_used chunk) = length tile_ids /\
    Forall (fun used => used = false) (tiles_used chunk).
Proof.
  intros Hout. exists (new_chunk (length tile_ids)).
  unfold calculate_processing_chunk.
  destruct (resolve_matches_spec fetched tile_ids)
    as [[_ ->]|(Hsurv & _)].
  - simpl. split_and!; try done.
    + apply length_replicate.
    + apply Forall_replicate. done.
  - exfalso. apply Hsurv.
    destruct (filter (both_in_stack tile_ids) fetched) as [|m l] eqn:E; [done|].
    assert (m ∈ filter (both_in_stack tile_ids) fetched) as Hm
      by (rewrite E; left).
    apply list_elem_of_filter in Hm as [[Hp Hq] Hm].
    destruct (Hout m Hm); done.
Qed.

(** ** Writing a block into a pre-allocated array *)

Lemma shift_seq (s n k : nat) : np.shift (seq s n) k = seq (s + k) n.
Proof.
  unfold np.shift. revert s. induction n as [|n IH]; intros s; [done|].
  simpl. by rewrite IH.
Qed.

Lemma shift_arange (n k : nat) : np.shift (np.arange n) k = seq k n.
Proof. unfold np.arange. by rewrite shift_seq. Qed.

Lemma put_seq {A} (vals a : list A) (off : nat) :
  off + length vals <= length a ->
  np.put a (seq off (length vals)) vals
  = take off a ++ vals ++ drop (off + length vals) a.
Proof.
  revert a off. induction vals as [|v vals IH]; intros a off Hlen; simpl.
  - by rewrite Nat.add_0_r, take_drop.
  - simpl in Hlen. rewrite IH by (rewrite length_insert; lia).
    rewrite (take_S_r _ _ v) by (apply list_lookup_insert_eq; lia).
    rewrite take_insert_ge by lia.
    rewrite drop_insert_lt by lia.
    replace (S off + length vals) with (off + S (length vals)) by lia.
    by rewrite <- app_assoc.
Qed.

(** Writing [n] values at the positions [off, off + 1, ...] succeeds
    exactly when the positions exist, and replaces that segment. *)
Lemma setitem_seq {A} (a vals : list A) (off n : nat) :
  length vals = n ->
  np.setitem a (seq off n) vals =
    if decide (n = 0 \/ off + n <= length a)
    then Ok (take off a ++ vals ++ drop (off + n) a)
    else Raise IndexError.
Proof.
  intros Hlen. unfold np.setitem.
  destruct (forallb _ (seq off n)) eqn:Hall.
  - unfold np.broadcast. rewrite length_seq.
    rewrite decide_True by done. simpl.
    rewrite forallb_forall in Hall.
    assert (n = 0 \/ off + n <= length a) as Hcase.
    { destruct n as [|n]; [by left|right].
      specialize (Hall (off + n)).
      rewrite bool_decide_eq_true in Hall.
      enough (off + n < length a) by lia.
      apply Hall, list_elem_of_In, elem_of_seq. lia. }
    rewrite decide_True by done. f_equal.
    destruct Hcase as [->|Hfit].
    + apply nil_length_inv in Hlen. subst vals. simpl.
      by rewrite Nat.add_0_r, take_drop.
    + subst n. by apply put_seq.
  - rewrite decide_False; [done|].
    intros Hcase.
    assert (forallb (fun i => bool_decide (i < length a)) (seq off n) = true)
      as Hyes; [|congruence].
    apply forallb_forall. intros i Hi.
    apply list_elem_of_In, elem_of_seq in Hi.
    apply bool_decide_eq_true. lia.
Qed.

Lemma splice_padded {A} (X vals : list A) (z : A) (N n off : nat) :
  length X = off ->
  take off (X ++ replicate N z) ++ vals ++ drop (off + n) (X ++ replicate N z)
  = (X ++ vals) ++ replicate (N - n) z.
Proof.
  intros <-. rewrite take_app_length, drop_app_add, drop_replicate.
  by rewrite <- app_assoc.
Qed.

(** ** The assembly loop *)

Lemma block_rows_app (bs1 bs2 : list SubBlock) :
  block_rows (bs1 ++ bs2) = block_rows bs1 + block_rows bs2.
Proof.
  apply sum_list_with_app.
Qed.

Lemma block_rows_snoc (bs : list SubBlock) (sb : SubBlock) :
  block_rows (bs ++ [sb]) = block_rows bs + length (wts sb).
Proof. rewrite block_rows_app. unfold block_rows. simpl. lia. Qed.

Lemma block_weights_length (fac : float) (bs : list SubBlock) :
  length (block_weights fac bs) = block_rows bs.
Proof.
  unfold block_weights, block_rows.
  induction bs as [|b bs IH]; [done|].
  simpl. by rewrite length_app, length_map, IH.
Qed.

Lemma block_data_length (transform : AlignerTransform) (bs : list SubBlock) :
  Forall (subblock_ok transform) bs ->
  length (block_data bs) = block_rows bs * nnz_per_row transform.
Proof.
  unfold block_data, block_rows.
  induction 1 as [|b bs (Hd & _ & Hw & _) _ IH]; [done|].
  simpl. rewrite length_app, IH, Hd, Hw. lia.
Qed.

Lemma block_indices_length (transform : AlignerTransform) (bs : list SubBlock) :
  Forall (subblock_ok transform) bs ->
  length (block_indices bs) = block_rows bs * nnz_per_row transform.
Proof.
  unfold block_indices, block_rows.
  induction 1 as [|b bs (_ & Hi & Hw & _) _ IH]; [done|].
  simpl. rewrite length_app, IH, Hi, Hw. lia.
Qed.

Lemma row_pointers_length (nnz nrows : nat) :
  length (row_pointers nnz nrows) = nrows + 1.
Proof. unfold row_pointers. by rewrite length_map, length_seq. Qed.

Lemma row_pointers_lookup (nnz nrows j : nat) :
  j <= nrows -> row_pointers nnz nrows !! j = Some (Z.of_nat (j * nnz)).
Proof.
  intros Hj. unfold row_pointers.
  rewrite list_lookup_fmap, lookup_seq_lt; [done|lia].
Qed.

(** Appending the re-based local row pointers of [r] more rows. *)
Lemma row_pointers_extend (nnz nrows r : nat) :
  row_pointers nnz nrows
    ++ map (fun p => (p + Z.of_nat (nrows * nnz))%Z)
           (map (fun j => Z.of_nat ((j + 1) * nnz)) (seq 0 r))
  = row_pointers nnz (nrows + r).
Proof.
  unfold row_pointers.
  replace (nrows + r + 1) with ((nrows + 1) + r) by lia.
  rewrite (seq_app (nrows + 1) r), map_app. f_equal.
  rewrite map_map.
  apply list_eq. intros i. rewrite !list_lookup_fmap.
  destruct (decide (i < r)) as [Hi|Hi].
  - rewrite !lookup_seq_lt by lia. cbn [fmap option_fmap option_map].
    f_equal. lia.
  - rewrite !lookup_seq_ge by lia. done.
Qed.

Lemma block_data_snoc (bs : list SubBlock) (sb : SubBlock) :
  block_data (bs ++ [sb]) = block_data bs ++ d sb.
Proof.
  unfold block_data. rewrite map_app, concat_app. simpl. by rewrite app_nil_r.
Qed.

Lemma block_indices_snoc (bs : list SubBlock) (sb : SubBlock) :
  block_indices (bs ++ [sb]) = block_indices bs ++ ind sb.
Proof.
  unfold block_indices. rewrite map_app, concat_app. simpl.
  by rewrite app_nil_r.
Qed.

Lemma block_weights_snoc (fac : float) (bs : list SubBlock) (sb : SubBlock) :
  block_weights fac bs ++ map (fun w => (w * fac)%float) (wts sb)
  = block_weights fac (bs ++ [sb]).
Proof.
  unfold block_weights. rewrite map_app, concat_app. simpl.
  by rewrite app_nil_r.
Qed.

Section assembly_loop.

Context (transform : AlignerTransform) (ma : MatrixAssembly) (fac : float).
Context (matches : list PointMatch) (pinds qinds : list nat).
Context (ntiles ni : nat).

Hypothesis transform_ok : forall m pk qk sb,
  CSR_from_tilepair transform m pk qk
    (npts_min ma) (npts_max ma) (choose_random ma) = Some sb ->
  subblock_ok transform sb.
Hypothesis pinds_length : length pinds = length matches.
Hypothesis qinds_length : length qinds = length matches.
Hypothesis pinds_bound : Forall (fun i => i < ntiles) pinds.
Hypothesis qinds_bound : Forall (fun i => i < ntiles) qinds.

Let step := splice_match transform ma fac matches pinds qinds.
Let block := block_of transform ma matches pinds qinds.
Let holds := buffers_hold transform fac ntiles ni.

(** One iteration: a match without sub-block leaves the buffers as
    they are; a sub-block is appended when its rows fit the
    allocation, and the write raises when they do not. *)
Lemma splice_match_spec (bs : list SubBlock) (st : Buffers) (k : nat) :
  k < length matches ->
  holds bs st ->
  Forall (subblock_ok transform) bs ->
  match block k with
  | None => step st k = Ok st
  | Some sb =>
      subblock_ok transform sb /\
      if decide (block_rows bs + length (wts sb) <= ni)
      then exists st', step st k = Ok st' /\ holds (bs ++ [sb]) st'
      else exists e, step st k = Raise e
  end.
Proof.
  intros Hk Hinv Hbs. subst step block holds.
  destruct (lookup_lt_is_Some_2 matches k Hk) as [m Hm].
  destruct (lookup_lt_is_Some_2 pinds k) as [pk Hpk]; [lia|].
  destruct (lookup_lt_is_Some_2 qinds k) as [qk Hqk]; [lia|].
  pose proof (Forall_lookup_1 _ _ _ _ pinds_bound Hpk) as Hpklt.
  pose proof (Forall_lookup_1 _ _ _ _ qinds_bound Hqk) as Hqklt.
  simpl in Hpklt, Hqklt.
  unfold block_of, splice_match, np.getitem. rewrite Hm, Hpk, Hqk. simpl.
  destruct (CSR_from_tilepair transform m pk qk _ _ _) as [sb|] eqn:Hsb;
    [|done].
  pose proof (transform_ok _ _ _ _ Hsb) as Hsbok.
  split; [done|].
  destruct Hsbok as (Hd & Hi & Hw & Hiptr).
  destruct Hinv as (Hused & Hn & Hle & Hdata & Hind & Hwts & Hptr).
  set (nnz := nnz_per_row transform) in *.
  set (R := block_rows bs) in *.
  set (r := npts sb * rows_per_ptmatch transform) in *.
  assert (R * nnz <= ni * nnz) as HRnnz by (apply Nat.mul_le_mono_r; lia).
  assert (length (b_data st) = ni * nnz) as Ldata.
  { rewrite Hdata, length_app, length_replicate.
    rewrite (block_data_length transform) by done. fold nnz R. lia. }
  assert (length (b_indices st) = ni * nnz) as Lind.
  { rewrite Hind, length_app, length_replicate.
    rewrite (block_indices_length transform) by done. fold nnz R. lia. }
  assert (length (b_weights st) = ni) as Lwts.
  { rewrite Hwts, length_app, length_replicate, block_weights_length.
    fold R. lia. }
  assert (length (b_indptr st) = ni + 1) as Lptr.
  { rewrite Hptr, length_app, length_replicate, row_pointers_length. lia. }
  unfold np.setitem1.
  rewrite (decide_True (P := pk < length (b_tiles_used st))) by lia. simpl.
  rewrite (decide_True (P := qk < length (<[pk:=true]> (b_tiles_used st))))
    by (rewrite length_insert; lia).
  simpl.
  rewrite Hn, !shift_arange, shift_seq. fold nnz r.
  rewrite (setitem_seq (b_data st) _ _ _ Hd).
  rewrite (setitem_seq (b_indices st) _ _ _ Hi).
  rewrite (setitem_seq (b_weights st) (map _ (wts sb)) R r)
    by (by rewrite length_map).
  rewrite Ldata, Lind, Lwts, Hw.
  destruct (decide (R + r <= ni)) as [Hfit|Hover].
  - assert (R * nnz + r * nnz <= ni * nnz) as Hfitnnz.
    { rewrite <- Nat.mul_add_distr_r. apply Nat.mul_le_mono_r. lia. }
    rewrite !decide_True by (right; lia). simpl.
    assert (b_indptr st !! R = Some (Z.of_nat (R * nnz))) as ->.
    { rewrite Hptr, lookup_app_l by (rewrite row_pointers_length; lia).
      by apply row_pointers_lookup. }
    simpl.
    rewrite (setitem_seq (b_indptr st) _ (R + 1) r)
      by (by rewrite Hiptr, !length_map, length_seq).
    rewrite decide_True by (right; lia). simpl.
    eexists. split; [reflexivity|].
    unfold buffers_hold. simpl. rewrite block_rows_snoc. fold nnz R.
    rewrite Hw.
    split_and!.
    + by rewrite !length_insert.
    + done.
    + done.
    + rewrite Hdata, block_data_snoc.
      rewrite splice_padded by (by apply block_data_length).
      f_equal. f_equal. rewrite Nat.mul_add_distr_r. lia.
    + rewrite Hind, block_indices_snoc.
      rewrite splice_padded by (by apply block_indices_length).
      f_equal. f_equal. rewrite Nat.mul_add_distr_r. lia.
    + rewrite Hwts, <- block_weights_snoc.
      rewrite splice_padded by apply block_weights_length.
      f_equal. f_equal. lia.
    + rewrite Hptr, Hiptr.
      rewrite splice_padded by apply row_pointers_length.
      rewrite row_pointers_extend. f_equal. f_equal. lia.
  - assert (~ (r = 0 \/ R + r <= ni)) as Hno by lia.
    destruct (decide (r * nnz = 0 \/ R * nnz + r * nnz <= ni * nnz));
      simpl; [|by eexists].
    rewrite (decide_False _ _ Hno). simpl. by eexists.
Qed.

Lemma block_of_ok (k : nat) (sb : SubBlock) :
  block k = Some sb -> subblock_ok transform sb.
Proof.
  subst block. unfold block_of. intros H.
  destruct (matches !! k) as [m|]; [|done].
  destruct (pinds !! k) as [pk|]; [|done].
  destruct (qinds !! k) as [qk|]; [|done].
  simpl in H. by eapply transform_ok.
Qed.

Lemma blocks_ok (ks : list nat) :
  Forall (subblock_ok transform) (omap block ks).
Proof.
  induction ks as [|k ks IH]; simpl; [done|].
  destruct (block k) as [sb|] eqn:Hk; [|done].
  constructor; [by eapply block_of_ok|done].
Qed.

(** The whole loop: it returns exactly when the rows of all the
    sub-blocks fit the allocation, with all of them spliced in order. *)
Lemma assembly_loop_spec (ks : list nat) :
  forall (bs : list SubBlock) (st : Buffers),
    Forall (fun k => k < length matches) ks ->
    holds bs st ->
    Forall (subblock_ok transform) bs ->
    if decide (block_rows (bs ++ omap block ks) <= ni)
    then exists st',
           rfold step st ks = Ok st' /\ holds (bs ++ omap block ks) st'
    else exists e, rfold step st ks = Raise e.
Proof.
  induction ks as [|k ks IH]; intros bs st Hks Hinv Hbs; simpl.
  - rewrite app_nil_r.
    rewrite decide_True by apply Hinv. by exists st.
  - apply Forall_cons in Hks as [Hk Hks].
    pose proof (splice_match_spec bs st k Hk Hinv Hbs) as Hstep.
    destruct (block k) as [sb|] eqn:Hblock.
    + destruct Hstep as [Hsb Hstep].
      destruct (decide (block_rows bs + length (wts sb) <= ni)) as [Hfit|Hover].
      * destruct Hstep as (st1 & -> & Hinv1). simpl.
        assert (Forall (subblock_ok transform) (bs ++ [sb])) as Hbs1
          by (apply Forall_app; split; [done|by constructor]).
        pose proof (IH (bs ++ [sb]) st1 Hks Hinv1 Hbs1) as Hloop.
        by rewrite <- app_assoc in Hloop.
      * destruct Hstep as (e & ->). simpl.
        rewrite decide_False; [by exists e|].
        rewrite block_rows_app. unfold block_rows at 2. simpl. lia.
    + rewrite Hstep. simpl. by apply IH.
Qed.

End assembly_loop.

Lemma row_pointers_head (nnz nrows : nat) :
  row_pointers nnz nrows !! 0 = Some 0%Z.
Proof. rewrite row_pointers_lookup by lia. done. Qed.

Lemma row_pointers_last (nnz nrows : nat) :
  last (row_pointers nnz nrows) = Some (Z.of_nat (nrows * nnz)).
Proof.
  rewrite last_lookup, row_pointers_length.
  replace (pred (nrows + 1)) with nrows by lia.
  by apply row_pointers_lookup.
Qed.


(** The second half of the function: it raises when the pair weight
    does, or when the spliced rows exceed the allocation; otherwise it
    returns the chunk made of the spliced entries. *)
Lemma assemble_chunk_spec (transform : AlignerTransform) (pair : TilePair)
    (ma : MatrixAssembly) (ntiles : nat)
    (matches : list PointMatch) (pinds qinds : list nat) :
  (forall m pk qk sb,
      CSR_from_tilepair transform m pk qk
        (npts_min ma) (npts_max ma) (choose_random ma) = Some sb ->
      subblock_ok transform sb) ->
  length pinds = length matches ->
  length qinds = length matches ->
  Forall (fun i => i < ntiles) pinds ->
  Forall (fun i => i < ntiles) qinds ->
  let blocks := spliced_blocks transform ma matches pinds qinds in
  match tilepair_weight (z1 pair) (z2 pair) ma with
  | Raise e =>
      assemble_chunk transform pair ma ntiles matches pinds qinds = Raise e
  | Ok fac =>
      if decide (block_rows blocks
                 <= rows_per_ptmatch transform * npts_max ma * length matches)
      then exists used,
          length used = ntiles /\
          assemble_chunk transform pair ma ntiles matches pinds qinds =
            Ok {| tiles_used := used;
                  data := Some (block_data blocks);
                  indices := Some (block_indices blocks);
                  indptr :=
                    Some (row_pointers (nnz_per_row transform) (block_rows blocks));
                  weights := Some (block_weights fac blocks);
                  nchunks := 0;
                  zlist := [z1 pair; z2 pair] |}
      else exists e,
          assemble_chunk transform pair ma ntiles matches pinds qinds = Raise e
  end.
Proof.
  intros Hok Hlp Hlq Hbp Hbq blocks. unfold assemble_chunk.
  set (nnz := nnz_per_row transform).
  set (ni := rows_per_ptmatch transform * npts_max ma * length matches).
  unfold np.setitem1, np.zeros. rewrite length_replicate.
  rewrite decide_True by lia. simpl.
  destruct (tilepair_weight (z1 pair) (z2 pair) ma) as [fac|e]; [simpl|done].
  assert (Forall (fun k => k < length matches) (np.arange (length matches)))
    as Hrange.
  { apply Forall_forall. intros k Hk. apply elem_of_seq in Hk. lia. }
  match goal with
  | |- context [rfold _ ?st0 _] =>
      assert (buffers_hold transform fac ntiles ni [] st0) as Hinit
  end.
  { unfold buffers_hold. simpl. fold nnz.
    split_and!; try done.
    - apply length_replicate.
    - lia.
    - f_equal. unfold ni. lia.
    - f_equal. unfold ni. lia.
    - f_equal. lia.
    - replace (ni + 1) with (S ni) by lia.
      replace (ni - 0) with ni by lia. done. }
  pose proof (assembly_loop_spec transform ma fac matches pinds qinds
                ntiles ni Hok Hlp Hlq Hbp Hbq
                (np.arange (length matches)) [] _ Hrange Hinit
                (Forall_nil_2 _)) as Hloop.
  simpl in Hloop.
  change (omap _ (np.arange (length matches))) with blocks in Hloop.
  destruct (decide (block_rows blocks <= ni)) as [Hfit|Hover].
  - destruct Hloop as (st & -> & Hinv). simpl.
    destruct Hinv as (Hused & Hn & Hle & Hdata & Hind & Hwts & Hptr).
    assert (Forall (subblock_ok transform) blocks) as Hblocks
      by apply (blocks_ok transform ma matches pinds qinds Hok).
    exists (b_tiles_used st). split; [done|].
    rewrite Hn, Hdata, Hind, Hwts, Hptr. fold nnz.
    rewrite (take_app_length' (block_data blocks))
      by (by rewrite (block_data_length transform)).
    rewrite (take_app_length' (block_indices blocks))
      by (by rewrite (block_indices_length transform)).
    rewrite (take_app_length' (block_weights fac blocks))
      by (by rewrite block_weights_length).
    rewrite (take_app_length' (row_pointers nnz (block_rows blocks)))
      by (by rewrite row_pointers_length).
    done.
  - destruct Hloop as (e & ->). by exists e.
Qed.






(** ** The worked example *)

Lemma concat_replicate_length {A} (n : nat) (l : list A) :
  length (concat (replicate n l)) = n * length l.
Proof. induction n as [|n IH]; simpl; [done|]. by rewrite length_app, IH. Qed.

Lemma translation_ok (m : PointMatch) (pk qk nmin nmax : nat) (rand : bool)
    (sb : SubBlock) :
  CSR_from_tilepair translation m pk qk nmin nmax rand = Some sb ->
  subblock_ok translation sb /\ npts sb <= nmax.
Proof.
  simpl. unfold translation_CSR.
  destruct (decide (_ < nmin)); [done|]. intros [= <-].
  unfold subblock_ok. simpl. split; [|lia].
  rewrite !concat_replicate_length. simpl.
  split_and!; try lia; [|done].
  assert (forall l : list float,
             length (concat (map (fun w => [w; w]) l)) = length l * 2) as Hpairs.
  { induction l as [|w l IH]; simpl; [done|]. rewrite IH. lia. }
  rewrite Hpairs, length_take. lia.
Qed.


Lemma resolve_matches_correct_witness :
  resolve_matches example_fetched example_tile_ids =
    Ok (Some ([example_match "t1" "t2" [1%float; 1%float];
               example_match "t3" "t1" [1%float];
               example_match "t2" "t3" [1%float; 0.5%float; 1%float]],
              [1; 0; 2], [2; 1; 0])) /\
  forall m,
    m ∈ filter (both_in_stack example_tile_ids) example_fetched <->
    m ∈ example_fetched /\ pId m ∈ example_tile_ids /\ qId m ∈ example_tile_ids.
Proof.
  split; [vm_compute; reflexivity|].
  refine (proj1 (resolve_matches_correct example_fetched example_tile_ids _)).
  apply (bool_decide_unpack _). vm_compute. exact I.
Defined.

Lemma calculate_processing_chunk_empty_witness :
  exists chunk,
    calculate_processing_chunk translation
      [example_match "t2" "t9" [1%float; 1%float]]
      example_pair example_assembly example_tile_ids = Ok chunk /\
    data chunk = None /\ indices chunk = None /\
    indptr chunk = None /\ weights chunk = None /\
    length (tiles_used chunk) = length example_tile_ids /\
    Forall (fun used => used = false) (tiles_used chunk).
Proof.
  apply (calculate_processing_chunk_empty translation
           [example_match "t2" "t9" [1%float; 1%float]]
           example_pair example_assembly example_tile_ids).
  intros m Hm. apply list_elem_of_singleton in Hm as ->. right.
  apply (bool_decide_unpack _). vm_compute. exact I.
Defined.

(** ** Merging chunks *)

Lemma chunk_arrays_fields (c : Chunk) (a : Merged) :
  chunk_arrays c = Some a ->
  data c = Some (m_data a) /\ weights c = Some (m_weights a) /\
  indices c = Some (m_indices a) /\ indptr c = Some (m_indptr a) /\
  zlist c = m_zlist a.
Proof.
  unfold chunk_arrays. intros H.
  destruct (data c), (weights c), (indices c), (indptr c); simplify_eq/=.
  done.
Qed.

Lemma chunk_arrays_empty (c : Chunk) :
  chunk_wf c -> data c = None -> chunk_arrays c = None.
Proof. unfold chunk_arrays. intros _ ->. done. Qed.

Lemma chunk_arrays_nonempty (c : Chunk) :
  chunk_wf c -> is_Some (data c) -> is_Some (chunk_arrays c).
Proof.
  unfold chunk_arrays.
  intros [(Hd & _)|(_ & [? ->] & [? ->] & [? ->])] [? Hdata].
  - congruence.
  - rewrite Hdata. simpl. by eexists.
Qed.

(** The selection of a field over the chunks with data is that field of
    the arrays of the non-empty chunks. *)
Lemma select_field_arrays {A} (field : Chunk -> A) (proj : Merged -> A)
    (chunks : list Chunk) :
  (forall c a, chunk_arrays c = Some a -> field c = proj a) ->
  Forall chunk_wf chunks ->
  select_field field chunks = map proj (omap chunk_arrays chunks).
Proof.
  intros Hfield. unfold select_field.
  induction 1 as [|c chunks Hwf _ IH]; [done|].
  rewrite filter_cons. cbn [omap list_omap].
  destruct (decide (is_Some (data c))) as [Hsome|Hnone].
  - destruct (chunk_arrays_nonempty c Hwf Hsome) as [a Ha].
    rewrite Ha. simpl. by rewrite IH, (Hfield c a Ha).
  - rewrite chunk_arrays_empty; [done|done|].
    by apply eq_None_not_Some.
Qed.

Lemma rmap_require_Some {A B} (e : exn) (f : B -> A) (l : list B) :
  rmap (require e) (map (fun b => Some (f b)) l) = Ok (map f l).
Proof. induction l as [|b l IH]; simpl; [done|]. by rewrite IH. Qed.

Lemma foldl_merge_flat (l : list Merged) (acc : Merged) :
  m_data (foldl merge_step acc l) = m_data acc ++ concat (map m_data l) /\
  m_weights (foldl merge_step acc l) = m_weights acc ++ concat (map m_weights l) /\
  m_indices (foldl merge_step acc l) = m_indices acc ++ concat (map m_indices l) /\
  m_zlist (foldl merge_step acc l) = m_zlist acc ++ concat (map m_zlist l).
Proof.
  revert acc. induction l as [|c l IH]; intros acc; simpl.
  - by rewrite !app_nil_r.
  - destruct (IH (merge_step acc c)) as (-> & -> & -> & ->). simpl.
    by rewrite <- !app_assoc.
Qed.

Lemma last_rebased (acc j : list Z) (s : Z) :
  last acc = Some s ->
  head j = Some 0%Z ->
  last (acc ++ map (fun p => (p + s)%Z) (tail j))
  = Some (s + default 0%Z (last j))%Z.
Proof.
  intros Hacc Hj. destruct j as [|z t]; [done|].
  injection Hj as ->. simpl. rewrite last_app.
  change (map (fun p => (p + s)%Z) t) with ((fun p => (p + s)%Z) <$> t).
  rewrite fmap_last, last_cons.
  destruct (last t) as [y|]; simpl.
  - f_equal. lia.
  - rewrite Hacc. f_equal. lia.
Qed.

Lemma foldl_merge_indptr (l : list Merged) (acc : Merged) (s : Z) :
  last (m_indptr acc) = Some s ->
  Forall (fun a => head (m_indptr a) = Some 0%Z) l ->
  m_indptr (foldl merge_step acc l)
  = m_indptr acc ++ concat (rebased_parts s (map m_indptr l)).
Proof.
  revert acc s. induction l as [|c l IH]; intros acc s Hlast Hheads; simpl.
  - by rewrite app_nil_r.
  - apply Forall_cons in Hheads as [Hc Hheads].
    rewrite (IH (merge_step acc c) (s + default 0 (last (m_indptr c)))%Z).
    + simpl. rewrite Hlast. simpl. by rewrite <- app_assoc.
    + simpl. rewrite Hlast. simpl. by apply last_rebased.
    + done.
Qed.

(** The pieces [concatenate_results] builds from the cumulated final row
    pointers, from position [length pre] on. *)
Lemma results_parts (indptrs : list (list Z)) (pre cum : list Z) (s : Z) :
  cum = pre ++ np.cumsum_from s (map (fun j => default 0%Z (last j)) indptrs) ->
  last pre = Some s ->
  rmap (fun '(i, j) =>
          j <- require TypeError j ;;
          if decide (i = 0) then Ok j
          else off <- np.getitem cum (i - 1) ;;
               Ok (map (fun p => (p + off)%Z) (tail j)))
       (imap (fun i j => (length pre + i, j)) (map Some indptrs))
  = Ok (rebased_parts s indptrs).
Proof.
  revert pre s. induction indptrs as [|j rest IH]; intros pre s Hcum Hlast;
    [done|].
  cbn [map imap rmap rebased_parts]. simpl in Hcum.
  assert (pre <> []) as Hne by (by intros ->).
  assert (0 < length pre) as Hlen by (destruct pre; [done|simpl; lia]).
  cbn [require rbind].
  rewrite decide_False by lia.
  unfold np.getitem at 1.
  assert (cum !! (length pre + 0 - 1) = Some s) as ->.
  { rewrite Hcum, lookup_app_l by lia.
    rewrite last_lookup in Hlast. rewrite <- Hlast. f_equal. lia. }
  cbn [rbind].
  assert (imap ((fun i (j0 : option (list Z)) => (length pre + i, j0)) ∘ S)
               (map Some rest)
          = imap (fun i j0 =>
                    (length (pre ++ [(s + default 0 (last j))%Z]) + i, j0))
                 (map Some rest)) as ->.
  { apply imap_ext. intros i x _. simpl. rewrite length_app. simpl.
    f_equal. lia. }
  rewrite (IH (pre ++ [(s + default 0 (last j))%Z])
              (s + default 0 (last j))%Z).
  - done.
  - by rewrite Hcum, <- app_assoc.
  - apply last_snoc.
Qed.

Lemma Merged_eq (m m' : Merged) :
  m_data m = m_data m' -> m_weights m = m_weights m' ->
  m_indices m = m_indices m' -> m_zlist m = m_zlist m' ->
  m_indptr m = m_indptr m' -> m = m'.
Proof. destruct m, m'; simpl; intros; by subst. Qed.

Lemma rmap_getlast (l : list Merged) :
  Forall (fun a => head (m_indptr a) = Some 0%Z) l ->
  rmap (fun i => i <- require TypeError i ;; np.getlast i)
       (map (fun a => Some (m_indptr a)) l)
  = Ok (map (fun j => default 0%Z (last j)) (map m_indptr l)).
Proof.
  induction 1 as [|a l Ha _ IH]; simpl; [done|].
  rewrite IH. unfold np.getlast.
  destruct (m_indptr a) as [|z t] eqn:E; [done|].
  rewrite last_cons. by destruct (last t).
Qed.

(** [concatenate_results] computes the merge of the specification. *)
Lemma concatenate_results_spec (chunks : list Chunk) (a : Merged)
    (l : list Merged) :
  Forall chunk_wf chunks ->
  omap chunk_arrays chunks = a :: l ->
  Forall (fun a => head (m_indptr a) = Some 0%Z) (a :: l) ->
  concatenate_results chunks = Ok (foldl merge_step a l).
Proof.
  intros Hwf Hne Hheads. unfold concatenate_results.
  rewrite (select_field_arrays data (fun a => Some (m_data a)) chunks)
    by (done || intros c b Hb; by apply chunk_arrays_fields in Hb as (-> & _)).
  rewrite (select_field_arrays weights (fun a => Some (m_weights a)) chunks)
    by (done || intros c b Hb; by apply chunk_arrays_fields in Hb as (_ & -> & _)).
  rewrite (select_field_arrays indices (fun a => Some (m_indices a)) chunks)
    by (done || intros c b Hb;
        by apply chunk_arrays_fields in Hb as (_ & _ & -> & _)).
  rewrite (select_field_arrays zlist m_zlist chunks)
    by (done || intros c b Hb;
        by apply chunk_arrays_fields in Hb as (_ & _ & _ & _ & ->)).
  rewrite (select_field_arrays indptr (fun a => Some (m_indptr a)) chunks)
    by (done || intros c b Hb;
        by apply chunk_arrays_fields in Hb as (_ & _ & _ & -> & _)).
  rewrite Hne, !rmap_require_Some, rmap_getlast by done.
  cbn [map np.concatenate rbind imap rmap require].
  rewrite (decide_True (P := 0 = 0)) by reflexivity. cbn [rbind].
  pose proof (Forall_inv_tail Hheads) as Hl.
  pose proof (Forall_inv Hheads) as Ha.
  set (la := default 0%Z (last (m_indptr a))).
  assert (last (m_indptr a) = Some la) as Hla.
  { revert Ha. unfold la. destruct (m_indptr a) as [|z t]; [done|].
    intros _. rewrite last_cons. by destruct (last t). }
  assert (imap ((fun i (j : option (list Z)) => (i, j)) ∘ S)
               (map (fun a => Some (m_indptr a)) l)
          = imap (fun i j => (length [la] + i, j))
                 (map Some (map m_indptr l))) as ->.
  { rewrite map_map. by apply imap_ext. }
  rewrite (results_parts _ [la] _ la); [| |done].
  - cbn [rbind np.concatenate].
    f_equal. apply Merged_eq; simpl.
    + by rewrite (proj1 (foldl_merge_flat l a)).
    + by rewrite (proj1 (proj2 (foldl_merge_flat l a))).
    + by rewrite (proj1 (proj2 (proj2 (foldl_merge_flat l a)))).
    + by rewrite (proj2 (proj2 (proj2 (foldl_merge_flat l a)))).
    + by rewrite (foldl_merge_indptr l a la).
  - unfold np.cumsum. simpl. fold la. done.
Qed.

(** The while loop stops at the first non-empty chunk. *)
Lemma skip_empty_spec (chunks : list Chunk) (i0 : nat) (a : Merged)
    (l : list Merged) :
  Forall chunk_wf chunks ->
  omap chunk_arrays chunks = a :: l ->
  exists k c,
    skip_empty chunks i0 = Ok (i0 + k) /\
    chunks !! k = Some c /\
    chunk_arrays c = Some a /\
    omap chunk_arrays (drop (k + 1) chunks) = l.
Proof.
  intros Hwf. revert i0.
  induction Hwf as [|c chunks Hc Hwf IH]; intros i0 Hne; [done|].
  cbn [omap list_omap] in Hne. simpl.
  destruct (data c) as [dc|] eqn:Hdata.
  - destruct (chunk_arrays_nonempty c Hc) as [b Hb]; [by rewrite Hdata|].
    rewrite Hb in Hne. injection Hne as -> <-.
    exists 0, c. rewrite Nat.add_0_r. done.
  - rewrite (chunk_arrays_empty c Hc Hdata) in Hne.
    destruct chunks as [|c' chunks']; [done|].
    destruct (IH (S i0) Hne) as (k & ck & Hskip & Hk & Hck & Hrest).
    exists (S k), ck. rewrite Hskip. split; [f_equal; lia|]. by split.
Qed.

(** The for loop appends the later non-empty chunks to the dict it
    updates, and leaves that dict's other keys alone. *)
Lemma absorb_fold (rest : list Chunk) :
  forall (c0 : Chunk) (acc : Merged),
    Forall chunk_wf rest ->
    chunk_arrays c0 = Some acc ->
    m_indptr acc <> [] ->
    exists c0',
      rfold absorb c0 rest = Ok c0' /\
      chunk_arrays c0' = Some (foldl merge_step acc (omap chunk_arrays rest)) /\
      tiles_used c0' = tiles_used c0 /\
      nchunks c0' = nchunks c0.
Proof.
  induction rest as [|c rest IH]; intros c0 acc Hwf Hacc Hptr; simpl.
  { by exists c0. }
  apply Forall_cons in Hwf as [Hc Hwf].
  cbn [omap list_omap]. unfold absorb at 1.
  destruct (data c) as [dc|] eqn:Hdata.
  - destruct (chunk_arrays_nonempty c Hc) as [b Hb]; [by rewrite Hdata|].
    rewrite Hb.
    apply chunk_arrays_fields in Hacc as (-> & -> & -> & -> & Hz0).
    pose proof Hb as Hb'.
    apply chunk_arrays_fields in Hb' as (Hbd & -> & -> & -> & Hzc).
    rewrite Hdata in Hbd. injection Hbd as ->.
    simpl. unfold np.getlast.
    destruct (last (m_indptr acc)) as [lastptr|] eqn:Hlast;
      [|by apply last_None in Hlast].
    simpl.
    match goal with
    | |- context [rfold absorb ?c1 rest] =>
        destruct (IH c1 (merge_step acc b) Hwf) as (c0' & Hfold & Harr & Hu & Hn)
    end.
    + unfold chunk_arrays, merge_step, np.append. simpl.
      by rewrite Hlast, Hz0, Hzc.
    + simpl. by destruct (m_indptr acc).
    + exists c0'. by rewrite Hfold.
  - rewrite (chunk_arrays_empty c Hc Hdata). simpl. by apply IH.
Qed.

(** [concatenate_chunks] returns the dict at the position of the first
    non-empty chunk, holding the merge of the specification; the other
    dicts are as they were. *)
Lemma concatenate_chunks_spec (chunks : list Chunk) (a : Merged)
    (l : list Merged) :
  Forall chunk_wf chunks ->
  omap chunk_arrays chunks = a :: l ->
  m_indptr a <> [] ->
  exists i c0 c0',
    concatenate_chunks chunks = Ok (i, <[i := c0']> chunks) /\
    chunks !! i = Some c0 /\
    chunk_arrays c0 = Some a /\
    chunk_arrays c0' = Some (foldl merge_step a l) /\
    tiles_used c0' = tiles_used c0 /\
    nchunks c0' = nchunks c0.
Proof.
  intros Hwf Hne Hptr. unfold concatenate_chunks.
  destruct (skip_empty_spec chunks 0 a l Hwf Hne)
    as (i & c0 & -> & Hi & Hc0 & Hrest).
  simpl. unfold np.getitem. rewrite Hi. simpl.
  destruct (absorb_fold (drop (i + 1) chunks) c0 a) as (c0' & -> & Harr & Hu & Hn).
  - by apply Forall_drop.
  - done.
  - done.
  - simpl. exists i, c0, c0'. rewrite Hrest in Harr. done.
Qed.

(** ** Non-decreasing row pointers *)

Lemma nondecreasing_StronglySorted (l : list Z) :
  nondecreasing l <-> StronglySorted Z.le l.
Proof.
  split.
  - induction l as [|x l IH]; intros Hl; [constructor|].
    assert (StronglySorted Z.le l) as Hs.
    { apply IH. intros i a b Ha Hb. by apply (Hl (S i) a b). }
    constructor; [done|].
    destruct l as [|y l']; [constructor|].
    assert (x <= y)%Z as Hxy by (by apply (Hl 0 x y)).
    apply StronglySorted_cons in Hs as [Hall _].
    constructor; [done|].
    eapply Forall_impl; [exact Hall|]. simpl. intros z Hz. lia.
  - intros Hs i x y Hx Hy.
    apply (StronglySorted_lookup_le Z.le l i (S i)); [done|lia|done|done].
Qed.

Lemma StronglySorted_le_last (l : list Z) (x m : Z) :
  StronglySorted Z.le l -> last l = Some m -> x ∈ l -> (x <= m)%Z.
Proof.
  intros Hs Hlast Hx.
  apply list_elem_of_lookup_1 in Hx as [i Hi].
  rewrite last_lookup in Hlast.
  pose proof (lookup_lt_Some _ _ _ Hi) as Hlt.
  apply (StronglySorted_lookup_le Z.le l i (pred (length l))); [done|lia|done|done].
Qed.

Lemma StronglySorted_ge_head (l : list Z) (x h : Z) :
  StronglySorted Z.le l -> head l = Some h -> x ∈ l -> (h <= x)%Z.
Proof.
  intros Hs Hhead Hx.
  apply list_elem_of_lookup_1 in Hx as [i Hi].
  rewrite head_lookup in Hhead.
  apply (StronglySorted_lookup_le Z.le l 0 i); [done|lia|done|done].
Qed.

Lemma merge_step_sorted (acc c : Merged) :
  StronglySorted Z.le (m_indptr acc) ->
  StronglySorted Z.le (m_indptr c) ->
  head (m_indptr c) = Some 0%Z ->
  m_indptr acc <> [] ->
  StronglySorted Z.le (m_indptr (merge_step acc c)).
Proof.
  intros Hacc Hc Hhead Hne. simpl.
  destruct (last (m_indptr acc)) as [m|] eqn:Hlast;
    [|by apply last_None in Hlast].
  simpl.
  assert (forall p, p ∈ tail (m_indptr c) -> (0 <= p)%Z) as Hpos.
  { intros p Hp. apply (StronglySorted_ge_head (m_indptr c)); [done|done|].
    destruct (m_indptr c); [done|]. by right. }
  apply StronglySorted_app_2.
  - intros x1 x2 Hx1 Hx2.
    apply list_elem_of_fmap in Hx2 as (p & -> & Hp).
    pose proof (StronglySorted_le_last _ _ _ Hacc Hlast Hx1).
    pose proof (Hpos p Hp). lia.
  - done.
  - apply (StronglySorted_fmap _ Z.le Z.le).
    + intros x y Hxy. lia.
    + destruct (m_indptr c) as [|z t]; [constructor|].
      by apply StronglySorted_cons in Hc as [_ ?].
Qed.

Lemma foldl_merge_sorted (l : list Merged) (acc : Merged) :
  StronglySorted Z.le (m_indptr acc) ->
  m_indptr acc <> [] ->
  Forall (fun a => head (m_indptr a) = Some 0%Z) l ->
  Forall (fun a => nondecreasing (m_indptr a)) l ->
  StronglySorted Z.le (m_indptr (foldl merge_step acc l)).
Proof.
  revert acc. induction l as [|c l IH]; intros acc Hacc Hne Hheads Hmono;
    simpl; [done|].
  apply Forall_cons in Hheads as [Hc Hheads].
  apply Forall_cons in Hmono as [Hcm Hmono].
  apply IH; [|by simpl; destruct (m_indptr acc)|done|done].
  apply merge_step_sorted; [done|by apply nondecreasing_StronglySorted|done|done].
Qed.

Lemma foldl_merge_lengths (l : list Merged) (acc : Merged) :
  Forall (fun a => head (m_indptr a) = Some 0%Z) l ->
  length (m_indptr (foldl merge_step acc l))
  = length (m_indptr acc)
    + sum_list_with (fun a => indptr_rows (m_indptr a)) l /\
  length (m_weights (foldl merge_step acc l))
  = length (m_weights acc) + sum_list_with (fun a => length (m_weights a)) l.
Proof.
  revert acc. induction l as [|c l IH]; intros acc Hheads; simpl.
  - split; lia.
  - apply Forall_cons in Hheads as [Hc Hheads].
    destruct (IH (merge_step acc c) Hheads) as [-> ->]. simpl.
    rewrite !length_app, length_map. unfold indptr_rows.
    destruct (m_indptr c); [done|]. simpl. split; lia.
Qed.

(** Row pointers within [0, B] appended to an accumulator within
    [0, k * B] stay within [0, (k + 1) * B], and so on along the merge. *)
Lemma merge_step_bound (B k : Z) (acc c : Merged) :
  (0 <= B)%Z -> (0 <= k)%Z ->
  Forall (fun p => (0 <= p <= k * B)%Z) (m_indptr acc) ->
  Forall (fun p => (0 <= p <= B)%Z) (m_indptr c) ->
  Forall (fun p => (0 <= p <= (k + 1) * B)%Z) (m_indptr (merge_step acc c)).
Proof.
  intros HB Hk Hacc Hc. cbn [merge_step m_indptr].
  assert (0 <= default 0 (last (m_indptr acc)) <= k * B)%Z as Hlast.
  { destruct (last (m_indptr acc)) as [m|] eqn:Hm; simpl; [|lia].
    apply last_Some_elem_of in Hm.
    exact (proj1 (Forall_forall _ _) Hacc m Hm). }
  apply Forall_app. split.
  - eapply Forall_impl; [exact Hacc|]. simpl. intros p Hp. lia.
  - apply Forall_fmap. apply Forall_forall. intros p Hp. simpl.
    assert (p ∈ m_indptr c) as Hin
      by (destruct (m_indptr c); [done|by right]).
    pose proof (proj1 (Forall_forall _ _) Hc p Hin) as Hb. simpl in Hb. lia.
Qed.

Lemma foldl_merge_bound (B : Z) (l : list Merged) :
  forall (acc : Merged) (k : Z),
    (0 <= B)%Z -> (0 <= k)%Z ->
    Forall (fun p => (0 <= p <= k * B)%Z) (m_indptr acc) ->
    Forall (fun a => Forall (fun p => (0 <= p <= B)%Z) (m_indptr a)) l ->
    Forall (fun p => (0 <= p <= (k + Z.of_nat (length l)) * B)%Z)
      (m_indptr (foldl merge_step acc l)).
Proof.
  induction l as [|c l IH]; intros acc k HB Hk Hacc Hl.
  { simpl. by rewrite Z.add_0_r. }
  apply Forall_cons in Hl as [Hc Hl]. cbn [foldl length].
  replace (k + Z.of_nat (S (length l)))%Z
    with ((k + 1) + Z.of_nat (length l))%Z by lia.
  apply IH; [done|lia| |done].
  by apply merge_step_bound.
Qed.

(** Under the bound of [row_pointers_in_range], the merged row pointers
    are values of [int64], none negative. *)
Lemma merged_row_pointers_in_range (a : Merged) (l : list Merged) :
  head (m_indptr a) = Some 0%Z ->
  row_pointers_in_range (a :: l) ->
  Forall (fun p => (0 <= p < 2 ^ 63)%Z) (m_indptr (foldl merge_step a l)).
Proof.
  intros Hhead (B & Hall & Hprod).
  apply Forall_cons in Hall as [Ha Hl].
  assert (0 <= B)%Z as HB.
  { destruct (m_indptr a) as [|p ps]; [done|].
    apply Forall_cons in Ha as [Hp _]. lia. }
  pose proof (foldl_merge_bound B l a 1 HB ltac:(lia)) as Hb.
  eapply Forall_impl; [apply Hb|].
  - eapply Forall_impl; [exact Ha|]. simpl. intros p Hp. lia.
  - done.
  - simpl. intros p Hp. cbn [length] in Hprod. lia.
Qed.

(** C2.  For chunks of which at least one is non-empty, each with its
    four arrays null together or present together and its row pointers
    starting with the leading zero, and small enough for the sums of
    the merge to stay in the range of [int64]
    ([row_pointers_in_range]): both merge operations return the
    merge the specification words (seed with the first non-empty chunk;
    append values, column indices and weights verbatim and the row
    pointers, but the leading zero, offset by the accumulator's final
    row pointer); [concatenate_chunks] leaves it in the dict it returns.
    Merged values, column indices and weights are the concatenations of
    the chunks' arrays.  The merged row-pointer array has one entry more than the chunks have
    rows, which is one more than there are merged weights when each
    chunk has one weight per row, and it is non-decreasing when each
    chunk's row pointers are; every merged row pointer is a
    non-negative value of [int64]. *)
Theorem merge_operations_correct (chunks : list Chunk) :
  let nonempty := omap chunk_arrays chunks in
  Forall chunk_wf chunks ->
  nonempty <> [] ->
  Forall (fun a => head (m_indptr a) = Some 0%Z) nonempty ->
  row_pointers_in_range nonempty ->
  exists merged,
    merge_spec nonempty = Some merged /\
    (exists i c0 c0',
        concatenate_chunks chunks = Ok (i, <[i := c0']> chunks) /\
        chunks !! i = Some c0 /\
        chunk_arrays c0' = Some merged) /\
    concatenate_results chunks = Ok merged /\
    m_data merged = concat (map m_data nonempty) /\
    m_indices merged = concat (map m_indices nonempty) /\
    m_weights merged = concat (map m_weights nonempty) /\
    length (m_indptr merged)
      = sum_list_with (fun a => indptr_rows (m_indptr a)) nonempty + 1 /\
    (Forall (fun a => length (m_weights a) = indptr_rows (m_indptr a)) nonempty ->
     length (m_indptr merged) = length (m_weights merged) + 1) /\
    (Forall (fun a => nondecreasing (m_indptr a)) nonempty ->
     nondecreasing (m_indptr merged)) /\
    Forall (fun p => (0 <= p < 2 ^ 63)%Z) (m_indptr merged).
Proof.
  intros nonempty Hwf Hne Hheads Hrange.
  destruct nonempty as [|a l] eqn:E; [done|]. clear Hne.
  pose proof (Forall_inv Hheads) as Ha.
  pose proof (Forall_inv_tail Hheads) as Hl.
  simpl in Ha.
  assert (m_indptr a <> []) as Hptr by (intros Hnil; by rewrite Hnil in Ha).
  exists (foldl merge_step a l). split; [done|].
  split.
  { destruct (concatenate_chunks_spec chunks a l Hwf E Hptr)
      as (i & c0 & c0' & Hcc & Hi & _ & Harr & _).
    by exists i, c0, c0'. }
  split; [by apply concatenate_results_spec|].
  destruct (foldl_merge_flat l a) as (Hdata & Hweights & Hindices & _).
  split; [done|]. split; [done|]. split; [done|].
  destruct (foldl_merge_lengths l a Hl) as [Hlenp Hlenw].
  assert (length (m_indptr a) = indptr_rows (m_indptr a) + 1) as Hlena.
  { unfold indptr_rows. destruct (m_indptr a); [done|]. simpl. lia. }
  split; [|split; [|split]].
  - rewrite Hlenp. simpl. lia.
  - intros Hrows. rewrite Hlenp, Hlenw.
    apply Forall_cons in Hrows as [Hra Hrl].
    assert (sum_list_with (fun a => indptr_rows (m_indptr a)) l
            = sum_list_with (fun a => length (m_weights a)) l) as ->; [|lia].
    clear -Hrl. induction Hrl as [|c l Hc _ IH]; simpl; [done|]. lia.
  - intros Hmono. apply Forall_cons in Hmono as [Hma Hml].
    apply nondecreasing_StronglySorted.
    apply foldl_merge_sorted; [|done|done|done].
    by apply nondecreasing_StronglySorted.
  - by apply merged_row_pointers_in_range.
Qed.

Lemma merge_operations_correct_witness :
  exists merged,
    merge_spec (omap chunk_arrays example_chunks) = Some merged /\
    (exists i c0 c0',
        concatenate_chunks example_chunks = Ok (i, <[i := c0']> example_chunks) /\
        example_chunks !! i = Some c0 /\
        chunk_arrays c0' = Some merged) /\
    concatenate_results example_chunks = Ok merged /\
    m_data merged = concat (map m_data (omap chunk_arrays example_chunks)) /\
    m_indices merged = concat (map m_indices (omap chunk_arrays example_chunks)) /\
    m_weights merged = concat (map m_weights (omap chunk_arrays example_chunks)) /\
    length (m_indptr merged)
      = sum_list_with (fun a => indptr_rows (m_indptr a))
          (omap chunk_arrays example_chunks) + 1 /\
    (Forall (fun a => length (m_weights a) = indptr_rows (m_indptr a))
       (omap chunk_arrays example_chunks) ->
     length (m_indptr merged) = length (m_weights merged) + 1) /\
    (Forall (fun a => nondecreasing (m_indptr a))
       (omap chunk_arrays example_chunks) ->
     nondecreasing (m_indptr merged)) /\
    Forall (fun p => (0 <= p < 2 ^ 63)%Z) (m_indptr merged).
Proof.
  apply (merge_operations_correct example_chunks).
  - unfold example_chunks.
    apply Forall_cons; split; [left; by repeat split|].
    apply Forall_cons; split; [right; repeat split; by eexists|].
    apply Forall_cons; split; [left; by repeat split|].
    apply Forall_cons; split; [right; repeat split; by eexists|].
    constructor.
  - vm_compute. discriminate.
  - vm_compute. repeat constructor.
  - exists 4%Z.
    split; [apply (bool_decide_unpack _); vm_compute; exact I|].
    vm_compute. reflexivity.
Defined.

(** ** What the merge does to its inputs *)

Lemma absorb_keeps_mask (rest : list Chunk) (c0 c0' : Chunk) :
  rfold absorb c0 rest = Ok c0' ->
  tiles_used c0' = tiles_used c0 /\ nchunks c0' = nchunks c0.
Proof.
  revert c0. induction rest as [|c rest IH]; intros c0; simpl.
  { by intros [= ->]. }
  destruct (absorb c0 c) as [c1|e] eqn:Habs; [simpl|done].
  intros Hfold. destruct (IH c1 Hfold) as [-> ->].
  unfold absorb in Habs.
  destruct (data c); [|by injection Habs as ->].
  destruct (data c0), (weights c0), (weights c), (indices c0), (indices c),
    (indptr c0) as [p0|]; simpl in Habs; try done.
  destruct (np.getlast p0); simpl in Habs; [|done].
  destruct (indptr c); simpl in Habs; [|done].
  by injection Habs as <-.
Qed.

Lemma skip_empty_prefix (rest : list Chunk) :
  forall i0 k,
    skip_empty rest i0 = Ok k ->
    i0 <= k /\
    forall j c, j < k - i0 -> rest !! j = Some c -> data c = None.
Proof.
  induction rest as [|c0 rest IH]; intros i0 k Hskip; [done|].
  simpl in Hskip.
  destruct (data c0) as [dc|] eqn:Hdata.
  { injection Hskip as <-. split; [done|]. intros j c Hj. lia. }
  destruct rest as [|c1 rest'].
  { injection Hskip as <-. split; [done|]. intros j c Hj. lia. }
  destruct (IH (S i0) k Hskip) as [Hle Hnone].
  split; [lia|]. intros j c Hj Hc.
  destruct j as [|j]; [by injection Hc as <-|].
  apply (Hnone j c); [lia|done].
Qed.

(** C8, as stated, fails: [concatenate_chunks] leaves the merged arrays
    in the first non-empty input chunk, whose row pointers are no longer
    what they were. *)
Lemma concatenate_chunks_updates_accumulator :
  exists i chunks' c c',
    concatenate_chunks example_chunks = Ok (i, chunks') /\
    example_chunks !! i = Some c /\
    chunks' !! i = Some c' /\
    indptr c = Some [0; 2]%Z /\
    indptr c' = Some [0; 2; 4; 6]%Z.
Proof. do 4 eexists. vm_compute. split_and!; reflexivity. Qed.

(** C8 (amended).  [concatenate_chunks] updates in place the one dict it
    returns and no other.  Whenever it returns, that dict is an input
    chunk with only empty chunks before it, every other input chunk is
    as it was, and the used-tile mask of the returned dict is unchanged
    as well.  For well-formed chunks of which one has data (row pointers
    starting at 0 and small enough for the sums to stay in the range of
    [int64]), it does return, the dict it returns is the first chunk
    with data, and its [data], [weights], [indices], [indptr] and
    [zlist] have become the merged arrays. *)
Theorem concatenate_chunks_frame (chunks : list Chunk) :
  (forall i chunks',
      concatenate_chunks chunks = Ok (i, chunks') ->
      i < length chunks /\
      (forall j c, j < i -> chunks !! j = Some c -> data c = None) /\
      length chunks' = length chunks /\
      (forall j, j <> i -> chunks' !! j = chunks !! j) /\
      (forall c c', chunks !! i = Some c -> chunks' !! i = Some c' ->
         tiles_used c' = tiles_used c /\ nchunks c' = nchunks c)) /\
  (let nonempty := omap chunk_arrays chunks in
   Forall chunk_wf chunks ->
   nonempty <> [] ->
   Forall (fun a => head (m_indptr a) = Some 0%Z) nonempty ->
   row_pointers_in_range nonempty ->
   exists i c0 c0' merged,
     concatenate_chunks chunks = Ok (i, <[i := c0']> chunks) /\
     chunks !! i = Some c0 /\
     is_Some (data c0) /\
     (forall j c, j < i -> chunks !! j = Some c -> data c = None) /\
     merge_spec nonempty = Some merged /\
     data c0' = Some (m_data merged) /\
     weights c0' = Some (m_weights merged) /\
     indices c0' = Some (m_indices merged) /\
     indptr c0' = Some (m_indptr merged) /\
     zlist c0' = m_zlist merged /\
     Forall (fun p => (0 <= p < 2 ^ 63)%Z) (m_indptr merged) /\
     tiles_used c0' = tiles_used c0 /\
     nchunks c0' = nchunks c0).
Proof.
  assert (forall i chunks',
      concatenate_chunks chunks = Ok (i, chunks') ->
      i < length chunks /\
      (forall j c, j < i -> chunks !! j = Some c -> data c = None) /\
      length chunks' = length chunks /\
      (forall j, j <> i -> chunks' !! j = chunks !! j) /\
      (forall c c', chunks !! i = Some c -> chunks' !! i = Some c' ->
         tiles_used c' = tiles_used c /\ nchunks c' = nchunks c)) as Hframe.
  { intros i chunks'. unfold concatenate_chunks.
    destruct (skip_empty chunks 0) as [k|e] eqn:Hskip; [simpl|done].
    unfold np.getitem. destruct (chunks !! k) as [c0|] eqn:Hk; [simpl|done].
    destruct (rfold absorb c0 (drop (k + 1) chunks)) as [c0'|e] eqn:Hfold;
      [simpl|done].
    intros [= <- <-]. split_and!.
    - by eapply lookup_lt_Some.
    - intros j c Hj. apply (proj2 (skip_empty_prefix chunks 0 k Hskip)). lia.
    - apply length_insert.
    - intros j Hj. by apply list_lookup_insert_ne.
    - intros c c' Hc Hc'. rewrite Hk in Hc. injection Hc as <-.
      rewrite list_lookup_insert_eq in Hc' by (by eapply lookup_lt_Some).
      injection Hc' as <-. by eapply absorb_keeps_mask. }
  split; [exact Hframe|].
  intros nonempty Hwf Hne Hheads Hrange.
  destruct nonempty as [|a l] eqn:E; [done|]. clear Hne.
  pose proof (Forall_inv Hheads) as Ha. simpl in Ha.
  assert (m_indptr a <> []) as Hptr by (intros Hnil; by rewrite Hnil in Ha).
  destruct (concatenate_chunks_spec chunks a l Hwf E Hptr)
    as (i & c0 & c0' & Hcc & Hi & Harr0 & Harr & Hused & Hn).
  destruct (Hframe i _ Hcc) as (_ & Hbefore & _).
  apply chunk_arrays_fields in Harr0 as (Hd0 & _).
  apply chunk_arrays_fields in Harr as (Hd & Hw & Hind & Hptr' & Hz).
  exists i, c0, c0', (foldl merge_step a l).
  split_and!;
    first [done | by rewrite Hd0 | by apply merged_row_pointers_in_range].
Qed.

Lemma concatenate_chunks_frame_witness :
  (exists chunks',
      concatenate_chunks example_chunks = Ok (1, chunks') /\
      1 < length example_chunks /\
      (forall j c, j < 1 -> example_chunks !! j = Some c -> data c = None) /\
      length chunks' = length example_chunks /\
      (forall j, j <> 1 -> chunks' !! j = example_chunks !! j) /\
      (forall c c', example_chunks !! 1 = Some c -> chunks' !! 1 = Some c' ->
         tiles_used c' = tiles_used c /\ nchunks c' = nchunks c)) /\
  (exists i c0 c0' merged,
      concatenate_chunks example_chunks = Ok (i, <[i := c0']> example_chunks) /\
      example_chunks !! i = Some c0 /\
      is_Some (data c0) /\
      (forall j c, j < i -> example_chunks !! j = Some c -> data c = None) /\
      merge_spec (omap chunk_arrays example_chunks) = Some merged /\
      data c0' = Some (m_data merged) /\
      weights c0' = Some (m_weights merged) /\
      indices c0' = Some (m_indices merged) /\
      indptr c0' = Some (m_indptr merged) /\
      zlist c0' = m_zlist merged /\
      Forall (fun p => (0 <= p < 2 ^ 63)%Z) (m_indptr merged) /\
      tiles_used c0' = tiles_used c0 /\
      nchunks c0' = nchunks c0).
Proof.
  destruct (concatenate_chunks_frame example_chunks) as [Hframe Hmerged].
  split.
  - eexists. split; [vm_compute; reflexivity|].
    apply Hframe. vm_compute. reflexivity.
  - apply Hmerged.
    + unfold example_chunks.
      apply Forall_cons; split; [left; by repeat split|].
      apply Forall_cons; split; [right; repeat split; by eexists|].
      apply Forall_cons; split; [left; by repeat split|].
      apply Forall_cons; split; [right; repeat split; by eexists|].
      constructor.
    + vm_compute. discriminate.
    + vm_compute. repeat constructor.
    + exists 4%Z.
      split; [apply (bool_decide_unpack _); vm_compute; exact I|].
      vm_compute. reflexivity.
Defined.

(** ** The used-tile mask and the column selection *)

Lemma logical_or_fold (n : nat) (chunks : list Chunk) :
  forall acc : list bool,
    length acc = n ->
    Forall (fun c => length (tiles_used c) = n) chunks ->
    exists used,
      rfold (fun acc result => np.logical_or acc (tiles_used result)) acc chunks
        = Ok used /\
      length used = n /\
      forall i, i < n ->
        used !! i = Some (default false (acc !! i)
                          || existsb (fun c => default false (tiles_used c !! i))
                                     chunks).
Proof.
  induction chunks as [|c chunks IH]; intros acc Hacc Hlen; simpl.
  - exists acc. split_and!; [done|done|].
    intros i Hi. destruct (lookup_lt_is_Some_2 acc i) as [b Hb]; [lia|].
    rewrite Hb. simpl. by rewrite orb_false_r.
  - apply Forall_cons in Hlen as [Hc Hlen].
    unfold np.logical_or at 1. rewrite decide_True by lia. simpl.
    destruct (IH (zip_with orb acc (tiles_used c))) as (used & -> & Hn & Hused);
      [by rewrite length_zip_with; lia|done|].
    exists used. split_and!; [done|done|].
    intros i Hi. rewrite (Hused i Hi), lookup_zip_with.
    destruct (lookup_lt_is_Some_2 acc i) as [b Hb]; [lia|].
    destruct (lookup_lt_is_Some_2 (tiles_used c) i) as [b' Hb']; [lia|].
    rewrite Hb, Hb'. simpl. by rewrite orb_assoc.
Qed.

Lemma mask_select_app {A} (a1 a2 : list A) (m1 m2 : list bool) :
  length a1 = length m1 ->
  np.mask_select (a1 ++ a2) (m1 ++ m2)
  = np.mask_select a1 m1 ++ np.mask_select a2 m2.
Proof.
  intros Hlen. unfold np.mask_select.
  by rewrite zip_with_app, filter_app, map_app.
Qed.

Lemma mask_select_replicate {A} (a : list A) (n : nat) (b : bool) :
  length a = n ->
  np.mask_select a (replicate n b) = if b then a else [].
Proof.
  intros <-. unfold np.mask_select.
  induction a as [|x a IH]; simpl; [by destruct b|].
  rewrite filter_cons. simpl.
  destruct b; simpl in *; by rewrite IH.
Qed.

(** The positions kept by a mask made of one run per tile. *)
Lemma mask_select_tile_runs (ts : list TileSpec) :
  forall (u : nat -> bool) (off : nat) (offs : nat -> nat),
    offs 0 = off ->
    (forall i t, ts !! i = Some t -> offs (S i) = offs i + DOF_per_tile t) ->
    let mask := concat (imap (fun i t => replicate (DOF_per_tile t) (u i)) ts) in
    np.mask_select (seq off (length mask)) mask
    = concat (imap (fun i t => if u i then seq (offs i) (DOF_per_tile t) else [])
                   ts).
Proof.
  induction ts as [|t ts IH]; intros u off offs H0 HS; [done|].
  cbn [imap concat]. rewrite length_app, length_replicate, seq_app.
  rewrite mask_select_app by (by rewrite length_seq, length_replicate).
  rewrite mask_select_replicate by apply length_seq.
  rewrite H0. f_equal.
  apply (IH (u ∘ S) (off + DOF_per_tile t) (offs ∘ S)).
  - simpl. rewrite (HS 0 t); [by rewrite H0|done].
  - intros i t' Hi. simpl. by apply HS.
Qed.

Lemma concat_imap_length (ts : list TileSpec) :
  forall (g : nat -> TileSpec -> list nat) (h : nat -> TileSpec -> nat),
    (forall i t, length (g i t) = h i t) ->
    length (concat (imap g ts)) = sum_list (imap h ts).
Proof.
  induction ts as [|t ts IH]; intros g h Hgh; [done|].
  cbn [imap concat sum_list_with]. rewrite length_app, Hgh.
  rewrite (IH (g ∘ S) (h ∘ S)); [done|].
  intros i t'. apply Hgh.
Qed.

Lemma tile_offset_S (tilespecs : list TileSpec) (i : nat) (t : TileSpec) :
  tilespecs !! i = Some t ->
  tile_offset tilespecs (S i) = tile_offset tilespecs i + DOF_per_tile t.
Proof.
  intros Hi. unfold tile_offset.
  rewrite (take_S_r _ _ t Hi), sum_list_with_app. simpl. lia.
Qed.

(** The pieces of [slice_ind]: one run per tile. *)
Lemma slice_parts (tilespecs : list TileSpec) (used : list bool)
    (ts : list TileSpec) :
  forall k,
    (forall i t, ts !! i = Some t -> tilespecs !! (k + i) = Some t) ->
    k + length ts <= length used ->
    rmap (fun i =>
            u <- np.getitem used i ;;
            t <- np.getitem tilespecs i ;;
            Ok (np.repeat u (DOF_per_tile t)))
         (seq k (length ts))
    = Ok (imap (fun i t =>
                  replicate (DOF_per_tile t) (default false (used !! (k + i))))
               ts).
Proof.
  induction ts as [|t ts IH]; intros k Hts Hlen; [done|].
  simpl in Hlen. cbn [length seq rmap imap].
  destruct (lookup_lt_is_Some_2 used k) as [u Hu]; [lia|].
  assert (tilespecs !! k = Some t) as Ht
    by (rewrite <- (Nat.add_0_r k); by apply Hts).
  unfold np.getitem at 1 2. rewrite Hu, Ht.
  cbn [rbind]. rewrite (IH (S k)); [| |lia].
  - cbn [rbind]. unfold np.repeat. rewrite Nat.add_0_r, Hu. simpl.
    do 2 f_equal. apply imap_ext. intros i t' _. simpl.
    by rewrite Nat.add_succ_r.
  - intros i t' Hi. rewrite Nat.add_succ_l, <- Nat.add_succ_r.
    by apply Hts.
Qed.

Lemma concatenate_Ok {A} (arrays : list (list A)) (r : list A) :
  np.concatenate arrays = Ok r -> r = concat arrays.
Proof. destruct arrays; [done|]. by intros [= <-]. Qed.

Ltac bind_ok H :=
  match type of H with
  | rbind ?e _ = Ok _ =>
      let E := fresh "E" in
      destruct e eqn:E; [cbn [rbind] in H | discriminate H]
  end.

Lemma used_columns_elem_of (tilespecs : list TileSpec) (used : list bool)
    (j : nat) :
  j ∈ used_columns tilespecs used <->
  exists i t,
    tilespecs !! i = Some t /\ used !! i = Some true /\
    tile_offset tilespecs i <= j < tile_offset tilespecs i + DOF_per_tile t.
Proof.
  unfold used_columns. rewrite list_elem_of_In, in_concat. split.
  - intros (cols & Hcols & Hj).
    apply list_elem_of_In, elem_of_lookup_imap in Hcols as (i & t & -> & Hi).
    exists i, t. split; [done|].
    destruct (used !! i) as [[|]|]; simpl in Hj; try done.
    apply list_elem_of_In, elem_of_seq in Hj. split; [done|lia].
  - intros (i & t & Hi & Hu & Hj).
    exists (seq (tile_offset tilespecs i) (DOF_per_tile t)). split.
    + apply list_elem_of_In, elem_of_lookup_imap. exists i, t.
      by rewrite Hu.
    + apply list_elem_of_In, elem_of_seq. lia.
Qed.

(** C5.  When [create_CSR_A] returns, from chunks whose masks have one
    entry per tile: the global mask has one entry per tile and holds at
    a tile exactly when the mask of some chunk does; and, when the
    output is not hdf5, the columns kept in [A] are those of the used
    tiles, in order, each tile with its [DOF_per_tile] columns, so that
    their number is the sum of [DOF_per_tile] over the used tiles and no
    column of an unused tile remains. *)
Theorem create_CSR_A_mask_and_columns {Metadata : Type}
    (write_chunks_to_files : list Chunk -> result Metadata)
    (hdf5 : bool) (tilespecs : list TileSpec) (results : list Chunk)
    (fr : FuncResult Metadata) :
  Forall (fun c => length (tiles_used c) = length tilespecs) results ->
  create_CSR_A write_chunks_to_files hdf5 tilespecs results = Ok fr ->
  let used := fr_tiles_used fr in
  length used = length tilespecs /\
  (forall i, i < length tilespecs ->
     (used !! i = Some true <->
      exists c, c ∈ results /\ tiles_used c !! i = Some true)) /\
  (hdf5 = false ->
   exists A,
     fr_A fr = Some A /\
     columns A = used_columns tilespecs used /\
     length (columns A) = used_DOF tilespecs used /\
     forall j,
       j ∈ columns A <->
       exists i t,
         tilespecs !! i = Some t /\ used !! i = Some true /\
         tile_offset tilespecs i <= j < tile_offset tilespecs i + DOF_per_tile t).
Proof.
  intros Hlen Hrun. unfold create_CSR_A in Hrun.
  destruct results as [|first rest]; [done|].
  apply Forall_cons in Hlen as [Hfirst Hrest].
  cbn [np.getitem lookup list_lookup rbind drop] in Hrun.
  destruct (logical_or_fold (length tilespecs) rest (tiles_used first)
              Hfirst Hrest) as (used & Hfold & Hn & Hused).
  rewrite drop_0, Hfold in Hrun. cbn [rbind] in Hrun.
  assert (forall i, i < length tilespecs ->
            (used !! i = Some true <->
             exists c, c ∈ first :: rest /\ tiles_used c !! i = Some true))
    as Hor.
  { intros i Hi. rewrite (Hused i Hi). split.
    - intros [= Hb]. apply orb_true_iff in Hb as [Hb|Hb].
      + exists first. split; [left|].
        destruct (tiles_used first !! i) as [b|]; simpl in Hb; by subst.
      + apply existsb_exists in Hb as (c & Hc & Hb).
        exists c. split; [right; by apply list_elem_of_In|].
        destruct (tiles_used c !! i) as [b|]; simpl in Hb; by subst.
    - intros (c & Hc & Hb). f_equal. apply orb_true_iff.
      apply elem_of_cons in Hc as [->|Hc].
      + left. by rewrite Hb.
      + right. apply existsb_exists. exists c.
        split; [by apply list_elem_of_In|by rewrite Hb]. }
  destruct hdf5.
  - bind_ok Hrun. injection Hrun as <-. simpl. split_and!; done.
  - do 3 bind_ok Hrun.
    rewrite length_map in Hrun.
    rewrite (slice_parts tilespecs used tilespecs 0) in Hrun;
      [|done|simpl; lia].
    cbn [rbind] in Hrun.
    do 2 bind_ok Hrun. injection Hrun as <-. simpl.
    split_and!; [done|done|]. intros _.
    unfold select_columns in E3.
    destruct (forallb _ _); [|done]. injection E3 as <-.
    apply concatenate_Ok in E2 as ->.
    eexists. split; [reflexivity|]. simpl.
    assert (np.nonzero
              (concat (imap (fun i t =>
                               replicate (DOF_per_tile t)
                                 (default false (used !! i)))
                            tilespecs))
            = used_columns tilespecs used) as Hcols.
    { unfold np.nonzero.
      apply (mask_select_tile_runs tilespecs
               (fun i => default false (used !! i)) 0
               (tile_offset tilespecs)); [done|].
      intros i t. apply tile_offset_S. }
    rewrite Hcols. split_and!; [done| |apply used_columns_elem_of].
    unfold used_columns, used_DOF. apply concat_imap_length.
    intros i t. destruct (default false (used !! i)); [apply length_seq|done].
Qed.

(** Five tiles, the third without match: the mask leaves it out and
    eight columns remain. *)
Lemma create_CSR_A_mask_and_columns_witness :
  exists fr,
    create_CSR_A (fun _ => Ok tt) false example_tilespecs example_results
      = Ok fr /\
    fr_tiles_used fr = [true; true; false; true; true] /\
    length (fr_tiles_used fr) = length example_tilespecs /\
    exists A,
      fr_A fr = Some A /\
      columns A = used_columns example_tilespecs (fr_tiles_used fr) /\
      length (columns A) = used_DOF example_tilespecs (fr_tiles_used fr) /\
      forall j,
        j ∈ columns A <->
        exists i t,
          example_tilespecs !! i = Some t /\
          fr_tiles_used fr !! i = Some true /\
          tile_offset example_tilespecs i <= j
            < tile_offset example_tilespecs i + DOF_per_tile t.
Proof.
  assert (exists fr,
             create_CSR_A (fun _ => Ok tt) false example_tilespecs
               example_results = Ok fr /\
             fr_tiles_used fr = [true; true; false; true; true])
    as (fr & Hfr & Hmask)
    by (eexists; split; vm_compute; reflexivity).
  destruct (create_CSR_A_mask_and_columns (fun _ => Ok tt) false
              example_tilespecs example_results fr)
    as (Hlen & _ & Hcols).
  - repeat constructor.
  - exact Hfr.
  - exists fr. split; [exact Hfr|]. split; [exact Hmask|].
    split; [exact Hlen|]. exact (Hcols eq_refl).
Defined.

(** ** The profile exit of the driver *)

Ltac not_called := apply (bool_decide_unpack _); vm_compute; exact I.

Ltac profile_case :=
  split;
  [ intros t e Heq; first [discriminate Heq | by injection Heq as <- <-]
  | intros t d Heq;
    first [ discriminate Heq
          | injection Heq as <- <-; eexists;
            split; [lazy; reflexivity|];
            split; [first [by left | by right]|];
            split_and!; not_called ] ].

(** C9.  The profile exit as the module has it.  With the profile
    option on, in a run that does not ingest and assembles from the
    database: when the assembly raises, the driver raises the same
    exception; when the assembly returns, the driver ends next, after at
    most the log of the matrix statistics and with neither the solve nor
    the output called, but it ends with [NameError]: the [raise] of
    line 278 names [EMalignerException], which the module neither
    defines nor imports.  The run ends with an error, and not with the
    exception of the requested exit. *)
Theorem profile_exit_raises_NameError (W : World) (args : Args) :
  profile_data_load args = true ->
  ingest_from_file args = "" ->
  assemble_from_file args = "" ->
  (forall t e,
      assembly W args = (t, Raise e) ->
      assemble_and_solve W args = (t, Raise e)) /\
  (forall t d,
      assembly W args = (t, Ok d) ->
      exists t',
        assemble_and_solve W args
          = (t ++ t', Raise (NameError "EMalignerException")) /\
        snd (assemble_and_solve W args)
          <> Raise (EMalignerException "exiting after timing profile") /\
        (t' = [] \/ t' = [CallMatStats]) /\
        (CallSolve ∉ t ++ t') /\
        (CallUpdateTilespecs ∉ t ++ t') /\
        (CallWriteToNewStack ∉ t ++ t')).
Proof.
  intros Hprofile Hingest Hfile.
  assert ((forall t e,
              assembly W args = (t, Raise e) ->
              assemble_and_solve W args = (t, Raise e)) /\
          (forall t d,
              assembly W args = (t, Ok d) ->
              exists t',
                assemble_and_solve W args
                  = (t ++ t', Raise (NameError "EMalignerException")) /\
                (t' = [] \/ t' = [CallMatStats]) /\
                (CallSolve ∉ t ++ t') /\
                (CallUpdateTilespecs ∉ t ++ t') /\
                (CallWriteToNewStack ∉ t ++ t'))) as [Hraise Hreturn].
  { revert Hprofile Hingest Hfile.
    destruct args as [ingest from_file profile mode render]. simpl.
    intros -> -> ->. unfold assemble_and_solve, assembly, assemble_from_db. simpl.
    destruct (build_from_db W) as [has_A|e0].
    - destruct (String.eqb mode "hdf5");
        [destruct (write_reg_and_tforms W) as [[]|e1]|];
        try destruct has_A; profile_case.
    - profile_case. }
  split; [exact Hraise|].
  intros t d Hd. destruct (Hreturn t d Hd) as (t' & Heq & Hrest).
  exists t'. split; [exact Heq|]. split; [|exact Hrest].
  rewrite Heq. cbn [snd]. discriminate.
Qed.

(** The run of [profile_args] in the world where every collaborator
    returns. *)
Lemma profile_exit_raises_NameError_witness :
  exists t',
    assemble_and_solve quiet_world profile_args
      = ([CallAssembleFromDb] ++ t',
         Raise (NameError "EMalignerException")) /\
    snd (assemble_and_solve quiet_world profile_args)
      <> Raise (EMalignerException "exiting after timing profile") /\
    (t' = [] \/ t' = [CallMatStats]) /\
    (CallSolve ∉ [CallAssembleFromDb] ++ t') /\
    (CallUpdateTilespecs ∉ [CallAssembleFromDb] ++ t') /\
    (CallWriteToNewStack ∉ [CallAssembleFromDb] ++ t').
Proof.
  refine (proj2 (profile_exit_raises_NameError quiet_world profile_args
                   eq_refl eq_refl eq_refl) [CallAssembleFromDb] _ _).
  vm_compute. reflexivity.
Defined.

(** * Further properties *)

(** ** The order of a pair *)

(** X1.  For section values whose distance plus one is in the range of
    [int64], the weight of a pair does not depend on the order of its
    two sections: [tilepair_weight z1 z2] and [tilepair_weight z2 z1]
    return the same weight or raise the same exception. *)
Theorem tilepair_weight_symmetric (ma : MatrixAssembly) (z1 z2 : Z) :
  sections_in_range z1 z2 ->
  tilepair_weight z1 z2 ma = tilepair_weight z2 z1 ma.
Proof.
  intros _. unfold tilepair_weight.
  replace (Z.abs (z2 - z1)) with (Z.abs (z1 - z2)) by lia.
  rewrite (Z.eqb_sym z2 z1). done.
Qed.

Lemma tilepair_weight_symmetric_witness :
  sections_in_range 7 8 /\
  tilepair_weight 7 8 weight_policy_example = Ok 0.5%float /\
  tilepair_weight 8 7 weight_policy_example = Ok 0.5%float.
Proof.
  assert (sections_in_range 7 8) as R
    by (unfold sections_in_range, int64; lia).
  split; [exact R|].
  rewrite <- (tilepair_weight_symmetric weight_policy_example 7 8 R).
  split; reflexivity.
Defined.

(** ** The used-tile mask of a chunk *)

(** One iteration of the loop marks the two tiles of a match that has a
    sub-block, and nothing else. *)
Lemma splice_match_used (transform : AlignerTransform) (ma : MatrixAssembly)
    (fac : float) (matches : list PointMatch) (pinds qinds : list nat)
    (st st' : Buffers) (k : nat) :
  splice_match transform ma fac matches pinds qinds st k = Ok st' ->
  match block_of transform ma matches pinds qinds k with
  | None => st' = st
  | Some _ =>
      exists pk qk,
        pinds !! k = Some pk /\ qinds !! k = Some qk /\
        pk < length (b_tiles_used st) /\ qk < length (b_tiles_used st) /\
        b_tiles_used st' = <[qk := true]> (<[pk := true]> (b_tiles_used st))
  end.
Proof.
  unfold splice_match, block_of, np.getitem at 1 2 3.
  destruct (matches !! k) as [m|]; [|done].
  destruct (pinds !! k) as [pk|]; [|done].
  destruct (qinds !! k) as [qk|]; [|done].
  cbn [rbind mbind option_bind].
  destruct (CSR_from_tilepair _ _ _ _ _ _ _) as [sb|]; [|by intros [= <-]].
  unfold np.setitem1 at 1.
  destruct (decide (pk < length (b_tiles_used st))) as [Hp|]; [|done].
  cbn [rbind]. unfold np.setitem1 at 1. rewrite length_insert.
  destruct (decide (qk < length (b_tiles_used st))) as [Hq|]; [|done].
  cbn [rbind]. intros H.
  do 5 bind_ok H. injection H as <-.
  exists pk, qk. done.
Qed.

Lemma assembly_loop_used (transform : AlignerTransform) (ma : MatrixAssembly)
    (fac : float) (matches : list PointMatch) (pinds qinds : list nat)
    (ks : list nat) :
  forall st st',
    rfold (splice_match transform ma fac matches pinds qinds) st ks = Ok st' ->
    length (b_tiles_used st') = length (b_tiles_used st) /\
    forall i,
      b_tiles_used st' !! i = Some true <->
      b_tiles_used st !! i = Some true \/
      exists k sb pk qk,
        k ∈ ks /\
        block_of transform ma matches pinds qinds k = Some sb /\
        pinds !! k = Some pk /\ qinds !! k = Some qk /\ (i = pk \/ i = qk).
Proof.
  induction ks as [|k ks IH]; intros st st' Hfold; simpl in Hfold.
  { injection Hfold as <-. split; [done|]. intros i. split; [by left|].
    intros [?|(k & ? & ? & ? & Hk & _)]; [done|]. by apply elem_of_nil in Hk. }
  destruct (splice_match transform ma fac matches pinds qinds st k)
    as [st1|e] eqn:Hstep; [cbn [rbind] in Hfold|done].
  destruct (IH st1 st' Hfold) as [Hlen Hmarks].
  apply splice_match_used in Hstep.
  destruct (block_of transform ma matches pinds qinds k) as [sb|] eqn:Hblock.
  - destruct Hstep as (pk & qk & Hpk & Hqk & Hp & Hq & Hused).
    split; [by rewrite Hlen, Hused, !length_insert|].
    intros i. rewrite Hmarks, Hused. split.
    + intros [Hi|(k' & sb' & pk' & qk' & Hk' & ?)].
      * destruct (decide (i = qk)) as [->|Hiq].
        { right. exists k, sb, pk, qk. split; [left|]. by split_and!; try right. }
        rewrite list_lookup_insert_ne in Hi by done.
        destruct (decide (i = pk)) as [->|Hip].
        { right. exists k, sb, pk, qk. split; [left|]. by split_and!; try left. }
        rewrite list_lookup_insert_ne in Hi by done. by left.
      * right. exists k', sb', pk', qk'. split; [by right|done].
    + intros [Hi|(k' & sb' & pk' & qk' & Hk' & Hb' & Hpk' & Hqk' & Hi)].
      * left. destruct (decide (i = qk)) as [->|Hiq].
        { rewrite list_lookup_insert_eq; [done|by rewrite length_insert]. }
        rewrite list_lookup_insert_ne by done.
        destruct (decide (i = pk)) as [->|Hip].
        { by rewrite list_lookup_insert_eq. }
        by rewrite list_lookup_insert_ne.
      * apply elem_of_cons in Hk' as [->|Hk'].
        { left. rewrite Hpk in Hpk'. rewrite Hqk in Hqk'.
          injection Hpk' as <-. injection Hqk' as <-.
          destruct Hi as [->| ->].
          - destruct (decide (pk = qk)) as [->|Hne].
            + rewrite list_lookup_insert_eq; [done|by rewrite length_insert].
            + rewrite list_lookup_insert_ne by done.
              by rewrite list_lookup_insert_eq.
          - rewrite list_lookup_insert_eq; [done|by rewrite length_insert]. }
        right. by exists k', sb', pk', qk'.
  - subst st1. split; [done|]. intros i. rewrite Hmarks. split.
    + intros [?|(k' & sb' & pk' & qk' & Hk' & ?)]; [by left|].
      right. exists k', sb', pk', qk'. split; [by right|done].
    + intros [?|(k' & sb' & pk' & qk' & Hk' & Hb' & ?)]; [by left|].
      apply elem_of_cons in Hk' as [->|Hk']; [congruence|].
      right. by exists k', sb', pk', qk'.
Qed.

Lemma worker_mask
    (transform : AlignerTransform) (fetched : list PointMatch)
    (pair : TilePair) (ma : MatrixAssembly) (tile_ids : list string)
    (chunk : Chunk) :
  NoDup tile_ids ->
  calculate_processing_chunk transform fetched pair ma tile_ids = Ok chunk ->
  length (tiles_used chunk) = length tile_ids /\
  forall i,
    tiles_used chunk !! i = Some true <->
    exists m p q sb,
      m ∈ fetched /\
      tile_ids !! p = Some (pId m) /\ tile_ids !! q = Some (qId m) /\
      CSR_from_tilepair transform m p q
        (npts_min ma) (npts_max ma) (choose_random ma) = Some sb /\
      (i = p \/ i = q).
Proof.
  intros Hnodup. unfold calculate_processing_chunk.
  destruct (resolve_matches_spec fetched tile_ids)
    as [[Hnil ->]|(_ & pinds & qinds & -> & Hp & Hq)]; cbn [rbind].
  - intros [= <-]. simpl. split; [apply length_replicate|].
    intros i. split.
    + intros Hi. apply lookup_replicate in Hi as [? _]. done.
    + intros (m & p & q & sb & Hm & Hpm & Hqm & _).
      assert (m ∈ filter (both_in_stack tile_ids) fetched) as Hmf.
      { apply list_elem_of_filter. split; [|done].
        split; by eapply list_elem_of_lookup_2. }
      rewrite Hnil in Hmf. by apply elem_of_nil in Hmf.
  - set (matches := filter (both_in_stack tile_ids) fetched) in *.
    unfold assemble_chunk. intros Hrun.
    do 3 bind_ok Hrun. injection Hrun as <-. cbn [tiles_used].
    apply assembly_loop_used in E1 as [Hlen Hmarks].
    cbn [b_tiles_used new_chunk tiles_used] in Hlen, Hmarks.
    split; [by rewrite Hlen; apply length_replicate|].
    intros i. rewrite Hmarks. split.
    + intros [Hi|(k & sb & pk & qk & _ & Hblock & Hpk & Hqk & Hi)].
      { apply lookup_replicate in Hi as [? _]. done. }
      unfold block_of in Hblock. rewrite Hpk, Hqk in Hblock.
      destruct (matches !! k) as [m|] eqn:Hm; [|done].
      cbn [mbind option_bind] in Hblock.
      destruct (Forall2_lookup_l _ _ _ _ _ Hp Hm) as (pk' & Hpk' & Hpm).
      destruct (Forall2_lookup_l _ _ _ _ _ Hq Hm) as (qk' & Hqk' & Hqm).
      rewrite Hpk in Hpk'. rewrite Hqk in Hqk'. simplify_eq.
      exists m, pk', qk', sb. split_and!; try done.
      apply list_elem_of_lookup_2 in Hm.
      by apply list_elem_of_filter in Hm as [_ ?].
    + intros (m & p & q & sb & Hm & Hpm & Hqm & Hsb & Hi). right.
      assert (m ∈ matches) as Hmf.
      { apply list_elem_of_filter. split; [|done].
        split; by eapply list_elem_of_lookup_2. }
      apply list_elem_of_lookup_1 in Hmf as (k & Hk).
      destruct (Forall2_lookup_l _ _ _ _ _ Hp Hk) as (pk & Hpk & Hpm').
      destruct (Forall2_lookup_l _ _ _ _ _ Hq Hk) as (qk & Hqk & Hqm').
      assert (pk = p) as -> by (by eapply NoDup_lookup).
      assert (qk = q) as -> by (by eapply NoDup_lookup).
      exists k, sb, p, q. split_and!; try done.
      * apply elem_of_seq. apply lookup_lt_Some in Hk. unfold np.arange. lia.
      * unfold block_of. rewrite Hk, Hpk, Hqk. done.
Qed.

(** X2.  When the tile ids are distinct, the mask of a chunk a worker
    returns has one entry per tile and marks exactly the tiles of the
    fetched matches that gave a sub-block: tile [i] is marked when and
    only when it is the source or the target tile of a fetched match,
    both tiles of which are in the stack, for which [CSR_from_tilepair]
    answered a sub-block. *)
Theorem calculate_processing_chunk_tiles_used
    (transform : AlignerTransform) (fetched : list PointMatch)
    (pair : TilePair) (ma : MatrixAssembly) (tile_ids : list string)
    (chunk : Chunk) :
  NoDup tile_ids ->
  calculate_processing_chunk transform fetched pair ma tile_ids = Ok chunk ->
  length (tiles_used chunk) = length tile_ids /\
  forall i,
    tiles_used chunk !! i = Some true <->
    exists m p q sb,
      m ∈ fetched /\
      tile_ids !! p = Some (pId m) /\ tile_ids !! q = Some (qId m) /\
      CSR_from_tilepair transform m p q
        (npts_min ma) (npts_max ma) (choose_random ma) = Some sb /\
      (i = p \/ i = q).
Proof. apply worker_mask. Qed.

Lemma calculate_processing_chunk_tiles_used_witness :
  exists chunk,
    calculate_processing_chunk translation example_fetched example_pair
      example_assembly example_tile_ids = Ok chunk /\
    tiles_used chunk = [true; true; true] /\
    length (tiles_used chunk) = length example_tile_ids /\
    forall i,
      tiles_used chunk !! i = Some true <->
      exists m p q sb,
        m ∈ example_fetched /\
        example_tile_ids !! p = Some (pId m) /\
        example_tile_ids !! q = Some (qId m) /\
        CSR_from_tilepair translation m p q
          (npts_min example_assembly) (npts_max example_assembly)
          (choose_random example_assembly) = Some sb /\
        (i = p \/ i = q).
Proof.
  eexists. split; [vm_compute; reflexivity|]. split; [reflexivity|].
  apply (calculate_processing_chunk_tiles_used translation example_fetched
           example_pair example_assembly example_tile_ids).
  - apply (bool_decide_unpack _). vm_compute. exact I.
  - vm_compute. reflexivity.
Defined.

(** ** A pair the weight table does not list *)

Lemma assemble_chunk_weight_error (transform : AlignerTransform)
    (pair : TilePair) (ma : MatrixAssembly) (ntiles : nat)
    (matches : list PointMatch) (pinds qinds : list nat) (e : exn) :
  tilepair_weight (z1 pair) (z2 pair) ma = Raise e ->
  assemble_chunk transform pair ma ntiles matches pinds qinds = Raise e.
Proof.
  intros Hw. unfold assemble_chunk, np.setitem1, np.zeros.
  rewrite decide_True by (rewrite length_replicate; lia).
  cbn [rbind]. by rewrite Hw.
Qed.

(** X3.  With an explicit weight table that does not list the
    distance of the pair (the two section values being such that their
    distance is in the range of [int64]), the worker raises
    [ValueError] when some fetched match has both its tiles in the
    stack, and returns the empty chunk otherwise: the weight is looked
    up only after the matches are filtered. *)
Theorem calculate_processing_chunk_weight_error
    (transform : AlignerTransform) (fetched : list PointMatch)
    (pair : TilePair) (ma : MatrixAssembly) (tile_ids : list string)
    (table : list float) :
  explicit_weight_by_depth ma = Some table ->
  sections_in_range (z1 pair) (z2 pair) ->
  Z.abs (z1 pair - z2 pair) ∉ depth ma ->
  calculate_processing_chunk transform fetched pair ma tile_ids =
    if decide (Exists (both_in_stack tile_ids) fetched)
    then Raise ValueError
    else Ok (new_chunk (length tile_ids)).
Proof.
  intros Ht _ Hd. unfold calculate_processing_chunk.
  assert (tilepair_weight (z1 pair) (z2 pair) ma = Raise ValueError) as Hw.
  { unfold tilepair_weight. rewrite Ht. by rewrite list_index_absent. }
  destruct (resolve_matches_spec fetched tile_ids)
    as [[Hnil ->]|(Hsurv & pinds & qinds & -> & _)]; cbn [rbind].
  - rewrite decide_False; [done|].
    intros Hex. apply Exists_exists in Hex as (m & Hm & Hin).
    assert (m ∈ filter (both_in_stack tile_ids) fetched) as Hmf
      by (by apply list_elem_of_filter).
    rewrite Hnil in Hmf. by apply elem_of_nil in Hmf.
  - rewrite decide_True.
    + by apply assemble_chunk_weight_error.
    + destruct (filter (both_in_stack tile_ids) fetched) as [|m l] eqn:E; [done|].
      assert (m ∈ filter (both_in_stack tile_ids) fetched) as Hm
        by (rewrite E; left).
      apply list_elem_of_filter in Hm as [Hin Hm].
      apply Exists_exists. by exists m.
Qed.

Lemma calculate_processing_chunk_weight_error_witness :
  calculate_processing_chunk translation example_fetched example_far_pair
    weight_policy_example example_tile_ids = Raise ValueError /\
  calculate_processing_chunk translation example_fetched example_far_pair
    weight_policy_example ["t7"; "t8"] = Ok (new_chunk 2).
Proof.
  split.
  - rewrite (calculate_processing_chunk_weight_error translation
               example_fetched example_far_pair weight_policy_example
               example_tile_ids [1%float; 0.5%float]).
    + reflexivity.
    + reflexivity.
    + unfold sections_in_range, int64. simpl. lia.
    + apply (bool_decide_unpack _). vm_compute. exact I.
  - rewrite (calculate_processing_chunk_weight_error translation
               example_fetched example_far_pair weight_policy_example
               ["t7"; "t8"] [1%float; 0.5%float]).
    + reflexivity.
    + reflexivity.
    + unfold sections_in_range, int64. simpl. lia.
    + apply (bool_decide_unpack _). vm_compute. exact I.
Defined.

(** ** Merging chunks none of which has data *)

Lemma skip_empty_all_empty (rest : list Chunk) (i0 : nat) :
  rest <> [] ->
  Forall (fun c => data c = None) rest ->
  skip_empty rest i0 = Ok (i0 + length rest - 1).
Proof.
  revert i0. induction rest as [|c rest IH]; intros i0 Hne Hall; [done|].
  apply Forall_cons in Hall as [Hc Hall]. simpl. rewrite Hc.
  destruct rest as [|c' rest'].
  - simpl. f_equal. lia.
  - rewrite IH; [|done|done]. simpl. f_equal. lia.
Qed.

(** X4.  When no chunk has data, [concatenate_chunks] returns the
    last chunk and changes none; on an empty list it raises
    [IndexError]. *)
Theorem concatenate_chunks_without_data (chunks : list Chunk) :
  Forall (fun c => data c = None) chunks ->
  concatenate_chunks chunks =
    match chunks with
    | [] => Raise IndexError
    | _ :: _ => Ok (length chunks - 1, chunks)
    end.
Proof.
  intros Hall. destruct chunks as [|c l] eqn:E; [done|]. rewrite <- E in *.
  assert (chunks <> []) as Hne by (by rewrite E). clear E.
  unfold concatenate_chunks.
  rewrite skip_empty_all_empty by done. cbn [rbind].
  assert (length chunks - 1 < length chunks) as Hlt.
  { destruct chunks; [done|]. simpl. lia. }
  destruct (lookup_lt_is_Some_2 chunks _ Hlt) as [c0 Hc0].
  unfold np.getitem. simpl. rewrite Hc0. cbn [rbind].
  rewrite drop_ge by lia. simpl. by rewrite list_insert_id.
Qed.

Lemma concatenate_chunks_without_data_witness :
  concatenate_chunks [new_chunk 3; new_chunk 3]
  = Ok (1, [new_chunk 3; new_chunk 3]).
Proof.
  apply (concatenate_chunks_without_data [new_chunk 3; new_chunk 3]).
  repeat constructor.
Defined.

Lemma concatenate_results_without_data (results : list Chunk) :
  Forall (fun c => data c = None) results ->
  concatenate_results results = Raise ValueError.
Proof.
  intros Hall. unfold concatenate_results, select_field.
  assert (filter (fun c => is_Some (data c)) results = []) as ->; [|done].
  induction Hall as [|c l Hc _ IH]; [done|].
  rewrite filter_cons_False; [done|]. rewrite Hc. by intros [? ?].
Qed.

Lemma no_arrays_no_data (chunks : list Chunk) :
  Forall chunk_wf chunks ->
  omap chunk_arrays chunks = [] ->
  Forall (fun c => data c = None) chunks.
Proof.
  induction 1 as [|c l Hc _ IH]; intros Hnone; [done|].
  cbn [omap list_omap] in Hnone.
  destruct (data c) as [dc|] eqn:Hdata.
  - destruct (chunk_arrays_nonempty c Hc) as [a Ha]; [by rewrite Hdata|].
    by rewrite Ha in Hnone.
  - constructor; [done|]. apply IH.
    by rewrite (chunk_arrays_empty c Hc Hdata) in Hnone.
Qed.

Lemma logical_or_fold_false (n : nat) (chunks : list Chunk) :
  Forall (fun c => tiles_used c = replicate n false) chunks ->
  rfold (fun acc result => np.logical_or acc (tiles_used result))
        (replicate n false) chunks
  = Ok (replicate n false).
Proof.
  induction 1 as [|c l Hc _ IH]; [done|].
  simpl. unfold np.logical_or at 1. rewrite Hc.
  rewrite decide_True by done. cbn [rbind].
  assert (zip_with orb (replicate n false) (replicate n false)
          = replicate n false) as ->; [|done].
  clear. induction n as [|n IH]; [done|]. simpl. by rewrite IH.
Qed.

Lemma mask_select_none {A} (a : list A) (n : nat) :
  np.mask_select a (replicate n false) = [].
Proof.
  unfold np.mask_select. revert a. induction n as [|n IH]; intros [|x a]; try done.
  simpl. rewrite filter_cons_False by done. apply IH.
Qed.

Lemma used_tiles_field_none {A} (field : TileSpec -> A)
    (tile_ids : list string) (tilespecs : list TileSpec) :
  used_tiles_field field tile_ids (replicate (length tile_ids) false) tilespecs
  = Ok [].
Proof.
  induction tilespecs as [|t rest IH]; [done|].
  simpl. unfold np.getmask. rewrite decide_True by apply length_replicate.
  cbn [rbind]. rewrite IH. cbn [rbind].
  by rewrite mask_select_none.
Qed.

(** X5.  Without hdf5 output, [create_CSR_A] does not return a system
    when no chunk has data: it raises.  It raises [IndexError] when there
    is no chunk at all, and [ValueError] when every chunk is the empty
    chunk of a worker that found no match. *)
Theorem create_CSR_A_without_data {Metadata : Type}
    (write_chunks_to_files : list Chunk -> result Metadata)
    (tilespecs : list TileSpec) (results : list Chunk) :
  Forall (fun c => data c = None) results ->
  (exists e,
      create_CSR_A write_chunks_to_files false tilespecs results = Raise e) /\
  (results = [] ->
   create_CSR_A write_chunks_to_files false tilespecs results
     = Raise IndexError) /\
  (results <> [] ->
   Forall (fun c => c = new_chunk (length tilespecs)) results ->
   create_CSR_A write_chunks_to_files false tilespecs results
     = Raise ValueError).
Proof.
  intros Hall. split_and!.
  - unfold create_CSR_A.
    destruct (np.getitem results 0) as [first|e]; [|by eexists].
    cbn [rbind].
    destruct (rfold _ _ _) as [used|e]; [|by eexists]. cbn [rbind].
    destruct (rbind (used_tiles_field to_solve_vec _ _ _) _) as [x|e];
      [|by eexists].
    cbn [rbind].
    destruct (rbind (used_tiles_field regularization _ _ _) _) as [reg|e];
      [|by eexists].
    cbn [rbind]. rewrite concatenate_results_without_data by done.
    by eexists.
  - by intros ->.
  - intros Hne Hnew. unfold create_CSR_A.
    destruct results as [|first rest]; [done|].
    apply Forall_cons in Hnew as [-> Hrest].
    cbn [np.getitem lookup list_lookup rbind drop]. rewrite drop_0.
    cbn [new_chunk tiles_used]. unfold np.zeros.
    rewrite logical_or_fold_false.
    + cbn [rbind].
      replace (length tilespecs) with (length (map tileId tilespecs))
        by apply length_map.
      by rewrite used_tiles_field_none.
    + eapply Forall_impl; [exact Hrest|]. by intros c ->.
Qed.

Lemma create_CSR_A_without_data_witness :
  create_CSR_A (fun _ => Ok tt) false example_tilespecs
    [new_chunk 5; new_chunk 5] = Raise ValueError.
Proof.
  apply (create_CSR_A_without_data (fun _ => Ok tt) example_tilespecs
           [new_chunk 5; new_chunk 5]).
  - repeat constructor.
  - discriminate.
  - repeat constructor.
Defined.

(** ** The system [create_CSR_A] returns *)

(** What a call that returns, without hdf5 output, has computed. *)
Lemma create_CSR_A_returned {Metadata : Type}
    (write_chunks_to_files : list Chunk -> result Metadata)
    (tilespecs : list TileSpec) (results : list Chunk)
    (fr : FuncResult Metadata) :
  Forall (fun c => length (tiles_used c) = length tilespecs) results ->
  create_CSR_A write_chunks_to_files false tilespecs results = Ok fr ->
  exists first used xs regs merged,
    results !! 0 = Some first /\
    rfold (fun acc result => np.logical_or acc (tiles_used result))
      (tiles_used first) (drop 1 results) = Ok used /\
    length used = length tilespecs /\
    used_tiles_field to_solve_vec (map tileId tilespecs) used tilespecs = Ok xs /\
    used_tiles_field regularization (map tileId tilespecs) used tilespecs
      = Ok regs /\
    concatenate_results results = Ok merged /\
    fr = {| fr_A := Some {| base := {| csr_data := m_data merged;
                                       csr_indices := m_indices merged;
                                       csr_indptr := m_indptr merged |};
                            columns := used_columns tilespecs used |};
            fr_x := Some (concat xs);
            fr_reg := Some (concat regs);
            fr_weights := Some (m_weights merged);
            fr_tiles_used := used;
            fr_metadata := None |}.
Proof.
  intros Hlen Hrun. unfold create_CSR_A in Hrun.
  destruct results as [|first rest]; [done|].
  apply Forall_cons in Hlen as [Hfirst Hrest].
  cbn [np.getitem lookup list_lookup rbind drop] in Hrun.
  destruct (logical_or_fold (length tilespecs) rest (tiles_used first)
              Hfirst Hrest) as (used & Hfold & Hn & _).
  rewrite drop_0, Hfold in Hrun. cbn [rbind] in Hrun.
  destruct (used_tiles_field to_solve_vec _ _ _) as [xs|] eqn:Hxs;
    [cbn [rbind] in Hrun|done].
  bind_ok Hrun. apply concatenate_Ok in E as ->.
  destruct (used_tiles_field regularization _ _ _) as [regs|] eqn:Hregs;
    [cbn [rbind] in Hrun|done].
  bind_ok Hrun. apply concatenate_Ok in E as ->.
  bind_ok Hrun.
  rewrite length_map in Hrun.
  rewrite (slice_parts tilespecs used tilespecs 0) in Hrun;
    [|done|simpl; lia].
  cbn [rbind] in Hrun.
  do 2 bind_ok Hrun. injection Hrun as <-.
  unfold select_columns in E1.
  destruct (forallb _ _); [|done]. injection E1 as <-.
  apply concatenate_Ok in E0 as ->.
  exists first, used, xs, regs, a. split_and!; try done.
  do 2 f_equal. f_equal.
  unfold np.nonzero.
  apply (mask_select_tile_runs tilespecs
           (fun i => default false (used !! i)) 0
           (tile_offset tilespecs)); [done|].
  intros i t. apply tile_offset_S.
Qed.

Lemma elem_of_mask_select {A} (a : list A) (mask : list bool) (x : A) :
  x ∈ np.mask_select a mask <->
  exists j, a !! j = Some x /\ mask !! j = Some true.
Proof.
  unfold np.mask_select. revert mask.
  induction a as [|y a IH]; intros [|b mask]; simpl.
  - split; [by intros ?%elem_of_nil|by intros (j & ? & _)].
  - split; [by intros ?%elem_of_nil|by intros (j & ? & _)].
  - split; [by intros ?%elem_of_nil|by intros (j & _ & ?)].
  - destruct b.
    + rewrite filter_cons_True by done. simpl. rewrite elem_of_cons, IH.
      split.
      * intros [->|(j & ? & ?)]; [by exists 0|by exists (S j)].
      * intros ([|j] & Hj & Hm); simpl in *; [left; congruence|right; eauto].
    + rewrite filter_cons_False by done. rewrite IH. split.
      * intros (j & ? & ?). by exists (S j).
      * intros ([|j] & Hj & Hm); simpl in *; [done|eauto].
Qed.

(** With distinct tile ids, the selection by id of the comprehension
    is the selection by position. *)
Lemma used_tiles_field_by_position {A} (field : TileSpec -> A)
    (tilespecs : list TileSpec) (used : list bool) (ts : list TileSpec) :
  NoDup (map tileId tilespecs) ->
  length used = length tilespecs ->
  forall k,
    (forall i t, ts !! i = Some t -> tilespecs !! (k + i) = Some t) ->
    used_tiles_field field (map tileId tilespecs) used ts
    = Ok (map field (np.mask_select ts (drop k used))).
Proof.
  intros Hnodup Hlen.
  induction ts as [|t ts IH]; intros k Hts.
  { done. }
  cbn [used_tiles_field]. unfold np.getmask.
  rewrite decide_True by (by rewrite length_map).
  cbn [rbind]. rewrite (IH (S k)).
  2:{ intros i t' Hi. rewrite Nat.add_succ_l, <- Nat.add_succ_r. by apply Hts. }
  cbn [rbind].
  assert (tilespecs !! k = Some t) as Ht
    by (rewrite <- (Nat.add_0_r k); by apply Hts).
  destruct (lookup_lt_is_Some_2 used k) as [b Hb].
  { apply lookup_lt_Some in Ht. lia. }
  rewrite (drop_S _ _ _ Hb).
  assert (existsb (String.eqb (tileId t))
            (np.mask_select (map tileId tilespecs) used) = b) as ->.
  { apply eq_true_iff_eq. rewrite existsb_eqb_elem_of, elem_of_mask_select.
    split.
    - intros (j & Hj & Hm).
      assert (j = k) as ->.
      { eapply NoDup_lookup; [exact Hnodup|exact Hj|].
        by rewrite list_lookup_fmap, Ht. }
      congruence.
    - intros ->. exists k. by rewrite list_lookup_fmap, Ht. }
  f_equal. unfold np.mask_select. simpl.
  destruct b.
  - by rewrite filter_cons_True.
  - by rewrite filter_cons_False.
Qed.

Lemma used_vectors_length (field : TileSpec -> list float) (ts : list TileSpec) :
  Forall (fun t => length (field t) = DOF_per_tile t) ts ->
  forall (used : list bool) (u : nat -> bool),
    (forall i, u i = default false (used !! i)) ->
    length (concat (map field (np.mask_select ts used)))
    = sum_list (imap (fun i t => if u i then DOF_per_tile t else 0) ts).
Proof.
  unfold np.mask_select.
  induction 1 as [|t ts Ht _ IH]; intros used u Hu; [done|].
  cbn [imap sum_list_with].
  trans ((if u 0 then DOF_per_tile t else 0)
         + length (concat (map field
                     (map fst (filter (fun xb : TileSpec * bool => xb.2 = true)
                                      (zip ts (tail used))))))).
  - rewrite (Hu 0). destruct used as [|b used]; simpl.
    + by rewrite zip_with_nil_r.
    + destruct b.
      * rewrite filter_cons_True by done. simpl. rewrite length_app. lia.
      * by rewrite filter_cons_False.
  - f_equal. apply (IH (tail used) (u ∘ S)).
    intros i. simpl. rewrite (Hu (S i)). by destruct used.
Qed.

(** X6.  When the tile ids are distinct and [create_CSR_A] returns,
    without hdf5 output: the unknowns [x] and the regularization are the
    concatenations of the vectors of the used tiles, in the order of the
    tiles; each has one entry per column of [A] when every tile gives
    one entry per degree of freedom. *)
Theorem create_CSR_A_unknowns {Metadata : Type}
    (write_chunks_to_files : list Chunk -> result Metadata)
    (tilespecs : list TileSpec) (results : list Chunk)
    (fr : FuncResult Metadata) :
  NoDup (map tileId tilespecs) ->
  Forall (fun c => length (tiles_used c) = length tilespecs) results ->
  create_CSR_A write_chunks_to_files false tilespecs results = Ok fr ->
  let used_tiles := np.mask_select tilespecs (fr_tiles_used fr) in
  exists A x reg,
    fr_A fr = Some A /\ fr_x fr = Some x /\ fr_reg fr = Some reg /\
    x = concat (map to_solve_vec used_tiles) /\
    reg = concat (map regularization used_tiles) /\
    (Forall (fun t => length (to_solve_vec t) = DOF_per_tile t) tilespecs ->
     length x = length (columns A)) /\
    (Forall (fun t => length (regularization t) = DOF_per_tile t) tilespecs ->
     length reg = length (columns A)).
Proof.
  intros Hnodup Hlen Hrun.
  destruct (create_CSR_A_returned _ _ _ _ Hlen Hrun)
    as (first & used & xs & regs & merged & _ & _ & Hn & Hxs & Hregs & _ & ->).
  rewrite (used_tiles_field_by_position _ tilespecs used tilespecs Hnodup Hn 0)
    in Hxs by done.
  rewrite (used_tiles_field_by_position _ tilespecs used tilespecs Hnodup Hn 0)
    in Hregs by done.
  rewrite drop_0 in Hxs, Hregs.
  injection Hxs as <-. injection Hregs as <-. simpl.
  eexists _, _, _. split_and!; try done.
  - intros Hdof. rewrite (used_vectors_length _ _ Hdof used
                            (fun i => default false (used !! i))) by done.
    unfold used_columns. symmetry. apply concat_imap_length.
    intros i t. destruct (default false (used !! i)); [apply length_seq|done].
  - intros Hdof. rewrite (used_vectors_length _ _ Hdof used
                            (fun i => default false (used !! i))) by done.
    unfold used_columns. symmetry. apply concat_imap_length.
    intros i t. destruct (default false (used !! i)); [apply length_seq|done].
Qed.

Lemma create_CSR_A_unknowns_witness :
  exists fr A x reg,
    create_CSR_A (fun _ => Ok tt) false example_tilespecs example_results
      = Ok fr /\
    fr_A fr = Some A /\ fr_x fr = Some x /\ fr_reg fr = Some reg /\
    x = concat (map to_solve_vec
                  (np.mask_select example_tilespecs (fr_tiles_used fr))) /\
    reg = concat (map regularization
                    (np.mask_select example_tilespecs (fr_tiles_used fr))) /\
    length x = length (columns A) /\
    length reg = length (columns A).
Proof.
  assert (exists fr,
             create_CSR_A (fun _ => Ok tt) false example_tilespecs
               example_results = Ok fr) as [fr Hfr]
    by (eexists; vm_compute; reflexivity).
  destruct (create_CSR_A_unknowns (fun _ => Ok tt) example_tilespecs
              example_results fr)
    as (A & x & reg & HA & Hx & Hreg & Hxs & Hregs & Hlx & Hlreg).
  - apply (bool_decide_unpack _). vm_compute. exact I.
  - repeat constructor.
  - exact Hfr.
  - exists fr, A, x, reg. split_and!; try done.
    + apply Hlx. repeat constructor.
    + apply Hlreg. repeat constructor.
Defined.

(** ** From the workers' chunks to the global matrix *)

Lemma row_pointers_tail (nnz r : nat) :
  tail (row_pointers nnz r)
  = map (fun j => Z.of_nat ((j + 1) * nnz)) (seq 0 r).
Proof.
  unfold row_pointers. rewrite Nat.add_1_r. cbn [seq map tail].
  rewrite <- fmap_S_seq, map_map.
  apply map_ext. intros j. f_equal. lia.
Qed.

Lemma merge_step_uniform (nnz : nat) (acc c : Merged) (r r' : nat) :
  uniform_rows nnz acc r ->
  uniform_rows nnz c r' ->
  uniform_rows nnz (merge_step acc c) (r + r').
Proof.
  intros (Hp & Hd & Hi & Hw) (Hp' & Hd' & Hi' & Hw').
  unfold uniform_rows. simpl. rewrite !length_app.
  split_and!; [|lia|lia|lia].
  rewrite Hp, Hp', row_pointers_last, row_pointers_tail. simpl.
  apply row_pointers_extend.
Qed.

Lemma foldl_merge_uniform (nnz : nat) (l : list Merged) :
  forall (acc : Merged) (r : nat),
    uniform_rows nnz acc r ->
    Forall (fun a => exists r', uniform_rows nnz a r') l ->
    exists r', uniform_rows nnz (foldl merge_step acc l) r'.
Proof.
  induction l as [|c l IH]; intros acc r Hacc Hl; simpl; [by exists r|].
  apply Forall_cons in Hl as [[r' Hc] Hl].
  apply (IH _ (r + r')); [by apply merge_step_uniform|done].
Qed.

(** A chunk a worker returns is the empty chunk or holds rows of
    [nnz_per_row] non-zeros. *)
Lemma worker_chunk_shape (transform : AlignerTransform)
    (fetched : list PointMatch) (pair : TilePair) (ma : MatrixAssembly)
    (tile_ids : list string) (chunk : Chunk) :
  (forall m pk qk sb,
      CSR_from_tilepair transform m pk qk
        (npts_min ma) (npts_max ma) (choose_random ma) = Some sb ->
      subblock_ok transform sb) ->
  calculate_processing_chunk transform fetched pair ma tile_ids = Ok chunk ->
  chunk_wf chunk /\
  forall a, chunk_arrays chunk = Some a ->
    exists r, uniform_rows (nnz_per_row transform) a r.
Proof.
  intros Hok. unfold calculate_processing_chunk.
  destruct (resolve_matches_spec fetched tile_ids)
    as [[_ ->]|(_ & pinds & qinds & -> & Hp & Hq)]; cbn [rbind].
  { intros [= <-]. split; [by left|done]. }
  set (matches := filter (both_in_stack tile_ids) fetched) in *.
  assert (length pinds = length matches) as Hlp
    by (symmetry; by eapply Forall2_length).
  assert (length qinds = length matches) as Hlq
    by (symmetry; by eapply Forall2_length).
  assert (Forall (fun i => i < length tile_ids) pinds) as Hbp.
  { eapply Forall2_Forall_r; [exact Hp|].
    apply Forall_forall. intros m _ i Hi. by eapply lookup_lt_Some. }
  assert (Forall (fun i => i < length tile_ids) qinds) as Hbq.
  { eapply Forall2_Forall_r; [exact Hq|].
    apply Forall_forall. intros m _ i Hi. by eapply lookup_lt_Some. }
  pose proof (assemble_chunk_spec transform pair ma (length tile_ids)
                matches pinds qinds Hok Hlp Hlq Hbp Hbq) as Hasm.
  simpl in Hasm.
  set (blocks := spliced_blocks transform ma matches pinds qinds) in *.
  assert (Forall (subblock_ok transform) blocks) as Hblocks
    by apply (blocks_ok transform ma matches pinds qinds Hok).
  intros Hchunk.
  destruct (tilepair_weight (z1 pair) (z2 pair) ma) as [fac|e]; [|congruence].
  destruct (decide (block_rows blocks <= _)) as [Hfit|Hover].
  - destruct Hasm as (used & _ & Hasm).
    rewrite Hasm in Hchunk. injection Hchunk as <-.
    split; [right; simpl; by split_and!; eexists|].
    intros a [= <-]. exists (block_rows blocks). unfold uniform_rows. simpl.
    split_and!; [done| | |apply block_weights_length].
    + by apply block_data_length.
    + by apply block_indices_length.
  - destruct Hasm as (e & Hasm). congruence.
Qed.

(** X7.  Under the contract of the transform model, the three arrays
    that [create_CSR_A] passes to [csr_matrix((data, indices, indptr))]
    at lines 550-553, built from the chunks the workers returned (their
    row pointers small enough for the sums to stay in the range of
    [int64]), have [nnz_per_row] non-zeros in every row: row pointer
    [j] is [j * nnz_per_row], values and column indices have [nrows *
    nnz_per_row] entries; and the weights returned have one entry per
    row.  These are the arrays of the matrix before the column
    selection [A[:, slice_ind]] of line 562, [base A] of the matrix [A]
    returned; the rows of the matrix after the selection are not
    covered. *)
Theorem create_CSR_A_uniform_rows {Metadata : Type}
    (write_chunks_to_files : list Chunk -> result Metadata)
    (transform : AlignerTransform) (ma : MatrixAssembly)
    (get_matches : TilePair -> list PointMatch)
    (tilespecs : list TileSpec) (pairs : list TilePair)
    (results : list Chunk) (fr : FuncResult Metadata) :
  (forall m pk qk sb,
      CSR_from_tilepair transform m pk qk
        (npts_min ma) (npts_max ma) (choose_random ma) = Some sb ->
      subblock_ok transform sb) ->
  pool_returned transform ma get_matches tilespecs pairs results ->
  row_pointers_in_range (omap chunk_arrays results) ->
  create_CSR_A write_chunks_to_files false tilespecs results = Ok fr ->
  exists A w nrows,
    fr_A fr = Some A /\ fr_weights fr = Some w /\
    csr_indptr (base A) = row_pointers (nnz_per_row transform) nrows /\
    length (csr_data (base A)) = nrows * nnz_per_row transform /\
    length (csr_indices (base A)) = nrows * nnz_per_row transform /\
    length w = nrows.
Proof.
  intros Hok Hpool _ Hrun.
  assert (Forall (fun c =>
            chunk_wf c /\
            length (tiles_used c) = length tilespecs /\
            forall a, chunk_arrays c = Some a ->
              exists r, uniform_rows (nnz_per_row transform) a r) results)
    as Hshape.
  { apply Forall_forall. intros c Hc.
    apply list_elem_of_lookup_1 in Hc as (k & Hk).
    destruct (Forall2_lookup_r _ _ _ _ _ Hpool Hk) as (pair & _ & Hret).
    destruct (worker_chunk_shape _ _ _ _ _ _ Hok Hret) as [Hwf Hrows].
    split_and!; [done| |done].
    unfold calculate_processing_chunk in Hret.
    destruct (resolve_matches_spec (get_matches pair) (map tileId tilespecs))
      as [[_ Hres]|(_ & pinds & qinds & Hres & _)];
      rewrite Hres in Hret; cbn [rbind] in Hret.
    - injection Hret as <-. simpl. unfold np.zeros.
      by rewrite length_replicate, length_map.
    - unfold assemble_chunk in Hret. do 3 bind_ok Hret.
      injection Hret as <-. simpl.
      apply assembly_loop_used in E1 as [-> _]. simpl. unfold np.zeros.
      by rewrite length_replicate, length_map. }
  assert (Forall (fun c => length (tiles_used c) = length tilespecs) results)
    as Hlen
    by (eapply Forall_impl; [exact Hshape|]; by intros c (_ & ? & _)).
  assert (Forall chunk_wf results) as Hwf
    by (eapply Forall_impl; [exact Hshape|]; by intros c (? & _)).
  destruct (create_CSR_A_returned _ _ _ _ Hlen Hrun)
    as (first & used & xs & regs & merged & _ & _ & _ & _ & _ & Hmerged & ->).
  assert (Forall (fun a => exists r, uniform_rows (nnz_per_row transform) a r)
            (omap chunk_arrays results)) as Hrows.
  { apply Forall_forall. intros a Ha.
    apply list_elem_of_omap in Ha as (c & Hc & Ha).
    pose proof (proj1 (Forall_forall _ _) Hshape c Hc) as (_ & _ & Hr).
    by apply Hr. }
  destruct (omap chunk_arrays results) as [|a l] eqn:Harrays.
  { rewrite concatenate_results_without_data in Hmerged; [done|].
    by apply no_arrays_no_data. }
  apply Forall_cons in Hrows as [[r Ha] Hl].
  rewrite (concatenate_results_spec results a l Hwf Harrays) in Hmerged.
  - injection Hmerged as <-.
    destruct (foldl_merge_uniform _ l a r Ha Hl) as (nrows & Hp & Hd & Hi & Hw).
    eexists _, _, nrows. simpl. by split_and!.
  - apply Forall_cons. split.
    + destruct Ha as [-> _]. rewrite head_lookup. apply row_pointers_head.
    + eapply Forall_impl; [exact Hl|]. intros c [r' [-> _]].
      rewrite head_lookup. apply row_pointers_head.
Qed.

Lemma create_CSR_A_uniform_rows_witness :
  exists chunk fr A w nrows,
    calculate_processing_chunk translation example_fetched example_pair
      example_assembly (map tileId example_stack) = Ok chunk /\
    create_CSR_A (fun _ => Ok tt) false example_stack [chunk] = Ok fr /\
    fr_A fr = Some A /\ fr_weights fr = Some w /\
    csr_indptr (base A) = row_pointers (nnz_per_row translation) nrows /\
    length (csr_data (base A)) = nrows * nnz_per_row translation /\
    length (csr_indices (base A)) = nrows * nnz_per_row translation /\
    length w = nrows.
Proof.
  assert (exists chunk,
             calculate_processing_chunk translation example_fetched
               example_pair example_assembly (map tileId example_stack)
             = Ok chunk /\
             row_pointers_in_range (omap chunk_arrays [chunk]) /\
             exists fr,
               create_CSR_A (fun _ => Ok tt) false example_stack [chunk]
               = Ok fr) as (chunk & Hchunk & Hrange & fr & Hfr).
  { eexists. split; [vm_compute; reflexivity|]. split.
    - exists 1000%Z.
      split; [apply (bool_decide_unpack _); vm_compute; exact I|].
      vm_compute. reflexivity.
    - eexists. vm_compute. reflexivity. }
  destruct (create_CSR_A_uniform_rows (fun _ => Ok tt) translation
              example_assembly (fun _ => example_fetched) example_stack
              [example_pair] [chunk] fr)
    as (A & w & nrows & H).
  - intros m pk qk sb. apply translation_ok.
  - constructor; [exact Hchunk|constructor].
  - exact Hrange.
  - exact Hfr.
  - by exists chunk, fr, A, w, nrows.
Defined.

(** The mask of the result is the fold of the masks of the chunks,
    whatever the output. *)
Lemma create_CSR_A_mask {Metadata : Type}
    (write_chunks_to_files : list Chunk -> result Metadata)
    (hdf5 : bool) (tilespecs : list TileSpec) (results : list Chunk)
    (fr : FuncResult Metadata) :
  create_CSR_A write_chunks_to_files hdf5 tilespecs results = Ok fr ->
  exists first,
    results !! 0 = Some first /\
    rfold (fun acc result => np.logical_or acc (tiles_used result))
      (tiles_used first) (drop 1 results) = Ok (fr_tiles_used fr).
Proof.
  unfold create_CSR_A, np.getitem. intros Hrun.
  destruct (results !! 0) as [first|]; [|done]. cbn [rbind] in Hrun.
  exists first. split; [done|].
  bind_ok Hrun. destruct hdf5.
  - bind_ok Hrun. by injection Hrun as <-.
  - do 5 bind_ok Hrun. by injection Hrun as <-.
Qed.

(** The mask of the result marks exactly the tiles that some chunk
    marks. *)
Lemma create_CSR_A_mask_or {Metadata : Type}
    (write_chunks_to_files : list Chunk -> result Metadata)
    (hdf5 : bool) (tilespecs : list TileSpec) (results : list Chunk)
    (fr : FuncResult Metadata) :
  Forall (fun c => length (tiles_used c) = length tilespecs) results ->
  create_CSR_A write_chunks_to_files hdf5 tilespecs results = Ok fr ->
  forall i,
    fr_tiles_used fr !! i = Some true <->
    exists c, c ∈ results /\ tiles_used c !! i = Some true.
Proof.
  intros Hlen Hrun.
  destruct (create_CSR_A_mask _ _ _ _ _ Hrun) as (first & Hfirst & Hfold).
  destruct results as [|c0 rest]; [done|]. injection Hfirst as ->.
  apply Forall_cons in Hlen as [Hfirst Hrest].
  destruct (logical_or_fold (length tilespecs) rest (tiles_used first)
              Hfirst Hrest) as (used & Hfold' & Hn & Hused).
  cbn [drop] in Hfold. rewrite drop_0, Hfold' in Hfold.
  injection Hfold as <-. intros i.
  destruct (decide (i < length tilespecs)) as [Hi|Hi].
  - rewrite (Hused i Hi). split.
    + intros [= Hb]. apply orb_true_iff in Hb as [Hb|Hb].
      * exists first. split; [left|].
        destruct (tiles_used first !! i) as [b|]; simpl in Hb; by subst.
      * apply existsb_exists in Hb as (c & Hc & Hb).
        exists c. split; [right; by apply list_elem_of_In|].
        destruct (tiles_used c !! i) as [b|]; simpl in Hb; by subst.
    + intros (c & Hc & Hb). f_equal. apply orb_true_iff.
      apply elem_of_cons in Hc as [->|Hc].
      * left. by rewrite Hb.
      * right. apply existsb_exists. exists c.
        split; [by apply list_elem_of_In|by rewrite Hb].
  - split.
    + intros Hb. apply lookup_lt_Some in Hb. lia.
    + intros (c & Hc & Hb). apply lookup_lt_Some in Hb.
      apply elem_of_cons in Hc as [->|Hc]; [lia|].
      pose proof (proj1 (Forall_forall _ _) Hrest c Hc). simpl in *. lia.
Qed.

(** X8.  When the tile ids are distinct, the tiles [create_CSR_A]
    marks as used, whatever the output, are exactly the tiles of the
    matches that gave a sub-block in the assembly of some pair. *)
Theorem create_CSR_A_tiles_used {Metadata : Type}
    (write_chunks_to_files : list Chunk -> result Metadata)
    (hdf5 : bool) (transform : AlignerTransform) (ma : MatrixAssembly)
    (get_matches : TilePair -> list PointMatch)
    (tilespecs : list TileSpec) (pairs : list TilePair)
    (results : list Chunk) (fr : FuncResult Metadata) :
  NoDup (map tileId tilespecs) ->
  pool_returned transform ma get_matches tilespecs pairs results ->
  create_CSR_A write_chunks_to_files hdf5 tilespecs results = Ok fr ->
  forall i,
    fr_tiles_used fr !! i = Some true <->
    exists pair m p q sb,
      pair ∈ pairs /\ m ∈ get_matches pair /\
      map tileId tilespecs !! p = Some (pId m) /\
      map tileId tilespecs !! q = Some (qId m) /\
      CSR_from_tilepair transform m p q
        (npts_min ma) (npts_max ma) (choose_random ma) = Some sb /\
      (i = p \/ i = q).
Proof.
  intros Hnodup Hpool Hrun.
  assert (Forall (fun c => length (tiles_used c) = length tilespecs) results)
    as Hlen.
  { apply Forall_forall. intros c Hc.
    apply list_elem_of_lookup_1 in Hc as (k & Hk).
    destruct (Forall2_lookup_r _ _ _ _ _ Hpool Hk) as (pair & _ & Hret).
    destruct (worker_mask _ _ _ _ _ _ Hnodup Hret) as [-> _].
    apply length_map. }
  intros i. rewrite (create_CSR_A_mask_or _ _ _ _ _ Hlen Hrun). split.
  - intros (c & Hc & Hi).
    apply list_elem_of_lookup_1 in Hc as (k & Hk).
    destruct (Forall2_lookup_r _ _ _ _ _ Hpool Hk) as (pair & Hpair & Hret).
    destruct (worker_mask _ _ _ _ _ _ Hnodup Hret) as [_ Hmarks].
    destruct (proj1 (Hmarks i) Hi) as (m & p & q & sb & Hm).
    exists pair, m, p, q, sb. split; [by eapply list_elem_of_lookup_2|done].
  - intros (tp & m & p & q & sb & Htp & Hm).
    apply list_elem_of_lookup_1 in Htp as (k & Hk).
    destruct (Forall2_lookup_l _ _ _ _ _ Hpool Hk) as (c & Hc & Hret).
    destruct (worker_mask _ _ _ _ _ _ Hnodup Hret) as [_ Hmarks].
    exists c. split; [by eapply list_elem_of_lookup_2|].
    apply Hmarks. by exists m, p, q, sb.
Qed.

Lemma create_CSR_A_tiles_used_witness :
  exists chunk fr,
    calculate_processing_chunk translation example_fetched example_pair
      example_assembly (map tileId example_stack) = Ok chunk /\
    create_CSR_A (fun _ => Ok tt) false example_stack [chunk] = Ok fr /\
    forall i,
      fr_tiles_used fr !! i = Some true <->
      exists pair m p q sb,
        pair ∈ [example_pair] /\ m ∈ example_fetched /\
        map tileId example_stack !! p = Some (pId m) /\
        map tileId example_stack !! q = Some (qId m) /\
        CSR_from_tilepair translation m p q
          (npts_min example_assembly) (npts_max example_assembly)
          (choose_random example_assembly) = Some sb /\
        (i = p \/ i = q).
Proof.
  assert (exists chunk,
             calculate_processing_chunk translation example_fetched
               example_pair example_assembly (map tileId example_stack)
             = Ok chunk /\
             exists fr,
               create_CSR_A (fun _ => Ok tt) false example_stack [chunk]
               = Ok fr) as (chunk & Hchunk & fr & Hfr).
  { eexists. split; [vm_compute; reflexivity|].
    eexists. vm_compute. reflexivity. }
  exists chunk, fr. split; [exact Hchunk|]. split; [exact Hfr|].
  apply (create_CSR_A_tiles_used (fun _ => Ok tt) false translation
           example_assembly (fun _ => example_fetched) example_stack
           [example_pair] [chunk] fr).
  - apply (bool_decide_unpack _). vm_compute. exact I.
  - constructor; [exact Hchunk|constructor].
  - exact Hfr.
Defined.

(** ** The paths of the driver *)

Lemma eqb_empty_false (s : string) : s <> "" -> String.eqb s "" = false.
Proof. intros Hs. by apply String.eqb_neq. Qed.

(** Reading or deleting a key of a dict whose keys are known. *)
Ltac key_step :=
  match goal with
  | |- context [getkey ?d ?k] =>
      let r := eval vm_compute in (d !! k) in
      match r with
      | Some ?v => change (getkey d k) with (@tret pyvalue v)
      | None => change (getkey d k) with (@traise pyvalue (KeyError k))
      end
  | |- context [delkey ?d ?k] =>
      let r := eval vm_compute in (d !! k) in
      match r with
      | Some _ => change (delkey d k) with (tret (delete k d))
      | None =>
          change (delkey d k) with (@traise (gmap string pyvalue) (KeyError k))
      end
  end.

Ltac drive :=
  repeat (cbn [tbind tret traise call require negb
               ingest_from_file assemble_from_file profile_data_load
               output_mode render_output];
          try key_step).

(** Reading the key ["x"] of the solver's results. *)
Ltac solver_key :=
  match goal with
  | |- context [getkey (<["Ashape" := PyObject]> ?r) "x"] =>
      unfold getkey at 1;
      rewrite (lookup_insert_ne r "Ashape" "x" PyObject) by done;
      destruct (r !! "x") as [[]|] eqn:?
  | |- context [getkey ?r "x"] =>
      unfold getkey at 1;
      destruct (r !! "x") as [[]|] eqn:?
  end.

Ltac absent Hin :=
  repeat (apply elem_of_cons in Hin as [?|Hin]; [done|]);
  by apply elem_of_nil in Hin.

(** X9.  A run that ingests a solved file makes the one call that
    reads the file and ends in an exception, whatever the other options
    are: the dict read from the file has no key [resolved] (read for
    stack output) and no key [x] (deleted at the end). *)
Theorem ingest_run_raises (W : World) (args : Args) :
  ingest_from_file args <> "" ->
  exists e,
    assemble_and_solve W args
      = ([CallAssembleFromHdf5 (ingest_from_file args) false], Raise e) /\
    (read_hdf5 W (ingest_from_file args) false = Ok tt ->
     e = KeyError (if String.eqb (output_mode args) "stack"
                   then "resolved" else "x")).
Proof.
  destruct args as [ingest from_file profile mode render].
  cbn [ingest_from_file output_mode]. intros Hingest.
  unfold assemble_and_solve, assemble_from_hdf5, output_and_return.
  cbn [ingest_from_file]. rewrite (eqb_empty_false _ Hingest).
  destruct (read_hdf5 W ingest false) as [[]|e0]; drive.
  - destruct (String.eqb mode "stack"); drive; by eexists.
  - by eexists.
Qed.

Lemma ingest_run_raises_witness :
  exists e,
    assemble_and_solve quiet_world profile_ingest_args
      = ([CallAssembleFromHdf5 "solved.h5" false], Raise e) /\
    (read_hdf5 quiet_world "solved.h5" false = Ok tt -> e = KeyError "x").
Proof.
  apply (ingest_run_raises quiet_world profile_ingest_args). discriminate.
Defined.

(** X10.  A run that does not ingest and assembles from a file ends
    in an exception before the solve and the output: when the file is
    read, the exception is [KeyError('tiles_used')], raised after the
    log of the matrix statistics, for the dict read from the file has no
    used-tile mask. *)
Theorem assemble_from_file_run_raises (W : World) (args : Args) :
  ingest_from_file args = "" ->
  assemble_from_file args <> "" ->
  exists t e,
    assemble_and_solve W args = (t, Raise e) /\
    (CallSolve ∉ t) /\ (CallWriteToNewStack ∉ t) /\
    (read_hdf5 W (assemble_from_file args) true = Ok tt ->
     t = [CallAssembleFromHdf5 (assemble_from_file args) true; CallMatStats] /\
     e = KeyError "tiles_used").
Proof.
  destruct args as [ingest from_file profile mode render].
  cbn [ingest_from_file assemble_from_file]. intros -> Hfile.
  unfold assemble_and_solve, assembly, assemble_from_hdf5.
  cbn [ingest_from_file assemble_from_file]. rewrite (eqb_empty_false _ Hfile).
  change (String.eqb "" "") with true.
  destruct (read_hdf5 W from_file true) as [[]|e0]; drive.
  - eexists _, _. split; [done|].
    split_and!; [| |done];
      (intros Hin; apply elem_of_cons in Hin as [?|Hin]; [done|];
       apply elem_of_cons in Hin as [?|Hin]; [done|];
       by apply elem_of_nil in Hin).
  - eexists _, _. split; [done|].
    split_and!; [| |done];
      (intros Hin; apply elem_of_cons in Hin as [?|Hin]; [done|];
       by apply elem_of_nil in Hin).
Qed.

Lemma assemble_from_file_run_raises_witness :
  exists t e,
    assemble_and_solve quiet_world from_file_args = (t, Raise e) /\
    (CallSolve ∉ t) /\ (CallWriteToNewStack ∉ t) /\
    (read_hdf5 quiet_world "assembled.h5" true = Ok tt ->
     t = [CallAssembleFromHdf5 "assembled.h5" true; CallMatStats] /\
     e = KeyError "tiles_used").
Proof.
  apply (assemble_from_file_run_raises quiet_world from_file_args);
    [reflexivity|discriminate].
Defined.

(** X11.  With hdf5 output the solver is never called, no tile
    specification is updated and nothing is written to a stack; a run
    that returns, returns [None]. *)
Theorem hdf5_output_never_solves (W : World) (args : Args)
    (t : list event) (r : result (option (gmap string pyvalue))) :
  output_mode args = "hdf5" ->
  assemble_and_solve W args = (t, r) ->
  (CallSolve ∉ t) /\ (CallUpdateTilespecs ∉ t) /\ (CallWriteToNewStack ∉ t) /\
  forall v, r = Ok v -> v = None.
Proof.
  destruct args as [ingest from_file profile mode render].
  cbn [output_mode]. intros ->.
  unfold assemble_and_solve, assembly, assemble_from_hdf5, assemble_from_db,
    solve_or_not, output_and_return.
  cbn [ingest_from_file assemble_from_file output_mode profile_data_load
       render_output].
  change (String.eqb "hdf5" "hdf5") with true.
  change (String.eqb "hdf5" "stack") with false.
  destruct (String.eqb ingest ""); cbn [negb].
  - destruct (String.eqb from_file ""); cbn [negb].
    + destruct (build_from_db W) as [[]|e0];
        [destruct (write_reg_and_tforms W) as [[]|e1]
        |destruct (write_reg_and_tforms W) as [[]|e1]|];
        destruct profile; drive; intros [= <- <-];
        (split_and!; [not_called|not_called|not_called|by intros v [= <-]]).
    + destruct (read_hdf5 W from_file true) as [[]|e0];
        destruct profile; drive; intros [= <- <-];
        (split_and!; [not_called|not_called|not_called|by intros v [= <-]]).
  - destruct (read_hdf5 W ingest false) as [[]|e0]; drive; intros [= <- <-];
      (split_and!; [not_called|not_called|not_called|by intros v [= <-]]).
Qed.

Lemma hdf5_output_never_solves_witness :
  assemble_and_solve hdf5_world hdf5_args = ([CallAssembleFromDb], Ok None) /\
  (CallSolve ∉ [CallAssembleFromDb]) /\
  (CallUpdateTilespecs ∉ [CallAssembleFromDb]) /\
  (CallWriteToNewStack ∉ [CallAssembleFromDb]) /\
  forall v : option (gmap string pyvalue), Ok None = Ok v -> v = None.
Proof.
  split; [vm_compute; reflexivity|].
  apply (hdf5_output_never_solves hdf5_world hdf5_args);
    [reflexivity|vm_compute; reflexivity].
Defined.

(** X12.  A run returns only when it assembles from the database with
    the profile option off.  With hdf5 output it then returns [None],
    the assembly having left no matrix; otherwise it returns the results
    of the solver, to which the key [Ashape] is added when there is a
    matrix. *)
Theorem assemble_and_solve_returns_solver_results (W : World) (args : Args)
    (t : list event) (v : option (gmap string pyvalue)) :
  assemble_and_solve W args = (t, Ok v) ->
  ingest_from_file args = "" /\ assemble_from_file args = "" /\
  profile_data_load args = false /\
  exists has_A,
    build_from_db W = Ok has_A /\
    if String.eqb (output_mode args) "hdf5"
    then v = None /\ has_A = false /\ CallSolve ∉ t
    else exists results,
        solve W = Ok results /\
        v = Some (if has_A then <["Ashape" := PyObject]> results else results).
Proof.
  destruct args as [ingest from_file profile mode render].
  unfold assemble_and_solve, assembly, assemble_from_hdf5, assemble_from_db,
    solve_or_not, output_and_return.
  cbn [ingest_from_file assemble_from_file output_mode profile_data_load
       render_output].
  destruct (String.eqb_spec ingest "") as [->|_]; cbn [negb].
  2:{ destruct (read_hdf5 W ingest false) as [[]|e0]; drive; [|done].
      destruct (String.eqb mode "stack"); drive; done. }
  destruct (String.eqb_spec from_file "") as [->|_]; cbn [negb].
  2:{ destruct (read_hdf5 W from_file true) as [[]|e0]; drive; done. }
  destruct (build_from_db W) as [has_A|e0]; [|drive; done].
  destruct (String.eqb mode "hdf5") eqn:Hhdf5.
  - apply String.eqb_eq in Hhdf5 as ->.
    change (String.eqb "hdf5" "stack") with false.
    destruct (write_reg_and_tforms W) as [[]|e1], has_A, profile;
      drive; try done.
    intros [= <- <-]. split_and!; try done.
    exists false. split_and!; try done. not_called.
  - destruct has_A, profile; drive; try done.
    + destruct (solve W) as [r0|e1]; drive; [|done].
      destruct (String.eqb mode "stack"); drive.
      * solver_key; drive; try done;
          (destruct (update_tilespecs W) as [[]|e2]; drive; [|done]);
          (destruct (write_to_new_stack W) as [[]|e3]; drive; [|done]);
          (destruct (String.eqb render "stdout"); drive;
           intros [= <- <-]; split_and!; try done;
           (exists true; split; [done|]; by exists r0)).
      * intros [= <- <-]. split_and!; try done.
        exists true. split; [done|]. by exists r0.
    + destruct (solve W) as [r0|e1]; drive; [|done].
      destruct (String.eqb mode "stack"); drive.
      * solver_key; drive; try done;
          (destruct (update_tilespecs W) as [[]|e2]; drive; [|done]);
          (destruct (write_to_new_stack W) as [[]|e3]; drive; [|done]);
          (destruct (String.eqb render "stdout"); drive;
           intros [= <- <-]; split_and!; try done;
           (exists false; split; [done|]; by exists r0)).
      * intros [= <- <-]. split_and!; try done.
        exists false. split; [done|]. by exists r0.
Qed.

Lemma assemble_and_solve_returns_solver_results_witness :
  ingest_from_file solve_args = "" /\ assemble_from_file solve_args = "" /\
  profile_data_load solve_args = false /\
  exists has_A,
    build_from_db quiet_world = Ok has_A /\
    exists results,
      solve quiet_world = Ok results /\
      Some (<["Ashape" := PyObject]> {["x" := PyObject]})
      = Some (if has_A then <["Ashape" := PyObject]> results else results).
Proof.
  apply (assemble_and_solve_returns_solver_results quiet_world solve_args
           [CallAssembleFromDb; CallMatStats; CallSolve]
           (Some (<["Ashape" := PyObject]> {["x" := PyObject]}))).
  vm_compute. reflexivity.
Defined.

(** X13.  Tiles are written to the output stack only in a run with
    stack output that assembles from the database, after the solver has
    returned results with the key [x] and the tile specifications have
    been updated with them; the write is the last call of the run. *)
Theorem stack_written_after_solve (W : World) (args : Args)
    (t : list event) (r : result (option (gmap string pyvalue))) :
  assemble_and_solve W args = (t, r) ->
  CallWriteToNewStack ∈ t ->
  output_mode args = "stack" /\
  ingest_from_file args = "" /\ assemble_from_file args = "" /\
  exists results pre,
    solve W = Ok results /\ is_Some (results !! "x") /\
    update_tilespecs W = Ok tt /\
    t = pre ++ [CallSolve; CallUpdateTilespecs; CallWriteToNewStack] /\
    (pre = [CallAssembleFromDb] \/ pre = [CallAssembleFromDb; CallMatStats]).
Proof.
  destruct args as [ingest from_file profile mode render].
  unfold assemble_and_solve, assembly, assemble_from_hdf5, assemble_from_db,
    solve_or_not, output_and_return.
  cbn [ingest_from_file assemble_from_file output_mode profile_data_load
       render_output].
  destruct (String.eqb_spec ingest "") as [->|_]; cbn [negb].
  2:{ destruct (read_hdf5 W ingest false) as [[]|e0]; drive.
      - destruct (String.eqb mode "stack"); drive;
          intros [= <- <-] Hin; absent Hin.
      - intros [= <- <-] Hin; absent Hin. }
  destruct (String.eqb_spec from_file "") as [->|_]; cbn [negb].
  2:{ destruct (read_hdf5 W from_file true) as [[]|e0]; drive;
        intros [= <- <-] Hin; absent Hin. }
  destruct (build_from_db W) as [has_A|e0]; [|drive; intros [= <- <-] Hin; absent Hin].
  destruct (String.eqb_spec mode "hdf5") as [->|_].
  { change (String.eqb "hdf5" "stack") with false.
    destruct (write_reg_and_tforms W) as [[]|e1], has_A, profile;
      drive; intros [= <- <-] Hin; absent Hin. }
  destruct has_A, profile; drive; try (intros [= <- <-] Hin; absent Hin).
  - destruct (solve W) as [r0|e1]; drive; [|intros [= <- <-] Hin; absent Hin].
    destruct (String.eqb_spec mode "stack") as [->|_]; drive;
      [|intros [= <- <-] Hin; absent Hin].
    solver_key; drive; try (intros [= <- <-] Hin; absent Hin);
      (destruct (update_tilespecs W) as [[]|e2]; drive;
       [|intros [= <- <-] Hin; absent Hin]);
      (destruct (write_to_new_stack W) as [[]|e3]; drive;
       [destruct (String.eqb render "stdout"); drive|]);
      intros [= <- <-] _; split_and!; try done;
      (exists r0, [CallAssembleFromDb; CallMatStats];
       split_and!; try done; by right).
  - destruct (solve W) as [r0|e1]; drive; [|intros [= <- <-] Hin; absent Hin].
    destruct (String.eqb_spec mode "stack") as [->|_]; drive;
      [|intros [= <- <-] Hin; absent Hin].
    solver_key; drive; try (intros [= <- <-] Hin; absent Hin);
      (destruct (update_tilespecs W) as [[]|e2]; drive;
       [|intros [= <- <-] Hin; absent Hin]);
      (destruct (write_to_new_stack W) as [[]|e3]; drive;
       [destruct (String.eqb render "stdout"); drive|]);
      intros [= <- <-] _; split_and!; try done;
      (exists r0, [CallAssembleFromDb];
       split_and!; try done; by left).
Qed.

Lemma stack_written_after_solve_witness :
  output_mode stack_args = "stack" /\
  ingest_from_file stack_args = "" /\ assemble_from_file stack_args = "" /\
  exists results pre,
    solve quiet_world = Ok results /\ is_Some (results !! "x") /\
    update_tilespecs quiet_world = Ok tt /\
    [CallAssembleFromDb; CallMatStats; CallSolve; CallUpdateTilespecs;
     CallWriteToNewStack]
    = pre ++ [CallSolve; CallUpdateTilespecs; CallWriteToNewStack] /\
    (pre = [CallAssembleFromDb] \/ pre = [CallAssembleFromDb; CallMatStats]).
Proof.
  apply (stack_written_after_solve quiet_world stack_args _
           (Ok (Some (<["Ashape" := PyObject]> {["x" := PyObject]})))).
  - vm_compute. reflexivity.
  - apply (bool_decide_unpack _). vm_compute. exact I.
Defined.

(** ** The schedule of a run *)

Lemma elem_of_arange_from (start stop z : Z) :
  z ∈ arange_from start stop <-> (start <= z < stop)%Z.
Proof.
  unfold arange_from. rewrite list_elem_of_fmap. split.
  - intros (i & -> & Hi). apply elem_of_seq in Hi. lia.
  - intros Hz. exists (Z.to_nat (z - start)). split; [lia|].
    apply elem_of_seq. lia.
Qed.

Lemma solve_sections_eq (W : RunWorld) (args : Args) (zvals : list Z)
    (s : RunState) :
  solve_sections W args zvals s =
    let '(calls, r) := assemble_and_solve (solve_world W zvals) args in
    match r with
    | Ok v => ([CallAssembleAndSolve zvals calls],
               {| input_db_interface := input_db_interface s;
                  self_results := Some v |}, Ok tt)
    | Raise e => ([CallAssembleAndSolve zvals calls], s, Raise e)
    end.
Proof.
  unfold solve_sections, abind, set_results.
  by destruct (assemble_and_solve (solve_world W zvals) args) as [calls [v|e]].
Qed.

(** The loop over the sections: it solves them in order and stops at
    the first one that raises. *)
Lemma afor_solve_sections (W : RunWorld) (args : Args) (zs : list Z) :
  forall s t s' r,
    afor zs (fun z => solve_sections W args [z]) s = (t, s', r) ->
    input_db_interface s' = input_db_interface s /\
    (CallSetStackState ∉ t) /\
    (forall zvals calls,
        CallAssembleAndSolve zvals calls ∈ t ->
        r = Ok tt ->
        exists v, assemble_and_solve (solve_world W zvals) args = (calls, Ok v)) /\
    exists n,
      solved_sections t = map (fun z => [z]) (take n zs) /\
      (r = Ok tt -> n = length zs).
Proof.
  induction zs as [|z zs IH]; intros s t s' r Hrun.
  { injection Hrun as <- <- <-. split_and!; [done|by intros ?%elem_of_nil| |].
    - by intros ? ? ?%elem_of_nil.
    - by exists 0. }
  cbn [afor] in Hrun. unfold abind at 1 in Hrun.
  rewrite solve_sections_eq in Hrun.
  destruct (assemble_and_solve (solve_world W [z]) args) as [calls [v|e]] eqn:Hz.
  - destruct (afor zs _ _) as [[t1 s1] r1] eqn:Hrest.
    injection Hrun as <- <- <-.
    destruct (IH _ _ _ _ Hrest) as (Hdb & Hstate & Hcalls & n & Hn & Hall).
    split_and!.
    + by rewrite Hdb.
    + simpl. intros Hin. apply elem_of_cons in Hin as [?|Hin]; done.
    + simpl. intros zvals calls' Hin Hr.
      apply elem_of_cons in Hin as [[= -> ->]|Hin]; [by exists v|].
      by apply Hcalls.
    + exists (S n). split; [simpl; by rewrite Hn|].
      intros Hr. simpl. by rewrite (Hall Hr).
  - injection Hrun as <- <- <-. split_and!.
    + done.
    + intros Hin. apply elem_of_cons in Hin as [?|Hin]; [done|].
      by apply elem_of_nil in Hin.
    + done.
    + exists 1. split; [by destruct zs|done].
Qed.

Lemma abind_inv {A B} (m : action A) (k : A -> action B) (s s' : RunState)
    (t : list run_event) (r : result B) :
  abind m k s = (t, s', r) ->
  (exists t1 s1 a t2,
      m s = (t1, s1, Ok a) /\ k a s1 = (t2, s', r) /\ t = t1 ++ t2) \/
  (exists e, m s = (t, s', Raise e) /\ r = Raise e).
Proof.
  unfold abind. destruct (m s) as [[t1 s1] [a|e]].
  - destruct (k a s1) as [[t2 s2] r2] eqn:Hk. intros [= <- <- <-].
    left. by exists t1, s1, a, t2.
  - intros [= <- <- <-]. right. by exists e.
Qed.

(** The output stage makes no solve and leaves the state alone; it
    gives a connection only for stack output. *)
Lemma open_output_spec (W : RunWorld) (args : Args) (s s' : RunState)
    (t : list run_event) (r : result pyvalue) :
  open_output W args s = (t, s', r) ->
  s' = s /\ solved_sections t = [] /\
  (CallSetStackState ∉ t) /\
  (forall zvals calls, CallAssembleAndSolve zvals calls ∉ t) /\
  (r = Ok PyObject -> output_mode args = "stack").
Proof.
  unfold open_output, abind, acall, aret.
  destruct (String.eqb_spec (output_mode args) "stack") as [Hmode|_].
  - destruct (connect_output W) as [conn|e]; [destruct (create_stack W) as [[]|e]|];
      intros [= <- <- <-]; split_and!; try done;
      try (intros Hin; repeat (apply elem_of_cons in Hin as [?|Hin]; [done|]);
           by apply elem_of_nil in Hin);
      (intros zvals calls Hin;
       repeat (apply elem_of_cons in Hin as [?|Hin]; [done|]);
       by apply elem_of_nil in Hin).
  - intros [= <- <- <-]. split_and!; try done.
    + by intros ?%elem_of_nil.
    + by intros ? ? ?%elem_of_nil.
Qed.

Lemma solved_sections_app (t1 t2 : list run_event) :
  solved_sections (t1 ++ t2) = solved_sections t1 ++ solved_sections t2.
Proof. apply omap_app. Qed.

(** The solve stage: what it leaves in the state, and the solves it
    makes. *)
Lemma solve_all_spec (W : RunWorld) (args : Args) (opts : RunOptions)
    (zvals : list Z) (s s' : RunState) (t : list run_event)
    (r : result unit) :
  solve_all W args opts zvals s = (t, s', r) ->
  (input_db_interface s' = input_db_interface s \/
   solve_type opts = "montage" /\ input_db_interface s' = "render" /\
   exists e, connect_input W "render" = Raise e /\ r = Raise e) /\
  (CallSetStackState ∉ t) /\
  (r = Ok tt ->
   (forall zs calls,
       CallAssembleAndSolve zs calls ∈ t ->
       exists v, assemble_and_solve (solve_world W zs) args = (calls, Ok v)) /\
   if String.eqb (solve_type opts) "montage" then
     exists z_in_stack,
       get_z_values_for_stack W = Ok z_in_stack /\
       solved_sections t
       = map (fun z => [z]) (filter (fun z => z_in z z_in_stack = true) zvals)
   else if String.eqb (solve_type opts) "3D" then solved_sections t = [zvals]
   else solved_sections t = []).
Proof.
  unfold solve_all.
  destruct (String.eqb_spec (solve_type opts) "montage") as [Hmontage|_].
  - unfold abind at 1, get_db_interface at 1.
    unfold abind at 1, set_db_interface at 1.
    unfold abind at 1, acall at 1. cbn [input_db_interface self_results].
    destruct (connect_input W "render") as [[]|e] eqn:Hconn.
    2:{ intros [= <- <- <-]. split_and!; [| |done].
        2:{ intros Hin. apply elem_of_cons in Hin as [?|Hin]; [done|].
            by apply elem_of_nil in Hin. }
        right. split_and!; [done|done|]. by exists e. }
    unfold abind at 1, set_db_interface at 1.
    unfold abind at 1, acall at 1. cbn [input_db_interface self_results].
    destruct (get_z_values_for_stack W) as [z_in_stack|e].
    2:{ intros [= <- <- <-]. split_and!; [by left| |done].
        intros Hin. repeat (apply elem_of_cons in Hin as [?|Hin]; [done|]).
        by apply elem_of_nil in Hin. }
    destruct (afor _ _ _) as [[t1 s1] r1] eqn:Hloop.
    intros [= <- <- <-].
    destruct (afor_solve_sections _ _ _ _ _ _ _ Hloop)
      as (Hdb & Hstate & Hcalls & n & Hn & Hall).
    split_and!.
    + left. by rewrite Hdb.
    + simpl. intros Hin.
      repeat (apply elem_of_cons in Hin as [?|Hin]; [done|]). done.
    + intros ->. split.
      * simpl. intros zs calls Hin.
        repeat (apply elem_of_cons in Hin as [?|Hin]; [done|]).
        by apply Hcalls.
      * exists z_in_stack. split; [done|]. simpl.
        rewrite Hn, (Hall eq_refl). by rewrite take_ge.
  - destruct (String.eqb_spec (solve_type opts) "3D") as [H3D|_].
    + rewrite solve_sections_eq.
      destruct (assemble_and_solve (solve_world W zvals) args)
        as [calls [v|e]] eqn:Hsolve;
        intros [= <- <- <-]; (split_and!; [by left| |]).
      * intros Hin. apply elem_of_cons in Hin as [?|Hin]; [done|].
        by apply elem_of_nil in Hin.
      * intros _. split; [|done]. intros zs calls' Hin.
        apply elem_of_cons in Hin as [[= -> ->]|Hin]; [by exists v|].
        by apply elem_of_nil in Hin.
      * intros Hin. apply elem_of_cons in Hin as [?|Hin]; [done|].
        by apply elem_of_nil in Hin.
      * done.
    + intros [= <- <- <-]. split_and!; [by left|by intros ?%elem_of_nil|].
      intros _. split; [|done]. by intros ? ? ?%elem_of_nil.
Qed.

(** X14.  What a run that returns has solved.  For a montage: each
    section from the first to the last that is among the z values of the
    stack, one at a time and in increasing order.  For a 3D solve: all
    the sections from the first to the last at once, whether they are in
    the stack or not.  For any other solve type: nothing.  Every solve
    made has returned. *)
Theorem run_solves_sections (W : RunWorld) (args : Args) (opts : RunOptions)
    (s s' : RunState) (t : list run_event) :
  run W args opts s = (t, s', Ok tt) ->
  let zvals := arange_from (first_section opts) (last_section opts + 1) in
  (forall zs calls,
      CallAssembleAndSolve zs calls ∈ t ->
      exists v, assemble_and_solve (solve_world W zs) args = (calls, Ok v)) /\
  if String.eqb (solve_type opts) "montage" then
    exists z_in_stack,
      get_z_values_for_stack W = Ok z_in_stack /\
      solved_sections t
      = map (fun z => [z]) (filter (fun z => z_in z z_in_stack = true) zvals)
  else if String.eqb (solve_type opts) "3D" then solved_sections t = [zvals]
  else solved_sections t = [].
Proof.
  intros Hrun zvals. unfold run in Hrun. fold zvals in Hrun.
  apply abind_inv in Hrun as [(t1 & s1 & conn & t2 & Hopen & Hrun & ->)|(e & _ & ?)];
    [|done].
  apply abind_inv in Hrun as [(t3 & s3 & [] & t4 & Hsolve & Hclose & ->)|(e & _ & ?)];
    [|done].
  destruct (open_output_spec _ _ _ _ _ _ Hopen) as (_ & Hnone1 & _ & Hno1 & _).
  destruct (solve_all_spec _ _ _ _ _ _ _ _ Hsolve) as (_ & _ & Hsolved).
  destruct (Hsolved eq_refl) as [Hret Hsched].
  assert (solved_sections t4 = [] /\
          forall zs calls, CallAssembleAndSolve zs calls ∉ t4) as [Hnone4 Hno4].
  { unfold close_output, acall, aret in Hclose.
    destruct conn; [|destruct (close_stack opts)];
      injection Hclose; intros; subst t4; (split; [done|]); intros zs calls Hin.
    - by apply elem_of_nil in Hin.
    - apply elem_of_cons in Hin as [?|Hin]; [done|]. by apply elem_of_nil in Hin.
    - by apply elem_of_nil in Hin. }
  split.
  - intros zs calls Hin.
    apply elem_of_app in Hin as [Hin|Hin]; [by apply Hno1 in Hin|].
    apply elem_of_app in Hin as [Hin|Hin]; [by apply Hret|by apply Hno4 in Hin].
  - rewrite !solved_sections_app, Hnone1, Hnone4, app_nil_r. exact Hsched.
Qed.

Lemma run_solves_sections_witness :
  exists t s',
    run quiet_run_world stack_args montage_options mongo_state
      = (t, s', Ok tt) /\
    solved_sections t = [[1]; [2]]%Z /\
    (forall zs calls,
        CallAssembleAndSolve zs calls ∈ t ->
        exists v,
          assemble_and_solve (solve_world quiet_run_world zs) stack_args
          = (calls, Ok v)) /\
    exists z_in_stack,
      get_z_values_for_stack quiet_run_world = Ok z_in_stack /\
      solved_sections t
      = map (fun z => [z])
          (filter (fun z => z_in z z_in_stack = true) (arange_from 1 (3 + 1))).
Proof.
  assert (exists t s',
             run quiet_run_world stack_args montage_options mongo_state
             = (t, s', Ok tt) /\
             solved_sections t = [[1]; [2]]%Z) as (t & s' & Hrun & Hsolved)
    by (eexists _, _; split; vm_compute; reflexivity).
  exists t, s'. split; [exact Hrun|]. split; [exact Hsolved|].
  exact (run_solves_sections quiet_run_world stack_args montage_options
           mongo_state s' t Hrun).
Defined.

(** X15.  The output stack is marked complete only as the last call
    of a run with stack output and the close option on, after every
    solve of the run has returned; the outcome of the run is then that
    of this call. *)
Theorem run_closes_stack_last (W : RunWorld) (args : Args) (opts : RunOptions)
    (s s' : RunState) (t : list run_event) (r : result unit) :
  run W args opts s = (t, s', r) ->
  CallSetStackState ∈ t ->
  output_mode args = "stack" /\ close_stack opts = true /\
  r = set_stack_state W /\
  (exists t0, t = t0 ++ [CallSetStackState] /\ CallSetStackState ∉ t0) /\
  forall zs calls,
    CallAssembleAndSolve zs calls ∈ t ->
    exists v, assemble_and_solve (solve_world W zs) args = (calls, Ok v).
Proof.
  intros Hrun Hin. unfold run in Hrun.
  apply abind_inv in Hrun as [(t1 & s1 & conn & t2 & Hopen & Hrun & ->)|(e & Hopen & ?)].
  2:{ by destruct (open_output_spec _ _ _ _ _ _ Hopen) as (_ & _ & ? & _). }
  destruct (open_output_spec _ _ _ _ _ _ Hopen) as (_ & _ & Hst1 & Hno1 & Hmode).
  apply abind_inv in Hrun as [(t3 & s3 & [] & t4 & Hsolve & Hclose & ->)|(e & Hsolve & ?)].
  2:{ destruct (solve_all_spec _ _ _ _ _ _ _ _ Hsolve) as (_ & Hst2 & _).
      apply elem_of_app in Hin as [?|?]; done. }
  destruct (solve_all_spec _ _ _ _ _ _ _ _ Hsolve) as (_ & Hst3 & Hsolved).
  destruct (Hsolved eq_refl) as [Hret _].
  unfold close_output, acall, aret in Hclose.
  destruct conn.
  { injection Hclose as <- _ _.
    apply elem_of_app in Hin as [?|Hin]; [done|].
    apply elem_of_app in Hin as [?|Hin]; [done|]. by apply elem_of_nil in Hin. }
  destruct (close_stack opts).
  2:{ injection Hclose as <- _ _.
      apply elem_of_app in Hin as [?|Hin]; [done|].
      apply elem_of_app in Hin as [?|Hin]; [done|]. by apply elem_of_nil in Hin. }
  injection Hclose as <- _ <-.
  split_and!; [by apply Hmode|done|done| |].
  - exists (t1 ++ t3). split; [by rewrite app_assoc|].
    intros Hin0. apply elem_of_app in Hin0 as [?|?]; done.
  - intros zs calls Hin1.
    apply elem_of_app in Hin1 as [Hin1|Hin1]; [by apply Hno1 in Hin1|].
    apply elem_of_app in Hin1 as [Hin1|Hin1]; [by apply Hret|].
    apply elem_of_cons in Hin1 as [?|Hin1]; [done|]. by apply elem_of_nil in Hin1.
Qed.

Lemma run_closes_stack_last_witness :
  exists t s' r,
    run quiet_run_world stack_args montage_options mongo_state = (t, s', r) /\
    output_mode stack_args = "stack" /\
    close_stack montage_options = true /\
    r = set_stack_state quiet_run_world /\
    (exists t0, t = t0 ++ [CallSetStackState] /\ CallSetStackState ∉ t0) /\
    forall zs calls,
      CallAssembleAndSolve zs calls ∈ t ->
      exists v,
        assemble_and_solve (solve_world quiet_run_world zs) stack_args
        = (calls, Ok v).
Proof.
  assert (exists t s' r,
             run quiet_run_world stack_args montage_options mongo_state
             = (t, s', r) /\
             last t = Some CallSetStackState) as (t & s' & r & Hrun & Hlast)
    by (eexists _, _, _; split; vm_compute; reflexivity).
  exists t, s', r. split; [exact Hrun|].
  apply (run_closes_stack_last quiet_run_world stack_args montage_options
           mongo_state s' t r Hrun).
  apply last_Some in Hlast as [t0 ->]. apply elem_of_app. right. left.
Defined.

(** X16.  [run] leaves the interface of the input stack as it found
    it, except when the connection made for a montage raises: the stack
    is then left with the interface [render]. *)
Theorem run_restores_db_interface (W : RunWorld) (args : Args)
    (opts : RunOptions) (s s' : RunState) (t : list run_event)
    (r : result unit) :
  run W args opts s = (t, s', r) ->
  input_db_interface s' = input_db_interface s \/
  solve_type opts = "montage" /\ input_db_interface s' = "render" /\
  exists e, connect_input W "render" = Raise e /\ r = Raise e.
Proof.
  intros Hrun. unfold run in Hrun.
  apply abind_inv in Hrun as [(t1 & s1 & conn & t2 & Hopen & Hrun & ->)|(e & Hopen & ?)].
  2:{ left. by destruct (open_output_spec _ _ _ _ _ _ Hopen) as (-> & _). }
  destruct (open_output_spec _ _ _ _ _ _ Hopen) as (-> & _).
  apply abind_inv in Hrun as [(t3 & s3 & [] & t4 & Hsolve & Hclose & ->)|(e & Hsolve & ->)].
  - destruct (solve_all_spec _ _ _ _ _ _ _ _ Hsolve) as ([Hdb|(_ & _ & e & _ & ?)] & _);
      [|done].
    left. rewrite <- Hdb.
    unfold close_output, acall, aret in Hclose.
    by destruct conn; [|destruct (close_stack opts)]; injection Hclose as _ <- _.
  - by destruct (solve_all_spec _ _ _ _ _ _ _ _ Hsolve) as (? & _).
Qed.

Lemma run_restores_db_interface_witness :
  (exists t s' r,
      run quiet_run_world stack_args montage_options mongo_state
        = (t, s', r) /\
      input_db_interface s' = "mongo") /\
  (exists t s' r,
      run offline_run_world stack_args montage_options mongo_state
        = (t, s', r) /\
      input_db_interface s' = "render").
Proof.
  split.
  - assert (exists t s' r,
               run quiet_run_world stack_args montage_options mongo_state
               = (t, s', r) /\ r = Ok tt) as (t & s' & r & Hrun & Hr)
      by (eexists _, _, _; split; vm_compute; reflexivity).
    exists t, s', r. split; [exact Hrun|].
    destruct (run_restores_db_interface quiet_run_world stack_args
                montage_options mongo_state s' t r Hrun)
      as [Hdb|(_ & _ & e & Hconn & _)]; [exact Hdb|discriminate Hconn].
  - assert (exists t s' r,
               run offline_run_world stack_args montage_options mongo_state
               = (t, s', r) /\ input_db_interface s' <> "mongo")
      as (t & s' & r & Hrun & Hs')
      by (eexists _, _, _; split; vm_compute; [reflexivity|discriminate]).
    exists t, s', r. split; [exact Hrun|].
    destruct (run_restores_db_interface offline_run_world stack_args
                montage_options mongo_state s' t r Hrun)
      as [Hdb|(_ & Hdb & _)]; [by destruct Hs'|exact Hdb].
Defined.

(** ** The transforms of a solved file *)

Lemma transforms_name_inj : Inj (=) (=) transforms_name.
Proof.
  intros j k Hjk. unfold transforms_name in Hjk.
  apply (inj (String.append "transforms_")) in Hjk.
  by apply (inj pretty) in Hjk.
Qed.

(** The names up to [n] cannot all be datasets of a file with fewer
    than [n] datasets. *)
Lemma transforms_names_bound {Dataset : Type} (f : gmap string Dataset)
    (n : nat) :
  (forall k, k < n -> is_Some (f !! transforms_name k)) -> n <= size f.
Proof.
  intros Hall.
  assert (list_to_set (map transforms_name (seq 0 n)) ⊆ dom f) as Hsub.
  { intros x Hx. apply elem_of_list_to_set, list_elem_of_fmap in Hx
      as (k & -> & Hk).
    apply elem_of_dom, Hall. apply elem_of_seq in Hk. lia. }
  apply subseteq_size in Hsub.
  rewrite size_dom, size_list_to_set in Hsub.
  - by rewrite length_map, length_seq in Hsub.
  - apply (NoDup_fmap_2 _), NoDup_seq.
Qed.

Lemma read_transforms_from_spec {Dataset : Type} (f : gmap string Dataset)
    (fuel : nat) :
  forall (k : nat) (tforms : list Dataset),
    k + fuel > size f ->
    (forall j, j < k -> is_Some (f !! transforms_name j)) ->
    exists n more,
      read_transforms_from fuel f k tforms = Some (tforms ++ more) /\
      length more = n /\
      (forall j, j < n -> f !! transforms_name (k + j) = more !! j) /\
      f !! transforms_name (k + n) = None.
Proof.
  induction fuel as [|fuel IH]; intros k tforms Hfuel Hbelow.
  { pose proof (transforms_names_bound f k Hbelow). lia. }
  simpl. destruct (f !! transforms_name k) as [tform|] eqn:Hk.
  - destruct (IH (S k) (tforms ++ [tform])) as (n & more & -> & Hn & Hmore & Hend).
    + lia.
    + intros j Hj. destruct (decide (j = k)) as [->|]; [by rewrite Hk|].
      apply Hbelow. lia.
    + exists (S n), (tform :: more). split_and!.
      * by rewrite <- app_assoc.
      * simpl. by rewrite Hn.
      * intros [|j] Hj; simpl.
        -- by rewrite Nat.add_0_r.
        -- rewrite <- Hmore by lia. f_equal. f_equal. lia.
      * rewrite <- Hend. f_equal. f_equal. lia.
  - exists 0, []. split_and!.
    + by rewrite app_nil_r.
    + done.
    + intros j Hj. lia.
    + by rewrite Nat.add_0_r.
Qed.

(** X17.  The loop that reads the transforms of a solved file ends,
    having read the datasets [transforms_0], [transforms_1], ... up to
    the first name the file does not have: a dataset named after a gap
    is not read. *)
Theorem read_transforms_prefix {Dataset : Type} (f : gmap string Dataset) :
  exists tforms,
    read_transforms f = Some tforms /\
    (forall k, k < length tforms -> f !! transforms_name k = tforms !! k) /\
    f !! transforms_name (length tforms) = None.
Proof.
  unfold read_transforms.
  destruct (read_transforms_from_spec f (S (size f)) 0 [])
    as (n & more & Hread & Hn & Hmore & Hend); [lia|intros j Hj; lia|].
  exists more. simpl in *. rewrite Hn. by split_and!.
Qed.

(** ** The data files *)

(** The state of the loop after the first file and what the later
    files add. *)
Lemma read_datafiles_fold (h5py_File : string -> result DataFile)
    (names : list string) (parts : list Merged) :
  Forall2 (fun fname a => h5py_File fname = Ok (file_of a)) names parts ->
  forall acc : Merged,
    m_indptr acc <> [] ->
    rfold (read_datafile h5py_File)
      {| l_data := m_data acc; l_weights := m_weights acc;
         l_indices := m_indices acc; l_indptr := m_indptr acc; l_i := 1 |}
      names
    = let merged := foldl merge_step acc parts in
      Ok {| l_data := m_data merged; l_weights := m_weights merged;
            l_indices := m_indices merged; l_indptr := m_indptr merged;
            l_i := 1 |}.
Proof.
  induction 1 as [|fname a names parts Hopen _ IH]; intros acc Hacc; [done|].
  cbn [rfold foldl]. unfold read_datafile at 1. rewrite Hopen.
  cbn [rbind file_of file_data file_indices file_indptr file_weights require
       l_data l_weights l_indices l_indptr l_i].
  rewrite decide_False by done.
  unfold np.getlast.
  destruct (last (m_indptr acc)) as [lastptr|] eqn:Hlast;
    [|by apply last_None in Hlast].
  cbn [rbind fst snd]. unfold np.append.
  assert (m_indptr (merge_step acc a)
          = m_indptr acc ++ map (fun p => (p + lastptr)%Z) (tail (m_indptr a)))
    as Hstep by (cbn [merge_step m_indptr]; by rewrite Hlast).
  rewrite <- Hstep. apply (IH (merge_step acc a)).
  rewrite Hstep. by destruct (m_indptr acc).
Qed.

(** X18.  Read back from files that hold, in order, the arrays of
    the chunks that have data (row pointers starting at 0 and small
    enough for their sums to stay in the range of [int64]), the loop of
    [assemble_from_hdf5] over the data files (lines 367-386) ends
    without raising, and the four arrays [data], [indices], [indptr] and
    [weights] it leaves are those that [concatenate_results] builds from
    the chunks.  The construction of the matrix from them at line 388
    is not covered. *)
Theorem read_datafiles_agrees_with_concatenate_results
    (h5py_File : string -> result DataFile) (datafile_names : list string)
    (chunks : list Chunk) (merged : Merged) :
  Forall chunk_wf chunks ->
  Forall (fun a => head (m_indptr a) = Some 0%Z) (omap chunk_arrays chunks) ->
  row_pointers_in_range (omap chunk_arrays chunks) ->
  Forall2 (fun fname a => h5py_File fname = Ok (file_of a))
    datafile_names (omap chunk_arrays chunks) ->
  concatenate_results chunks = Ok merged ->
  read_datafiles h5py_File datafile_names
  = Ok {| l_data := m_data merged;
          l_weights := m_weights merged;
          l_indices := m_indices merged;
          l_indptr := m_indptr merged;
          l_i := 1 |}.
Proof.
  intros Hwf Hheads _ Hfiles Hmerged.
  destruct (omap chunk_arrays chunks) as [|a parts] eqn:Harrays.
  { rewrite concatenate_results_without_data in Hmerged; [done|].
    by apply no_arrays_no_data. }
  rewrite (concatenate_results_spec chunks a parts Hwf Harrays Hheads) in Hmerged.
  injection Hmerged as <-.
  apply Forall2_cons_inv_r in Hfiles as (fname & names & Hopen & Hfiles & ->).
  unfold read_datafiles. cbn [rfold]. unfold read_datafile at 1. rewrite Hopen.
  cbn [rbind file_of file_data file_indices file_indptr file_weights require
       l_data l_weights l_indices l_indptr l_i].
  rewrite decide_True by done. cbn [rbind fst snd]. unfold np.append.
  cbn [app]. change (0 + 1) with 1.
  rewrite (read_datafiles_fold h5py_File names parts Hfiles a).
  - done.
  - apply Forall_inv in Hheads. by destruct (m_indptr a).
Qed.

Lemma read_datafiles_agrees_with_concatenate_results_witness :
  exists merged,
    concatenate_results example_chunks = Ok merged /\
    read_datafiles example_h5py_File ["data_0.h5"; "data_1.h5"]
    = Ok {| l_data := m_data merged;
            l_weights := m_weights merged;
            l_indices := m_indices merged;
            l_indptr := m_indptr merged;
            l_i := 1 |}.
Proof.
  assert (exists merged, concatenate_results example_chunks = Ok merged)
    as [merged Hmerged] by (eexists; vm_compute; reflexivity).
  exists merged. split; [exact Hmerged|].
  apply (read_datafiles_agrees_with_concatenate_results example_h5py_File
           ["data_0.h5"; "data_1.h5"] example_chunks merged).
  - unfold example_chunks.
    apply Forall_cons; split; [left; by repeat split|].
    apply Forall_cons; split; [right; repeat split; by eexists|].
    apply Forall_cons; split; [left; by repeat split|].
    apply Forall_cons; split; [right; repeat split; by eexists|].
    constructor.
  - vm_compute. repeat constructor.
  - exists 8%Z.
    split; [apply (bool_decide_unpack _); vm_compute; exact I|].
    vm_compute. reflexivity.
  - vm_compute. repeat constructor.
  - exact Hmerged.
Defined.
